(** * XBRL financial lookup: a shallow embedding and its checked properties

    The development follows the three Python modules of the repository:
    - [Parser]  : parsers/edgar_parser.py  (EDGAR client, XBRL processor)
    - [Db]      : database/db_manager.py   (production store)
    - [App]     : main_app.py              (legacy store, search engine)

    Python values are modelled as the code has them: [str] as [string],
    [float] as an IEEE-754 binary64 [spec_float], dictionaries that are
    iterated as association lists in insertion order, exceptions as an
    error monad.  A [string] is a sequence of bytes: case folding, white
    space and lengths are those of ASCII text.  SQLite tables are lists of
    rows in rowid order; where SQL leaves the order of rows open (ties of
    [ORDER BY]) the model keeps the order the rows had. *)

From Stdlib Require Import ZArith String Ascii List Bool Lia Sorted Permutation.
From Stdlib Require Import DecimalString Floats.SpecFloat.
From stdpp Require Import gmap strings list.

Local Open Scope Z_scope.

(** ** Python runtime: exceptions, strings, numbers *)

Module Py.

Inductive exn :=
| ValueError
| TypeError
| OverflowError
| RecursionError.

Inductive result (A : Type) :=
| Ok (a : A)
| Raise (e : exn).
Arguments Ok {A} a.
Arguments Raise {A} e.

Definition bind {A B} (m : result A) (k : A -> result B) : result B :=
  match m with
  | Ok a => k a
  | Raise e => Raise e
  end.

Notation "'let*' x ':=' m 'in' k" := (bind m (fun x => k))
  (at level 10, x name, m at level 100, k at level 200).

(** [try: body except (ValueError, TypeError): handler] *)
Definition try_except_value_type {A} (body : result A) (handler : A) : result A :=
  match body with
  | Ok a => Ok a
  | Raise ValueError => Ok handler
  | Raise TypeError => Ok handler
  | Raise e => Raise e
  end.

(** [for x in xs: acc.extend(body x)], stopping at the first exception. *)
Fixpoint for_extend {A B} (body : A -> result (list B)) (xs : list A)
  : result (list B) :=
  match xs with
  | [] => Ok []
  | x :: xs' =>
      let* ys := body x in
      let* zs := for_extend body xs' in
      Ok (ys ++ zs)
  end.

(** [d.get(k)] on a dictionary kept as its [items()] in insertion order. *)
Fixpoint dict_get {V} (d : list (string * V)) (k : string) : option V :=
  match d with
  | [] => None
  | (k', v) :: d' => if String.eqb k' k then Some v else dict_get d' k
  end.

Definition dict_get_default {V} (d : list (string * V)) (k : string) (dflt : V) : V :=
  match dict_get d k with
  | Some v => v
  | None => dflt
  end.

(** [k in d] *)
Definition dict_mem {V} (d : list (string * V)) (k : string) : bool :=
  match dict_get d k with
  | Some _ => true
  | None => false
  end.

(** [x in xs] for a list of strings *)
Definition str_in (x : string) (xs : list string) : bool :=
  existsb (String.eqb x) xs.

(** [s.lstrip('0')] *)
Fixpoint lstrip_zeros (s : string) : string :=
  match s with
  | String "0"%char s' => lstrip_zeros s'
  | _ => s
  end.

(** [s.replace('-', '')] *)
Fixpoint remove_dashes (s : string) : string :=
  match s with
  | EmptyString => EmptyString
  | String "-"%char s' => remove_dashes s'
  | String c s' => String c (remove_dashes s')
  end.

(** [s.zfill(width)]: pads with zeros on the left, after a leading sign. *)
Definition zeros (n : nat) : string :=
  string_of_list_ascii (repeat "0"%char n).

Definition zfill (width : nat) (s : string) : string :=
  let pad := zeros (width - String.length s) in
  match s with
  | String "+"%char s' => String "+"%char (pad +:+ s')
  | String "-"%char s' => String "-"%char (pad +:+ s')
  | _ => pad +:+ s
  end.

(** [s[:n]] *)
Definition str_take (n : nat) (s : string) : string := String.substring 0 n s.

(** [str(z)] for an [int] *)
Definition str_of_int (z : Z) : string :=
  NilZero.string_of_int (Z.to_int z).

(** [c.isspace()] on ASCII *)
Definition is_space (c : ascii) : bool :=
  let n := N_of_ascii c in
  ((9 <=? n) && (n <=? 13) || (28 <=? n) && (n <=? 32))%N.

Definition digit_value (c : ascii) : option Z :=
  let n := N_of_ascii c in
  if ((48 <=? n) && (n <=? 57))%N then Some (Z.of_N n - 48) else None.

Fixpoint lstrip_spaces (s : list ascii) : list ascii :=
  match s with
  | c :: s' => if is_space c then lstrip_spaces s' else s
  | [] => []
  end.

(** [s.strip()] *)
Definition strip (s : list ascii) : list ascii :=
  rev (lstrip_spaces (rev (lstrip_spaces s))).

(** Decimal digits with single underscores between them, as [int] reads
    them.  [after_digit] tells whether the previous character was a digit. *)
Fixpoint int_digits (acc : Z) (after_digit : bool) (s : list ascii) : option Z :=
  match s with
  | [] => if after_digit then Some acc else None
  | c :: s' =>
      match digit_value c with
      | Some d => int_digits (10 * acc + d) true s'
      | None =>
          if Ascii.eqb c "_" && after_digit then
            match s' with
            | [] => None
            | _ => int_digits acc false s'
            end
          else None
      end
  end.

(** [int(s)] for a [str] of ASCII characters: surrounding white space, an
    optional sign, decimal digits.  [None] stands for [ValueError]. *)
Definition int_of_str (s : string) : option Z :=
  match strip (list_ascii_of_string s) with
  | "+"%char :: ds => int_digits 0 false ds
  | "-"%char :: ds => option_map Z.opp (int_digits 0 false ds)
  | ds => int_digits 0 false ds
  end.

(** [l[:n]] and [DataFrame.head(n)]: the first [n] items, all but the last
    [-n] for a negative [n]. *)
Definition head {A} (n : Z) (l : list A) : list A :=
  if n <? 0 then firstn (length l - Z.to_nat (- n)) l
  else firstn (Z.to_nat n) l.

(** SQL [LIMIT n]: a negative [n] is no limit. *)
Definition sql_limit {A} (n : Z) (l : list A) : list A :=
  if n <? 0 then l else firstn (Z.to_nat n) l.

(** A stable sort, for [ORDER BY] and [sort_values]: items that compare equal
    keep the order they came in. *)
Section Sort.
Context {A : Type} (le : A -> A -> bool).

Fixpoint insert_sorted (x : A) (l : list A) : list A :=
  match l with
  | [] => [x]
  | y :: l' => if le x y then x :: y :: l' else y :: insert_sorted x l'
  end.

Fixpoint stable_sort (l : list A) : list A :=
  match l with
  | [] => []
  | x :: l' => insert_sorted x (stable_sort l')
  end.
End Sort.

(** [drop_duplicates(subset=key)] and [SELECT DISTINCT]: the first row of
    every key, in order.  [seen] holds the keys met so far. *)
Fixpoint drop_duplicates_from {A K} `{EqDecision K} (key : A -> K)
    (seen : list K) (l : list A) : list A :=
  match l with
  | [] => []
  | x :: l' =>
      if decide (key x ∈ seen) then drop_duplicates_from key seen l'
      else x :: drop_duplicates_from key (key x :: seen) l'
  end.

Definition drop_duplicates {A K} `{EqDecision K} (key : A -> K) (l : list A)
  : list A :=
  drop_duplicates_from key [] l.

(** [c.lower()] on ASCII *)
Definition lower_char (c : ascii) : ascii :=
  let n := N_of_ascii c in
  if ((65 <=? n) && (n <=? 90))%N then ascii_of_N (n + 32) else c.

(** [s.lower()] *)
Fixpoint lower (s : string) : string :=
  match s with
  | EmptyString => EmptyString
  | String c s' => String (lower_char c) (lower s')
  end.

(** [a in b] for two [str]: [a] occurs in [b]. *)
Fixpoint str_contains (a b : string) : bool :=
  String.prefix a b ||
  match b with
  | EmptyString => false
  | String _ b' => str_contains a b'
  end.

(** [s.split()]: the maximal runs of characters that are no white space. *)
Fixpoint split_go (cur : list ascii) (s : list ascii) : list string :=
  match s with
  | [] => match cur with [] => [] | _ => [string_of_list_ascii (rev cur)] end
  | c :: s' =>
      if is_space c then
        match cur with
        | [] => split_go [] s'
        | _ => string_of_list_ascii (rev cur) :: split_go [] s'
        end
      else split_go (c :: cur) s'
  end.

Definition split (s : string) : list string :=
  split_go [] (list_ascii_of_string s).

(** SQLite's [text LIKE pattern]: [%] stands for any run of characters, [_]
    for any one character, letters of ASCII match without regard to case. *)
Fixpoint like_chars (pattern text : list ascii) : bool :=
  match pattern with
  | [] => match text with [] => true | _ => false end
  | p :: pattern' =>
      if Ascii.eqb p "%" then
        (fix any (text : list ascii) : bool :=
           like_chars pattern' text ||
           match text with
           | [] => false
           | _ :: text' => any text'
           end) text
      else
        match text with
        | [] => false
        | c :: text' =>
            (Ascii.eqb p "_" || Ascii.eqb (lower_char p) (lower_char c))
            && like_chars pattern' text'
        end
  end.

(** [column LIKE pattern] for a nullable column: NULL is never a match. *)
Definition sql_like (column : option string) (pattern : string) : bool :=
  match column with
  | Some text => like_chars (list_ascii_of_string pattern) (list_ascii_of_string text)
  | None => false
  end.

(** Python's [float] is binary64. *)
Definition prec : Z := 53.
Definition emax : Z := 1024.

Definition float_zero : spec_float := S754_zero false.
Definition float_one : spec_float := binary_normalize prec emax 1 0 false.

(** [float(z)] for an [int]: round to nearest even, [OverflowError] when the
    rounded magnitude does not fit. *)
Definition float_of_int (z : Z) : result spec_float :=
  match binary_normalize prec emax z 0 false with
  | S754_infinity _ => Raise OverflowError
  | f => Ok f
  end.

(** The dynamically typed values a JSON field can hold.  The contents of
    arrays and objects play no part in what the code does with them. *)
Inductive pyval :=
| PyNone
| PyBool (b : bool)
| PyInt (z : Z)
| PyFloat (f : spec_float)
| PyStr (s : string)
| PyList
| PyDict.

Section Float.
(** [float(s)] for a [str] is the interpreter's parser; it is a parameter
    of the model: [None] stands for [ValueError]. *)
Variable float_of_str : string -> option spec_float.

(** [float(v)] *)
Definition float (v : pyval) : result spec_float :=
  match v with
  | PyNone => Raise TypeError
  | PyBool b => Ok (if b then float_one else float_zero)
  | PyInt z => float_of_int z
  | PyFloat f => Ok f
  | PyStr s =>
      match float_of_str s with
      | Some f => Ok f
      | None => Raise ValueError
      end
  | PyList => Raise TypeError
  | PyDict => Raise TypeError
  end.

End Float.

Global Instance spec_float_eq_dec : EqDecision spec_float.
Proof. solve_decision. Defined.

(** [c.upper()] on ASCII *)
Definition upper_char (c : ascii) : ascii :=
  let n := N_of_ascii c in
  if ((97 <=? n) && (n <=? 122))%N then ascii_of_N (n - 32) else c.

(** [s.upper()] *)
Fixpoint upper (s : string) : string :=
  match s with
  | EmptyString => EmptyString
  | String c s' => String (upper_char c) (upper s')
  end.

(** The order of a nullable INTEGER column: NULL comes before every number. *)
Definition null_leb (a b : option Z) : bool :=
  match a, b with
  | None, _ => true
  | Some _, None => false
  | Some x, Some y => x <=? y
  end.

End Py.

Import Py.

(** ** parsers/edgar_parser.py *)

Module Parser.

(** [@dataclass class CompanyFact] *)
Record CompanyFact := mkCompanyFact {
  cik : string;
  company_name : string;
  tag : string;
  label : string;
  description : string;
  value : spec_float;
  unit_ : string;
  end_date : string;
  form_type : string;
  filed_date : string;
  accession_number : string;
  sec_url : string
}.

(** *** The raw document

    The response of the companyfacts endpoint:
    [facts -> namespace -> tag -> {label, description, units: {unit -> [entry]}}].
    Every key the extractor reads with [.get] may be absent ([None]); [val] is
    dynamically typed, the other values have the type [CompanyFact] gives
    their field.  Keys the extractor never reads are not represented. *)

Record Entry := mkEntry {
  entry_form : option string;
  entry_accn : option string;
  entry_val : option pyval;
  entry_end : option string;
  entry_filed : option string
}.

Record TagData := mkTagData {
  td_label : option string;
  td_description : option string;
  td_units : option (list (string * list Entry))
}.

Definition Namespace := list (string * TagData).

(** The [cik] of a document is a JSON number in the service's answers and a
    string in hand-written ones. *)
Inductive CikValue :=
| CikInt (z : Z)
| CikStr (s : string).

Record CompanyData := mkCompanyData {
  cd_entityName : option string;
  cd_cik : option CikValue;
  cd_facts : option (list (string * Namespace))
}.

(** [XBRLProcessor.key_financial_tags] *)
Definition key_financial_tags : list (string * string) :=
  [ ("Revenues", "Total Revenue");
    ("SalesRevenueNet", "Net Sales");
    ("RevenueFromContractWithCustomerExcludingAssessedTax", "Revenue from Contracts");
    ("Assets", "Total Assets");
    ("AssetsCurrent", "Current Assets");
    ("AssetsNoncurrent", "Non-current Assets");
    ("CashAndCashEquivalentsAtCarryingValue", "Cash and Cash Equivalents");
    ("Liabilities", "Total Liabilities");
    ("LiabilitiesCurrent", "Current Liabilities");
    ("StockholdersEquity", "Stockholders Equity");
    ("CostOfGoodsAndServicesSold", "Cost of Goods Sold");
    ("GrossProfit", "Gross Profit");
    ("OperatingIncomeLoss", "Operating Income");
    ("NetIncomeLoss", "Net Income");
    ("EarningsPerShareBasic", "Basic EPS");
    ("EarningsPerShareDiluted", "Diluted EPS");
    ("NetCashProvidedByUsedInOperatingActivities", "Operating Cash Flow");
    ("NetCashProvidedByUsedInInvestingActivities", "Investing Cash Flow");
    ("NetCashProvidedByUsedInFinancingActivities", "Financing Cash Flow") ].

(** The two entity-metadata tags of [extract_financial_facts]. *)
Definition dei_tags : list string :=
  [ "EntityCommonStockSharesOutstanding"; "EntityPublicFloat" ].

(** The filing types of [_process_financial_tag]. *)
Definition recognized_forms : list string := [ "10-K"; "10-Q" ].

(** The allow-list of the specification: curated tags and metadata tags. *)
Definition allow_list : list string := map fst key_financial_tags ++ dei_tags.

(** [XBRLProcessor._build_sec_url] *)
Definition _build_sec_url (cik accession_number : string) : string :=
  if String.eqb cik "" || String.eqb accession_number "" then ""
  else
    let clean_cik := lstrip_zeros cik in
    let clean_accession := remove_dashes accession_number in
    let filename := accession_number +:+ ".htm" in
    "https://www.sec.gov/ix?doc=/Archives/edgar/data/" +:+ clean_cik +:+ "/"
      +:+ clean_accession +:+ "/" +:+ filename.

Section Extractor.
Variable float_of_str : string -> option spec_float.

(** The body of the inner loop of [_process_financial_tag]: the facts one
    entry adds ([[]] on [continue]). *)
Definition process_entry (cik company_name tag label description unit_ : string)
    (entry : Entry) : result (list CompanyFact) :=
  let form_type := default "" (entry_form entry) in
  if negb (str_in form_type recognized_forms) then Ok []
  else
    try_except_value_type
      (let accession := default "" (entry_accn entry) in
       let sec_url :=
         if negb (String.eqb accession "") then _build_sec_url cik accession
         else "" in
       let* value := float float_of_str (default (PyInt 0) (entry_val entry)) in
       Ok [ mkCompanyFact cik company_name tag label description value unit_
              (default "" (entry_end entry)) form_type
              (default "" (entry_filed entry)) accession sec_url ])
      [].

(** [XBRLProcessor._process_financial_tag] *)
Definition _process_financial_tag (cik company_name tag : string)
    (tag_data : TagData) : result (list CompanyFact) :=
  let label :=
    default (dict_get_default key_financial_tags tag tag) (td_label tag_data) in
  let description := default "" (td_description tag_data) in
  let units_data := default [] (td_units tag_data) in
  for_extend
    (fun '(unit_, entries) =>
       for_extend (process_entry cik company_name tag label description unit_)
         entries)
    units_data.

(** One namespace loop of [extract_financial_facts]. *)
Definition process_namespace (keep : string -> bool) (cik company_name : string)
    (ns : Namespace) : result (list CompanyFact) :=
  for_extend
    (fun '(tag, tag_data) =>
       if keep tag then _process_financial_tag cik company_name tag tag_data
       else Ok [])
    ns.

Definition cik_str (c : option CikValue) : string :=
  match c with
  | None => ""
  | Some (CikInt z) => str_of_int z
  | Some (CikStr s) => s
  end.

(** [XBRLProcessor.extract_financial_facts].  The argument is [None] for
    Python's [None]; a dictionary without the key ['facts'] (the empty
    dictionary among them) has [cd_facts = None]. *)
Definition extract_financial_facts (company_data : option CompanyData)
  : result (list CompanyFact) :=
  match company_data with
  | None => Ok []
  | Some d =>
      match cd_facts d with
      | None => Ok []
      | Some all_facts =>
          let company_name := default "Unknown Company" (cd_entityName d) in
          let cik := cik_str (cd_cik d) in
          let us_gaap_facts := dict_get_default all_facts "us-gaap" [] in
          let* facts1 := process_namespace (dict_mem key_financial_tags)
                           cik company_name us_gaap_facts in
          let dei_facts := dict_get_default all_facts "dei" [] in
          let* facts2 := process_namespace (fun t => str_in t dei_tags)
                           cik company_name dei_facts in
          Ok (facts1 ++ facts2)
      end
  end.
End Extractor.


Section Scrub.
Variable float_of_str : string -> option spec_float.




End Scrub.



(** An annual entry for concept tag [t]. *)
Definition annual_for (t : string) (f : CompanyFact) : Prop :=
  form_type f = "10-K" /\ tag f = t.

(** [a > b] on [str]: lexicographic by code unit. *)
Definition str_gt (a b : string) : bool := String.ltb b a.

(** The loop body of [get_latest_annual_data]. *)
Definition latest_annual_step (latest_annual : gmap string CompanyFact)
    (fact : CompanyFact) : gmap string CompanyFact :=
  if String.eqb (form_type fact) "10-K" then
    let key := tag fact in
    match latest_annual !! key with
    | None => <[key := fact]> latest_annual
    | Some current =>
        if str_gt (end_date fact) (end_date current)
        then <[key := fact]> latest_annual
        else latest_annual
    end
  else latest_annual.

(** [XBRLProcessor.get_latest_annual_data] *)
Definition get_latest_annual_data (facts : list CompanyFact)
  : gmap string CompanyFact :=
  foldl latest_annual_step ∅ facts.

(** What the dictionary of [get_latest_annual_data] holds for tag [t] once
    the facts [facts] have been seen: the first of the annual entries with the
    greatest period end. *)
Definition latest_annual_entry (facts : list CompanyFact) (t : string)
    (entry : option CompanyFact) : Prop :=
  match entry with
  | Some f =>
      exists before after,
        facts = before ++ f :: after /\
        annual_for t f /\
        (forall g, In g before -> annual_for t g ->
                   String.ltb (end_date g) (end_date f) = true) /\
        (forall g, In g after -> annual_for t g ->
                   String.leb (end_date g) (end_date f) = true)
  | None => forall g, In g facts -> ~ annual_for t g
  end.

(** *** EdgarAPIClient *)

(** What [response.json()] gives: the document, or the exception for a body
    that is no JSON (a [RequestException] in the requests library). *)
Inductive Body :=
| Json (data : CompanyData)
| Malformed (msg : string).

(** What [requests.get] gives: a response with a status code, or one of the
    exceptions the client handles. *)
Inductive Response :=
| Http (status_code : Z) (body : Body)
| Timeout
| RequestException (msg : string).

(** The remote service: the answer to the n-th request of the process. *)
Definition Service := nat -> Response.

Inductive LogRecord :=
| LogInfo (msg : string)
| LogWarning (msg : string)
| LogError (msg : string).

(** The client object and what it acts on.  Times are in milliseconds; the
    clock moves when the client sleeps. *)
Record Client := mkClient {
  last_request_time : Z;
  clock : Z;
  sent : list string;
  slept : list Z;
  log : list LogRecord
}.

Definition min_request_interval : Z := 100.
Definition base_url : string := "https://data.sec.gov/api/xbrl".

Definition new_client (clock : Z) : Client := mkClient 0 clock [] [] [].

Definition sleep (ms : Z) (c : Client) : Client :=
  mkClient (last_request_time c) (clock c + ms) (sent c) (slept c ++ [ms]) (log c).

Definition emit (r : LogRecord) (c : Client) : Client :=
  mkClient (last_request_time c) (clock c) (sent c) (slept c) (log c ++ [r]).

(** [EdgarAPIClient._rate_limit] *)
Definition _rate_limit (c : Client) : Client :=
  let elapsed := clock c - last_request_time c in
  let c1 := if elapsed <? min_request_interval
            then sleep (min_request_interval - elapsed) c else c in
  mkClient (clock c1) (clock c1) (sent c1) (slept c1) (log c1).

(** [requests.get(url, ...)]: the request is recorded and the service answers. *)
Definition requests_get (srv : Service) (url : string) (c : Client)
  : Response * Client :=
  (srv (length (sent c)),
   mkClient (last_request_time c) (clock c) (sent c ++ [url]) (slept c) (log c)).

(** [EdgarAPIClient.get_company_facts].  [frames] is the number of stack
    frames the interpreter still allows: the method calls itself on a 429. *)
Fixpoint get_company_facts (frames : nat) (srv : Service) (cik : string)
    (c : Client) : result (option CompanyData) * Client :=
  match frames with
  | O => (Raise RecursionError, c)
  | S frames' =>
      let c := _rate_limit c in
      let formatted_cik := zfill 10 cik in
      let url := base_url +:+ "/companyfacts/CIK" +:+ formatted_cik +:+ ".json" in
      let c := emit (LogInfo ("Fetching SEC data for CIK " +:+ formatted_cik)) c in
      let '(response, c) := requests_get srv url c in
      match response with
      | Http status_code body =>
          if status_code =? 200 then
            match body with
            | Json data =>
                (Ok (Some data),
                 emit (LogInfo ("Successfully retrieved data for " +:+
                         default "Unknown Company" (cd_entityName data))) c)
            | Malformed msg =>
                (Ok None,
                 emit (LogError ("Request failed for CIK " +:+ formatted_cik
                                   +:+ ": " +:+ msg)) c)
            end
          else if status_code =? 404 then
            (Ok None,
             emit (LogWarning ("No SEC data found for CIK " +:+ formatted_cik)) c)
          else if status_code =? 429 then
            let c := emit (LogWarning "Rate limit exceeded, waiting...") c in
            let c := sleep 1000 c in
            get_company_facts frames' srv cik c
          else
            (Ok None,
             emit (LogError ("SEC API request failed with status " +:+
                     str_of_int status_code)) c)
      | Timeout =>
          (Ok None, emit (LogError ("Request timeout for CIK " +:+ formatted_cik)) c)
      | RequestException msg =>
          (Ok None,
           emit (LogError ("Request failed for CIK " +:+ formatted_cik
                             +:+ ": " +:+ msg)) c)
      end
  end.

(** The outcomes the specification tells apart, read off the answer to a
    request that is not rate limited. *)
Definition is_rate_limited (r : Response) : bool :=
  match r with
  | Http status_code _ => status_code =? 429
  | _ => false
  end.






(** The fact that an entry of a recognized form gives: every field but the
    value is read off the entry and the enclosing tag, the value is the
    [float] of its [val]. *)
Definition came_from (float_of_str : string -> option spec_float)
    (cik company_name tag label description unit_ : string)
    (entry : Entry) (f : CompanyFact) : Prop :=
  f = mkCompanyFact cik company_name tag label description (value f) unit_
        (default "" (entry_end entry)) (default "" (entry_form entry))
        (default "" (entry_filed entry)) (default "" (entry_accn entry))
        (_build_sec_url cik (default "" (entry_accn entry))) /\
  float float_of_str (default (PyInt 0) (entry_val entry)) = Ok (value f).

(** The URL [get_company_facts] asks for. *)
Definition company_facts_url (cik : string) : string :=
  base_url +:+ "/companyfacts/CIK" +:+ zfill 10 cik +:+ ".json".

(** What [requests.get] gives to [get_company_submissions], which handles
    every exception alike: a response with a status code and what
    [response.json()] gives (the text of the exception when it raises), or
    an exception. *)
Inductive Reply (D : Type) :=
| Answered (status_code : Z) (json : D + string)
| Failed (msg : string).
Arguments Answered {D} status_code json.
Arguments Failed {D} msg.

(** [EdgarAPIClient.get_company_submissions], for submissions of type [D]. *)
Definition get_company_submissions {D} (srv : nat -> Reply D) (cik : string)
    (c : Client) : option D * Client :=
  let c := _rate_limit c in
  let formatted_cik := zfill 10 cik in
  let url := "https://data.sec.gov/submissions/CIK" +:+ formatted_cik +:+ ".json" in
  let response := srv (length (sent c)) in
  let c := mkClient (last_request_time c) (clock c) (sent c ++ [url]) (slept c)
             (log c) in
  match response with
  | Answered status_code json =>
      if status_code =? 200 then
        match json with
        | inl data => (Some data, c)
        | inr msg =>
            (None,
             emit (LogError ("Failed to get submissions for CIK " +:+ formatted_cik
                               +:+ ": " +:+ msg)) c)
        end
      else (None, c)
  | Failed msg =>
      (None,
       emit (LogError ("Failed to get submissions for CIK " +:+ formatted_cik
                         +:+ ": " +:+ msg)) c)
  end.

(** [sort(key=lambda x: x.end_date, reverse=True)]: the later period end
    first, equal period ends in the order they had. *)
Definition quarterly_order (a b : CompanyFact) : bool :=
  String.leb (end_date b) (end_date a).

Definition is_quarterly_for (tag_ : string) (f : CompanyFact) : bool :=
  String.eqb (tag f) tag_ && String.eqb (form_type f) "10-Q".

(** [XBRLProcessor.get_quarterly_trends] *)
Definition get_quarterly_trends (facts : list CompanyFact) (tag_ : string)
    (periods : Z) : list CompanyFact :=
  let quarterly_facts := List.filter (is_quarterly_for tag_) facts in
  head periods (stable_sort quarterly_order quarterly_facts).

(** *** CompanyLookup *)

(** [CompanyLookup.MAJOR_COMPANIES]: ticker, then ['cik'] and ['name']. *)
Definition MAJOR_COMPANIES : list (string * (string * string)) :=
  [ ("AAPL", ("0000320193", "Apple Inc."));
    ("MSFT", ("0000789019", "Microsoft Corporation"));
    ("GOOGL", ("0001652044", "Alphabet Inc."));
    ("AMZN", ("0001018724", "Amazon.com Inc."));
    ("TSLA", ("0001318605", "Tesla Inc."));
    ("META", ("0001326801", "Meta Platforms Inc."));
    ("NVDA", ("0001045810", "NVIDIA Corporation"));
    ("NFLX", ("0001065280", "Netflix Inc.")) ].

(** [CompanyLookup.get_company_info] *)
Definition get_company_info (ticker : string) : option (string * string) :=
  dict_get MAJOR_COMPANIES (upper ticker).

(** [CompanyLookup.get_cik_by_ticker] *)
Definition get_cik_by_ticker (ticker : string) : option string :=
  match dict_get MAJOR_COMPANIES (upper ticker) with
  | Some info => Some (fst info)
  | None => None
  end.

(** [CompanyLookup.get_all_major_companies] *)
Definition get_all_major_companies : list (string * (string * string)) :=
  MAJOR_COMPANIES.

End Parser.

(** ** database/db_manager.py *)

Module Db.

(** [CURRENT_TIMESTAMP], in seconds. *)
Definition Timestamp := Z.

(** The columns of [companies] that describe a company. *)
Record CompanyInfo := mkCompanyInfo {
  company_cik : string;
  company_name : string;
  company_ticker : option string;
  company_sic_code : option string;
  company_industry : option string;
  company_market_cap : option Z;
  company_fiscal_year_end : option string;
  company_state_of_incorporation : option string;
  company_data_source : option string
}.

(** A row of [companies]. *)
Record Company := mkCompany {
  info : CompanyInfo;
  last_updated : option Timestamp
}.

(** The columns of [financial_facts] that hold a fact's data.  The text
    columns hold the strings of the [CompanyFact]; dates are text such as
    "2023-09-30", which SQLite stores as it is. *)
Record FactData := mkFactData {
  cik : string;
  tag : string;
  label : string;
  description : string;
  value : option spec_float;
  unit_ : string;
  end_date : string;
  start_date : option string;
  form_type : string;
  filed_date : string;
  fiscal_year : option Z;
  fiscal_period : option string;
  accession_number : string;
  sec_url : string
}.

(** A row of [financial_facts]: the data and the columns the store keeps for
    itself. *)
Record FactRow := mkFactRow {
  id : Z;
  data : FactData;
  created_at : Timestamp;
  updated_at : Timestamp
}.

(** The database: the two tables in rowid order and the AUTOINCREMENT
    counter of [financial_facts]. *)
Record Store := mkStore {
  companies : list Company;
  financial_facts : list FactRow;
  fact_sequence : Z
}.

Definition empty_store : Store := mkStore [] [] 0.

(** [UNIQUE(cik, tag, end_date, form_type, accession_number)] *)
Definition natural_key (d : FactData) : string * string * string * string * string :=
  (cik d, tag d, end_date d, form_type d, accession_number d).

(** The grouping loop of [store_company_facts]: the dictionary [companies],
    with the name of the first fact of every cik and its facts in order. *)
Fixpoint group_add (groups : list (string * (string * list Parser.CompanyFact)))
    (fact : Parser.CompanyFact)
  : list (string * (string * list Parser.CompanyFact)) :=
  match groups with
  | [] => [(Parser.cik fact, (Parser.company_name fact, [fact]))]
  | (c, (name, facts)) :: groups' =>
      if String.eqb c (Parser.cik fact)
      then (c, (name, facts ++ [fact])) :: groups'
      else (c, (name, facts)) :: group_add groups' fact
  end.

Definition group_by_cik (facts : list Parser.CompanyFact)
  : list (string * (string * list Parser.CompanyFact)) :=
  foldl group_add [] facts.

(** [INSERT OR REPLACE] on a table with one uniqueness constraint, [key]:
    the rows in conflict with the new row go, the new row comes last. *)
Definition insert_or_replace {A K} `{EqDecision K} (key : A -> K)
    (table : list A) (row : A) : list A :=
  List.filter (fun r => negb (bool_decide (key r = key row))) table ++ [row].

(** [INSERT OR REPLACE INTO companies (cik, name, last_updated)]: the new row
    takes the defaults of the columns that are not named. *)
Definition replace_company (now : Timestamp) (c name : string) (st : Store) : Store :=
  mkStore
    (insert_or_replace (fun row => company_cik (info row)) (companies st)
       (mkCompany
          (mkCompanyInfo c name None None None None None None (Some "SEC_EDGAR"))
          (Some now)))
    (financial_facts st) (fact_sequence st).

(** [int(fact.end_date[:4])] under [if fact.end_date] and [try]. *)
Definition fiscal_year_of (end_date : string) : option Z :=
  if String.eqb end_date "" then None else int_of_str (str_take 4 end_date).

(** The value SQLite stores for a [float]: NaN is stored as NULL. *)
Definition stored_value (v : spec_float) : option spec_float :=
  match v with
  | S754_nan => None
  | _ => Some v
  end.

Definition fact_data (fact : Parser.CompanyFact) : FactData :=
  mkFactData (Parser.cik fact) (Parser.tag fact) (Parser.label fact)
    (Parser.description fact) (stored_value (Parser.value fact))
    (Parser.unit_ fact) (Parser.end_date fact) None (Parser.form_type fact)
    (Parser.filed_date fact) (fiscal_year_of (Parser.end_date fact)) None
    (Parser.accession_number fact) (Parser.sec_url fact).

(** [INSERT OR REPLACE INTO financial_facts (...)]: the new row gets the
    next id and fresh timestamps. *)
Definition replace_fact (now : Timestamp) (fact : Parser.CompanyFact) (st : Store)
  : Store :=
  let new_id := fact_sequence st + 1 in
  mkStore (companies st)
    (insert_or_replace (fun row => natural_key (data row)) (financial_facts st)
       (mkFactRow new_id (fact_data fact) now now))
    new_id.

(** The body of the loop over [companies.items()]. *)
Definition store_group (now : Timestamp) (update_company_info : bool) (st : Store)
    (group : string * (string * list Parser.CompanyFact)) : Store :=
  let '(c, (name, company_facts)) := group in
  let st := if update_company_info then replace_company now c name st else st in
  foldl (fun st fact => replace_fact now fact st) st company_facts.

(** [ProductionDatabaseManager.store_company_facts].  With the columns
    typed as [CompanyFact] has them no statement fails, so the transaction
    commits. *)
Definition store_company_facts (now : Timestamp) (facts : list Parser.CompanyFact)
    (update_company_info : bool) (st : Store) : Store :=
  match facts with
  | [] => st
  | _ => foldl (store_group now update_company_info) st (group_by_cik facts)
  end.

(** What the specification compares: the data of the rows, without the ids
    and timestamps the store hands out. *)
Definition fact_rows (st : Store) : list FactData := map data (financial_facts st).
Definition company_rows (st : Store) : list CompanyInfo := map info (companies st).

(** The description of a company that [store_company_facts] writes for a
    group of facts. *)
Definition group_info (group : string * (string * list Parser.CompanyFact))
  : CompanyInfo :=
  mkCompanyInfo (fst group) (fst (snd group)) None None None None None None
    (Some "SEC_EDGAR").

(** A row of the result of [get_trend_data]. *)
Record TrendRow := mkTrendRow {
  trend_cik : string;
  trend_company_name : string;
  trend_ticker : option string;
  trend_tag : string;
  trend_label : string;
  trend_value : option spec_float;
  trend_unit : string;
  trend_end_date : string;
  trend_fiscal_year : option Z;
  trend_fiscal_period : option string;
  trend_form_type : string;
  trend_sec_url : string
}.

(** [financial_facts f JOIN companies c ON f.cik = c.cik] *)
Definition join_companies (st : Store) : list (FactData * CompanyInfo) :=
  flat_map
    (fun row =>
       map (fun c => (data row, info c))
         (List.filter
            (fun c => String.eqb (cik (data row)) (company_cik (info c)))
            (companies st)))
    (financial_facts st).

Definition ticker_in (t : option string) (tickers : list string) : bool :=
  match t with
  | Some t => str_in t tickers
  | None => false
  end.

(** The [WHERE] clause of [get_trend_data]: an empty or absent list adds no
    condition. *)
Definition trend_matches (tag_ : string) (companies_ : option (list string))
    (form_types : list string) (fc : FactData * CompanyInfo) : bool :=
  String.eqb (tag (fst fc)) tag_
  && match form_types with
     | [] => true
     | _ => str_in (form_type (fst fc)) form_types
     end
  && match companies_ with
     | None | Some [] => true
     | Some tickers => ticker_in (company_ticker (snd fc)) tickers
     end.

Definition trend_row (fc : FactData * CompanyInfo) : TrendRow :=
  let '(f, c) := fc in
  mkTrendRow (cik f) (company_name c) (company_ticker c) (tag f) (label f)
    (value f) (unit_ f) (end_date f) (fiscal_year f) (fiscal_period f)
    (form_type f) (sec_url f).

(** [ORDER BY f.end_date DESC, c.name] *)
Definition trend_order (a b : TrendRow) : bool :=
  String.ltb (trend_end_date b) (trend_end_date a)
  || String.eqb (trend_end_date a) (trend_end_date b)
     && String.leb (trend_company_name a) (trend_company_name b).

(** The argument of [LIMIT]: [periods * len(companies) if companies else
    periods * 10]. *)
Definition trend_limit (companies_ : option (list string)) (periods : Z) : Z :=
  match companies_ with
  | None | Some [] => periods * 10
  | Some tickers => periods * Z.of_nat (length tickers)
  end.

(** The rows the [WHERE] clause selects, before [ORDER BY] and [LIMIT]. *)
Definition trend_selected (st : Store) (tag_ : string)
    (companies_ : option (list string)) (form_types : list string)
  : list TrendRow :=
  map trend_row
    (List.filter (trend_matches tag_ companies_ form_types) (join_companies st)).

(** [ProductionDatabaseManager.get_trend_data] *)
Definition get_trend_data (st : Store) (tag_ : string)
    (companies_ : option (list string)) (form_types : list string) (periods : Z)
  : list TrendRow :=
  let ordered :=
    stable_sort trend_order (trend_selected st tag_ companies_ form_types) in
  if periods =? 0 then ordered
  else sql_limit (trend_limit companies_ periods) ordered.

(** A row of the result of [smart_search]. *)
Record SearchResult := mkSearchResult {
  result_cik : string;
  result_tag : string;
  result_company_name : string;
  result_ticker : option string;
  result_label : string;
  result_value : option spec_float;
  result_unit : string;
  result_end_date : string;
  result_form_type : string;
  result_fiscal_year : option Z;
  result_sec_url : string;
  result_description : string;
  relevance_score : Z
}.

Global Instance SearchResult_eq_dec : EqDecision SearchResult.
Proof. solve_decision. Defined.

(** [LOWER(column) LIKE LOWER(?)] *)
Definition lower_like (column pattern : string) : bool :=
  sql_like (Some (lower column)) (lower pattern).

(** The [CASE] of [smart_search]. *)
Definition score (query : string) (f : FactData) : Z :=
  let search_pattern := "%" +:+ query +:+ "%" in
  if String.eqb (lower (label f)) (lower query) then 100
  else if lower_like (label f) search_pattern then 80
  else if lower_like (tag f) search_pattern then 60
  else if lower_like (description f) search_pattern then 40
  else 20.

(** The [WHERE] clause of [smart_search]. *)
Definition search_matches (query : string) (fc : FactData * CompanyInfo) : bool :=
  let search_pattern := "%" +:+ query +:+ "%" in
  lower_like (label (fst fc)) search_pattern
  || lower_like (tag (fst fc)) search_pattern
  || lower_like (description (fst fc)) search_pattern
  || lower_like (company_name (snd fc)) search_pattern.

Definition search_result (query : string) (fc : FactData * CompanyInfo)
  : SearchResult :=
  let '(f, c) := fc in
  mkSearchResult (cik f) (tag f) (company_name c) (company_ticker c) (label f)
    (value f) (unit_ f) (end_date f) (form_type f) (fiscal_year f) (sec_url f)
    (description f) (score query f).

(** [ORDER BY relevance_score DESC, f.fiscal_year DESC, c.name] *)
Definition search_order (a b : SearchResult) : bool :=
  (relevance_score b <? relevance_score a)
  || (relevance_score a =? relevance_score b)
     && (negb (null_leb (result_fiscal_year a) (result_fiscal_year b))
         || bool_decide (result_fiscal_year a = result_fiscal_year b)
            && String.leb (result_company_name a) (result_company_name b)).

(** [ProductionDatabaseManager.smart_search] *)
Definition smart_search (st : Store) (query : string) (limit : Z)
  : list SearchResult :=
  let selected :=
    map (search_result query)
      (List.filter (search_matches query) (join_companies st)) in
  sql_limit limit
    (stable_sort search_order (drop_duplicates (fun r => r) selected)).

(** [DatabaseManager._ensure_demo_data] of the legacy wrapper: the three
    rows of [INSERT OR REPLACE INTO companies (cik, name, ticker)]. *)
Definition demo_company (now : Timestamp) (row : string * string * string)
  : Company :=
  let '(c, name, ticker) := row in
  mkCompany
    (mkCompanyInfo c name (Some ticker) None None None None None (Some "SEC_EDGAR"))
    (Some now).

Definition demo_companies : list (string * string * string) :=
  [ ("0000320193", "Apple Inc.", "AAPL");
    ("0000789019", "Microsoft Corporation", "MSFT");
    ("0001318605", "Tesla Inc.", "TSLA") ].

Definition _ensure_demo_data (now : Timestamp) (st : Store) : Store :=
  match companies st with
  | [] =>
      mkStore
        (foldl (fun table row =>
                  insert_or_replace (fun r => company_cik (info r)) table
                    (demo_company now row))
           (companies st) demo_companies)
        (financial_facts st) (fact_sequence st)
  | _ => st
  end.

(** What the dictionary [companies] of [store_company_facts] is like: the
    groups have distinct ciks and hold facts of their cik. *)
Definition well_grouped (groups : list (string * (string * list Parser.CompanyFact)))
  : Prop :=
  NoDup (map fst groups) /\
  Forall (fun g => Forall (fun f => Parser.cik f = fst g) (snd (snd g))) groups.

(** The ids of [financial_facts] as AUTOINCREMENT hands them out: rising
    with the rowid and never above the counter. *)
Definition ids_in_order (st : Store) : Prop :=
  StronglySorted Z.lt (map id (financial_facts st)) /\
  Forall (fun row => id row <= fact_sequence st) (financial_facts st).

(** The ciks of a batch of facts. *)
Definition batch_ciks (facts : list Parser.CompanyFact) : list string :=
  map Parser.cik facts.

End Db.

(** ** main_app.py *)

Module App.

(** A row of [financial_line_items], with the columns the application
    writes.  Every row the repository inserts carries its [filing_year]. *)
Record LineItem := mkLineItem {
  item_company_name : string;
  item_ticker_symbol : option string;
  item_cik : option string;
  item_line_item_label : string;
  item_xbrl_tag : string;
  item_value : option spec_float;
  item_filing_date : option string;
  item_period_end_date : option string;
  item_form_type : option string;
  item_accession_number : option string;
  item_sec_url : option string;
  item_filing_year : Z
}.

(** A row of [xbrl_taxonomy]. *)
Record Taxonomy := mkTaxonomy {
  taxonomy_xbrl_tag : string;
  taxonomy_standard_label : option string;
  taxonomy_documentation : option string;
  taxonomy_data_type : option string;
  taxonomy_period_type : option string;
  taxonomy_balance_type : option string;
  taxonomy_common_aliases : option string
}.

Record Database := mkDatabase {
  financial_line_items : list LineItem;
  xbrl_taxonomy : list Taxonomy
}.

(** A row of the result of [search_line_items]. *)
Record SearchRow := mkSearchRow {
  company_name : string;
  ticker_symbol : option string;
  line_item_label : string;
  xbrl_tag : string;
  value : option spec_float;
  filing_date : option string;
  period_end_date : option string;
  form_type : option string;
  sec_url : option string;
  filing_year : Z;
  standard_label : option string;
  documentation : option string
}.

Global Instance SearchRow_eq_dec : EqDecision SearchRow.
Proof. solve_decision. Defined.

(** [financial_line_items f LEFT JOIN xbrl_taxonomy t ON f.xbrl_tag = t.xbrl_tag] *)
Definition left_join_taxonomy (db : Database) : list (LineItem * option Taxonomy) :=
  flat_map
    (fun f =>
       match List.filter (fun t => String.eqb (item_xbrl_tag f) (taxonomy_xbrl_tag t))
               (xbrl_taxonomy db) with
       | [] => [(f, None)]
       | ts => map (fun t => (f, Some t)) ts
       end)
    (financial_line_items db).

(** The [WHERE] clause of [search_line_items]. *)
Definition search_matches (pattern : string) (ft : LineItem * option Taxonomy) : bool :=
  let '(f, t) := ft in
  sql_like (Some (item_line_item_label f)) pattern
  || sql_like (Some (item_xbrl_tag f)) pattern
  || sql_like (t ≫= taxonomy_standard_label) pattern
  || sql_like (t ≫= taxonomy_common_aliases) pattern.

Definition search_row (ft : LineItem * option Taxonomy) : SearchRow :=
  let '(f, t) := ft in
  mkSearchRow (item_company_name f) (item_ticker_symbol f) (item_line_item_label f)
    (item_xbrl_tag f) (item_value f) (item_filing_date f) (item_period_end_date f)
    (item_form_type f) (item_sec_url f) (item_filing_year f)
    (t ≫= taxonomy_standard_label) (t ≫= taxonomy_documentation).

(** [ORDER BY f.filing_year DESC, f.company_name] *)
Definition search_order (a b : SearchRow) : bool :=
  (filing_year b <? filing_year a)
  || (filing_year a =? filing_year b)
     && String.leb (company_name a) (company_name b).

(** [DatabaseManager.search_line_items] *)
Definition search_line_items (db : Database) (search_term : string) (limit : Z)
  : list SearchRow :=
  let search_pattern := "%" +:+ search_term +:+ "%" in
  let selected :=
    map search_row (List.filter (search_matches search_pattern) (left_join_taxonomy db)) in
  sql_limit limit (stable_sort search_order (drop_duplicates id selected)).

(** [calculate_score] inside [SearchEngine._rank_results] *)
Definition calculate_score (query_lower : string) (row : SearchRow) : Z :=
  let label_lower := lower (line_item_label row) in
  let tag_lower := lower (xbrl_tag row) in
  let score := 0 in
  let score :=
    if String.eqb query_lower label_lower then score + 100
    else if str_contains query_lower label_lower then score + 50
    else score in
  let score := if str_contains query_lower tag_lower then score + 30 else score in
  let score :=
    if 2023 <=? filing_year row then score + 10
    else if 2022 <=? filing_year row then score + 5
    else score in
  score.

(** [sort_values('relevance_score', ascending=False)] *)
Definition score_order (query_lower : string) (a b : SearchRow) : bool :=
  calculate_score query_lower b <=? calculate_score query_lower a.

(** [SearchEngine._rank_results] *)
Definition _rank_results (df : list SearchRow) (query : string) : list SearchRow :=
  match df with
  | [] => df
  | _ => stable_sort (score_order (lower query)) df
  end.

(** [subset=['company_name', 'xbrl_tag', 'filing_year']] *)
Definition duplicate_key (row : SearchRow) : string * string * Z :=
  (company_name row, xbrl_tag row, filing_year row).

(** The word loop of [smart_search]: what a word adds to [results]. *)
Definition search_word (db : Database) (max_results : Z) (words : list string)
    (word : string) : list SearchRow :=
  if (2 <? String.length word)%nat
  then search_line_items db word (max_results / Z.of_nat (length words))
  else [].

(** [SearchEngine.smart_search] *)
Definition smart_search (db : Database) (query : string) (max_results : Z)
  : list SearchRow :=
  let results := search_line_items db query max_results in
  let results :=
    match results with
    | [] =>
        let words := split query in
        foldl (fun results word => results ++ search_word db max_results words word)
          results words
    | _ => results
    end in
  let results :=
    match results with
    | [] => results
    | _ => _rank_results (drop_duplicates duplicate_key results) query
    end in
  head max_results results.

(** A row of the result of the legacy [get_trend_data]. *)
Record TrendRow := mkTrendRow {
  trend_company_name : string;
  trend_ticker_symbol : option string;
  trend_filing_year : Z;
  trend_avg_value : option spec_float;
  trend_line_item_label : string;
  trend_xbrl_tag : string
}.

(** [GROUP BY company_name, ticker_symbol, filing_year] *)
Definition group_key (f : LineItem) : string * option string * Z :=
  (item_company_name f, item_ticker_symbol f, item_filing_year f).

Definition trend_key (r : TrendRow) : string * option string * Z :=
  (trend_company_name r, trend_ticker_symbol r, trend_filing_year r).

(** The [WHERE] clause of the legacy [get_trend_data]. *)
Definition trend_matches (xbrl_tag_ : string) (companies : option (list string))
    (f : LineItem) : bool :=
  String.eqb (item_xbrl_tag f) xbrl_tag_
  && match companies with
     | None | Some [] => true
     | Some tickers => Db.ticker_in (item_ticker_symbol f) tickers
     end.

(** [ORDER BY filing_year, company_name] *)
Definition trend_order (a b : TrendRow) : bool :=
  (trend_filing_year a <? trend_filing_year b)
  || (trend_filing_year a =? trend_filing_year b)
     && String.leb (trend_company_name a) (trend_company_name b).

Section Trend.
(** SQLite's mean of a non-empty list of REAL values; how it sums is not
    the application's. *)
Variable mean : list spec_float -> spec_float.

(** [AVG(value)]: the mean of the values that are not NULL, NULL when
    there is none. *)
Definition sql_avg (values : list (option spec_float)) : option spec_float :=
  match omap (fun v => v) values with
  | [] => None
  | vs => Some (mean vs)
  end.

Definition members (matching : list LineItem) (k : string * option string * Z)
  : list LineItem :=
  List.filter (fun f => bool_decide (group_key f = k)) matching.

(** The row of one group; the label is that of a row of the group, here
    the first. *)
Definition group_row (matching : list LineItem) (first : LineItem) : TrendRow :=
  mkTrendRow (item_company_name first) (item_ticker_symbol first)
    (item_filing_year first)
    (sql_avg (map item_value (members matching (group_key first))))
    (item_line_item_label first) (item_xbrl_tag first).

(** [DatabaseManager.get_trend_data] of main_app.py *)
Definition get_trend_data (db : Database) (xbrl_tag_ : string)
    (companies : option (list string)) : list TrendRow :=
  let matching :=
    List.filter (trend_matches xbrl_tag_ companies) (financial_line_items db) in
  let groups := drop_duplicates group_key matching in
  stable_sort trend_order (map (group_row matching) groups).
End Trend.

(** *** The search of the specification, for comparison

    Section 4.4: the words longer than two characters are searched
    independently, the results are united, made unique on (company, concept
    tag, fiscal year), ranked by the table 100 / 80 / 60 / 40 / 20 against the
    original query with ties broken by the most recent fiscal year and then
    the company name, and cut to the limit last. *)

Definition spec_score (query : string) (row : SearchRow) : Z :=
  let q := lower query in
  if String.eqb (lower (line_item_label row)) q then 100
  else if str_contains q (lower (line_item_label row)) then 80
  else if str_contains q (lower (xbrl_tag row)) then 60
  else if match documentation row with
          | Some d => str_contains q (lower d)
          | None => false
          end then 40
  else 20.

Definition spec_order (query : string) (a b : SearchRow) : bool :=
  (spec_score query b <? spec_score query a)
  || (spec_score query a =? spec_score query b) && search_order a b.

Definition spec_fallback_search (db : Database) (query : string) (limit : Z)
  : list SearchRow :=
  let words := List.filter (fun w => (2 <? String.length w)%nat) (split query) in
  let union := flat_map (fun w => search_line_items db w (-1)) words in
  head limit (stable_sort (spec_order query) (drop_duplicates duplicate_key union)).

End App.

(** ** real_data_integration.py *)

Module Integration.

(** What a [RealDataIntegration] acts on: its client and its database.  The
    records of its own logger are not part of the model. *)
Record State := mkState {
  edgar_client : Parser.Client;
  db : Db.Store
}.

(** [CURRENT_TIMESTAMP] read off the clock of the client, in seconds. *)
Definition timestamp (c : Parser.Client) : Db.Timestamp := Parser.clock c / 1000.

Section Integration.
Variable float_of_str : string -> option spec_float.
(** The stack frames the interpreter allows to [get_company_facts]. *)
Variable frames : nat.
Variable srv : Parser.Service.

(** [RealDataIntegration.fetch_and_store_company] *)
Definition fetch_and_store_company (ticker : string) (s : State)
  : result bool * State :=
  match Parser.get_company_info ticker with
  | None => (Ok false, s)
  | Some company_info =>
      let cik := fst company_info in
      let '(fetched, client) :=
        Parser.get_company_facts frames srv cik (edgar_client s) in
      let s := mkState client (db s) in
      match fetched with
      | Raise e => (Raise e, s)
      | Ok None => (Ok false, s)
      | Ok (Some company_data) =>
          match Parser.extract_financial_facts float_of_str (Some company_data) with
          | Raise e => (Raise e, s)
          | Ok [] => (Ok false, s)
          | Ok facts =>
              (Ok true,
               mkState client
                 (Db.store_company_facts (timestamp client) facts true (db s)))
          end
      end
  end.

(** The body of the loop of [integrate_major_companies], with its
    [except Exception]. *)
Definition integrate_company (acc : list (string * bool) * State)
    (company : string * (string * string)) : list (string * bool) * State :=
  let '(results, s) := acc in
  let ticker := fst company in
  let '(outcome, s) := fetch_and_store_company ticker s in
  let success := match outcome with Ok success => success | Raise _ => false end in
  (results ++ [(ticker, success)], s).

(** [RealDataIntegration.integrate_major_companies]; a [limit] of 0 stands
    for [None] as well. *)
Definition integrate_major_companies (limit : Z) (s : State)
  : list (string * bool) * State :=
  let companies := Parser.get_all_major_companies in
  let companies := if limit =? 0 then companies else head limit companies in
  foldl integrate_company ([], s) companies.
End Integration.

End Integration.

(** ** Sample data *)

Module Samples.
Import Parser.

(** A stand-in for the interpreter's [float(str)]: integers in decimal. *)
Definition decimal_float (s : string) : option spec_float :=
  match int_of_str s with
  | Some z => match float_of_int z with Ok f => Some f | Raise _ => None end
  | None => None
  end.

Definition entry_2023 : Entry :=
  mkEntry (Some "10-K") (Some "0000320193-23-000106") (Some (PyInt 394328000000))
    (Some "2023-09-30") (Some "2023-11-02").
Definition entry_2022 : Entry :=
  mkEntry (Some "10-K") (Some "0000320193-22-000108") (Some (PyInt 365817000000))
    (Some "2022-09-24") (Some "2022-10-28").
Definition entry_bad_val : Entry :=
  mkEntry (Some "10-Q") (Some "0000320193-23-000064") (Some (PyStr "n/a"))
    (Some "2023-04-01") (Some "2023-05-05").
Definition entry_no_val : Entry :=
  mkEntry (Some "10-Q") (Some "0000320193-23-000077") None
    (Some "2023-07-01") (Some "2023-08-04").
Definition entry_amended : Entry :=
  mkEntry (Some "10-K/A") (Some "0000320193-21-000010") (Some (PyInt 1))
    (Some "2020-09-26") (Some "2021-01-05").

Definition revenue_entries : list Entry :=
  [entry_2022; entry_bad_val; entry_2023; entry_no_val; entry_amended].

Definition revenues_data : TagData :=
  mkTagData (Some "Revenues") (Some "Amount of revenue recognized.")
    (Some [("USD", revenue_entries)]).

Definition apple_document : CompanyData :=
  mkCompanyData (Some "Apple Inc.") (Some (CikInt 320193))
    (Some [("us-gaap", [("Revenues", revenues_data); ("Goodwill", revenues_data)]);
           ("dei", [("EntityPublicFloat", revenues_data)])]).

(** Two annual facts for one tag that end on the same day. *)
Definition tie_first : CompanyFact :=
  mkCompanyFact "320193" "Apple Inc." "Revenues" "Revenues" ""
    (S754_finite false 5993545728000000 (-14)) "USD" "2023-09-30" "10-K"
    "2023-11-02" "0000320193-23-000106" "".
Definition tie_second : CompanyFact :=
  mkCompanyFact "320193" "Apple Inc." "Revenues" "Revenues" ""
    (S754_finite false 6460669952000000 (-14)) "USD" "2023-09-30" "10-K"
    "2024-01-15" "0000320193-24-000002" "".
Definition older_fact : CompanyFact :=
  mkCompanyFact "320193" "Apple Inc." "Revenues" "Revenues" ""
    (S754_finite false 5993545728000000 (-14)) "USD" "2022-09-24" "10-K"
    "2022-10-28" "0000320193-22-000108" "".

(** A service that answers the first two requests with 429 and then serves
    the document. *)
Definition throttled_twice : Service :=
  fun n =>
    match n with
    | O | S O => Http 429 (Malformed "")
    | _ => Http 200 (Json apple_document)
    end.

Definition apple_service : Service := fun _ => Http 200 (Json apple_document).

(** The REAL that SQLite stores for an integer literal. *)
Definition real (z : Z) : option spec_float :=
  Some (binary_normalize prec emax z 0 false).

(** A mean for the examples: the sum from left to right, divided by the
    count. *)
Definition naive_mean (vs : list spec_float) : spec_float :=
  SFdiv prec emax (fold_left (SFadd prec emax) vs (S754_zero false))
    (binary_normalize prec emax (Z.of_nat (length vs)) 0 false).

Import App.

(** The rows of [populate_sample_data]. *)
Definition sample_line_items : list LineItem :=
  [
    mkLineItem "Apple Inc." (Some "AAPL") (Some "0000320193")
      "Net Sales" "Revenues"
      (real 394328000000) (Some "2023-11-02") (Some "2023-09-30") (Some "10-K")
      (Some "0000320193-23-000106")
      (Some "https://www.sec.gov/ix?doc=/Archives/edgar/data/320193/000032019323000106/aapl-20230930.htm")
      2023;
    mkLineItem "Apple Inc." (Some "AAPL") (Some "0000320193")
      "Cost of Sales" "CostOfGoodsAndServicesSold"
      (real 223520000000) (Some "2023-11-02") (Some "2023-09-30") (Some "10-K")
      (Some "0000320193-23-000106")
      (Some "https://www.sec.gov/ix?doc=/Archives/edgar/data/320193/000032019323000106/aapl-20230930.htm")
      2023;
    mkLineItem "Apple Inc." (Some "AAPL") (Some "0000320193")
      "Total Assets" "Assets"
      (real 352755000000) (Some "2023-11-02") (Some "2023-09-30") (Some "10-K")
      (Some "0000320193-23-000106")
      (Some "https://www.sec.gov/ix?doc=/Archives/edgar/data/320193/000032019323000106/aapl-20230930.htm")
      2023;
    mkLineItem "Microsoft Corporation" (Some "MSFT") (Some "0000789019")
      "Revenue" "Revenues"
      (real 211915000000) (Some "2023-07-27") (Some "2023-06-30") (Some "10-K")
      (Some "0000789019-23-000076")
      (Some "https://www.sec.gov/ix?doc=/Archives/edgar/data/789019/000078901923000076/msft-20230630.htm")
      2023;
    mkLineItem "Microsoft Corporation" (Some "MSFT") (Some "0000789019")
      "Cost of Revenue" "CostOfRevenue"
      (real 65525000000) (Some "2023-07-27") (Some "2023-06-30") (Some "10-K")
      (Some "0000789019-23-000076")
      (Some "https://www.sec.gov/ix?doc=/Archives/edgar/data/789019/000078901923000076/msft-20230630.htm")
      2023;
    mkLineItem "Microsoft Corporation" (Some "MSFT") (Some "0000789019")
      "Total Assets" "Assets"
      (real 411976000000) (Some "2023-07-27") (Some "2023-06-30") (Some "10-K")
      (Some "0000789019-23-000076")
      (Some "https://www.sec.gov/ix?doc=/Archives/edgar/data/789019/000078901923000076/msft-20230630.htm")
      2023;
    mkLineItem "Tesla Inc." (Some "TSLA") (Some "0001318605")
      "Total Revenues" "RevenueFromContractWithCustomerExcludingAssessedTax"
      (real 96773000000) (Some "2024-01-29") (Some "2023-12-31") (Some "10-K")
      (Some "0001318605-24-000006")
      (Some "https://www.sec.gov/ix?doc=/Archives/edgar/data/1318605/000131860524000006/tsla-20231231.htm")
      2023;
    mkLineItem "Tesla Inc." (Some "TSLA") (Some "0001318605")
      "Cost of Revenues" "CostOfGoodsAndServicesSold"
      (real 79113000000) (Some "2024-01-29") (Some "2023-12-31") (Some "10-K")
      (Some "0001318605-24-000006")
      (Some "https://www.sec.gov/ix?doc=/Archives/edgar/data/1318605/000131860524000006/tsla-20231231.htm")
      2023;
    mkLineItem "Tesla Inc." (Some "TSLA") (Some "0001318605")
      "Total Assets" "Assets"
      (real 106618000000) (Some "2024-01-29") (Some "2023-12-31") (Some "10-K")
      (Some "0001318605-24-000006")
      (Some "https://www.sec.gov/ix?doc=/Archives/edgar/data/1318605/000131860524000006/tsla-20231231.htm")
      2023;
    mkLineItem "Apple Inc." (Some "AAPL") (Some "0000320193")
      "Net Sales" "Revenues"
      (real 365817000000) (Some "2022-10-28") (Some "2022-09-30") (Some "10-K")
      (Some "0000320193-22-000108")
      (Some "https://www.sec.gov/ix?doc=/Archives/edgar/data/320193/000032019322000108/aapl-20220930.htm")
      2022;
    mkLineItem "Apple Inc." (Some "AAPL") (Some "0000320193")
      "Total Assets" "Assets"
      (real 352583000000) (Some "2022-10-28") (Some "2022-09-30") (Some "10-K")
      (Some "0000320193-22-000108")
      (Some "https://www.sec.gov/ix?doc=/Archives/edgar/data/320193/000032019322000108/aapl-20220930.htm")
      2022;
    mkLineItem "Microsoft Corporation" (Some "MSFT") (Some "0000789019")
      "Revenue" "Revenues"
      (real 198270000000) (Some "2022-07-28") (Some "2022-06-30") (Some "10-K")
      (Some "0000789019-22-000070")
      (Some "https://www.sec.gov/ix?doc=/Archives/edgar/data/789019/000078901922000070/msft-20220630.htm")
      2022;
    mkLineItem "Microsoft Corporation" (Some "MSFT") (Some "0000789019")
      "Total Assets" "Assets"
      (real 364840000000) (Some "2022-07-28") (Some "2022-06-30") (Some "10-K")
      (Some "0000789019-22-000070")
      (Some "https://www.sec.gov/ix?doc=/Archives/edgar/data/789019/000078901922000070/msft-20220630.htm")
      2022
  ].

Definition sample_taxonomy : list Taxonomy :=
  [
    mkTaxonomy "Revenues" (Some "Revenue") (Some "Total revenue from all sources")
      (Some "monetary") (Some "duration") (Some "credit") (Some "Net Sales,Total Revenue,Sales");
    mkTaxonomy "Assets" (Some "Assets") (Some "Total assets of the entity")
      (Some "monetary") (Some "instant") (Some "debit") (Some "Total Assets");
    mkTaxonomy "CostOfGoodsAndServicesSold" (Some "Cost of Goods and Services Sold") (Some "Direct costs attributable to production")
      (Some "monetary") (Some "duration") (Some "debit") (Some "Cost of Sales,COGS,Cost of Revenue");
    mkTaxonomy "NetIncomeLoss" (Some "Net Income (Loss)") (Some "Net income or loss for the period")
      (Some "monetary") (Some "duration") (Some "credit") (Some "Net Income,Net Earnings,Profit");
    mkTaxonomy "CashAndCashEquivalentsAtCarryingValue" (Some "Cash and Cash Equivalents") (Some "Cash and short-term investments")
      (Some "monetary") (Some "instant") (Some "debit") (Some "Cash,Cash Equivalents")
  ].

Definition sample_database : Database :=
  mkDatabase sample_line_items sample_taxonomy.

(** Two companies that report the same concept, and nothing else. *)
Definition two_line_items : list LineItem :=
  [ mkLineItem "Alpha Corp" (Some "ALP") None "Alpha Operating Margin" "OperatingMargin"
      (real 10) None None (Some "10-K") None None 2021;
    mkLineItem "Beta Corp" (Some "BET") None "Alpha Adjusted Margin" "AdjustedMargin"
      (real 20) None None (Some "10-K") None None 2020 ].

Definition two_item_database : Database := mkDatabase two_line_items [].

(** Two companies, each matched by one word of the query "alpha margin". *)
Definition ranking_line_items : list LineItem :=
  [ mkLineItem "Alpha Corp" (Some "ALP") None "Alpha Widgets Sold" "WidgetsSold"
      (real 10) None None (Some "10-K") None None 2020;
    mkLineItem "Beta Corp" (Some "BET") None "Gross Margin" "GrossProfit"
      (real 20) None None (Some "10-K") None None 2021 ].

Definition ranking_database : Database := mkDatabase ranking_line_items [].

(** The production store after the demonstration companies were added and
    two annual revenue facts of Apple were stored. *)
Definition revenue_2022 : Parser.CompanyFact :=
  Parser.mkCompanyFact "0000320193" "Apple Inc." "Revenues" "Net Sales" ""
    (binary_normalize prec emax 365817000000 0 false) "USD" "2022-09-30" "10-K"
    "2022-10-28" "0000320193-22-000108" "".
Definition revenue_2023 : Parser.CompanyFact :=
  Parser.mkCompanyFact "0000320193" "Apple Inc." "Revenues" "Net Sales" ""
    (binary_normalize prec emax 394328000000 0 false) "USD" "2023-09-30" "10-K"
    "2023-11-02" "0000320193-23-000106" "".
(** The same period as [revenue_2023], reported again by a later filing. *)
Definition revenue_2023_again : Parser.CompanyFact :=
  Parser.mkCompanyFact "0000320193" "Apple Inc." "Revenues" "Net Sales" ""
    (binary_normalize prec emax 394328000000 0 false) "USD" "2023-09-30" "10-K"
    "2024-11-01" "0000320193-24-000123" "".

Definition demo_companies : list Db.Company :=
  [ Db.mkCompany
      (Db.mkCompanyInfo "0000320193" "Apple Inc." (Some "AAPL") None None None None
         None (Some "SEC_EDGAR")) (Some 0);
    Db.mkCompany
      (Db.mkCompanyInfo "0000789019" "Microsoft Corporation" (Some "MSFT") None None
         None None None (Some "SEC_EDGAR")) (Some 0) ].

Definition demo_store : Db.Store :=
  Db.store_company_facts 100 [revenue_2022; revenue_2023] false
    (Db.mkStore demo_companies [] 0).

Definition demo_store_duplicates : Db.Store :=
  Db.store_company_facts 100 [revenue_2022; revenue_2023; revenue_2023_again] false
    (Db.mkStore demo_companies [] 0).

End Samples.

(** * Properties *)

(** ** The error monad and its loops *)

Section ForExtend.
Context {A B : Type}.
Implicit Types (body : A -> result (list B)) (xs : list A).




Lemma for_extend_Forall (P : B -> Prop) body xs r :
  for_extend body xs = Ok r ->
  (forall x ys, In x xs -> body x = Ok ys -> Forall P ys) ->
  Forall P r.
Proof.
  revert r. induction xs as [|x xs IH]; simpl; intros r Hr Hbody.
  - injection Hr as <-. constructor.
  - destruct (body x) as [ys|e] eqn:Hx; simpl in Hr; [|discriminate].
    destruct (for_extend body xs) as [zs|e] eqn:Hxs; simpl in Hr; [|discriminate].
    injection Hr as <-. apply Forall_app. split.
    + apply (Hbody x); [left; reflexivity | exact Hx].
    + apply IH; [reflexivity|]. intros y ys' Hy. apply Hbody. right. exact Hy.
Qed.

Lemma for_extend_In body xs r x :
  for_extend body xs = Ok r -> In x xs ->
  exists ys, body x = Ok ys /\ incl ys r.
Proof.
  revert r. induction xs as [|x' xs IH]; simpl; intros r Hr Hin; [contradiction|].
  destruct (body x') as [ys|e] eqn:Hx; simpl in Hr; [|discriminate].
  destruct (for_extend body xs) as [zs|e] eqn:Hxs; simpl in Hr; [|discriminate].
  injection Hr as <-. destruct Hin as [->|Hin].
  - exists ys. split; [exact Hx|]. apply incl_appl, incl_refl.
  - destruct (IH zs eq_refl Hin) as (ys' & Hys' & Hincl).
    exists ys'. split; [exact Hys'|]. apply incl_appr, Hincl.
Qed.
End ForExtend.


Lemma str_in_In x xs : str_in x xs = true <-> In x xs.
Proof.
  unfold str_in. rewrite existsb_exists. split.
  - intros (y & Hy & Heq). apply String.eqb_eq in Heq. subst. exact Hy.
  - intros Hin. exists x. split; [exact Hin | apply String.eqb_refl].
Qed.

Lemma dict_mem_In {V} (d : list (string * V)) k :
  dict_mem d k = true -> In k (map fst d).
Proof.
  unfold dict_mem. induction d as [|[k' v] d IH]; simpl; [discriminate|].
  destruct (String.eqb k' k) eqn:Heq.
  - apply String.eqb_eq in Heq. intros _. left. exact Heq.
  - intros H. right. apply IH. exact H.
Qed.

(** ** The extractor *)

Section ExtractorFacts.
Import Parser.
Variable float_of_str : string -> option spec_float.



Lemma process_entry_emits cik company_name tag label description unit_ entry fs :
  process_entry float_of_str cik company_name tag label description unit_ entry
  = Ok fs ->
  Forall (fun f => Parser.tag f = tag /\ In (form_type f) recognized_forms) fs.
Proof.
  unfold process_entry.
  destruct (str_in _ recognized_forms) eqn:Hform; simpl.
  - apply str_in_In in Hform.
    destruct (float float_of_str _) as [v|e]; simpl.
    + intros H. injection H as <-.
      constructor; [split; [reflexivity | exact Hform] | constructor].
    + destruct e; simpl; intros H; try discriminate; injection H as <-;
        constructor.
  - intros H. injection H as <-. constructor.
Qed.

Lemma process_tag_emits cik company_name tag tag_data fs :
  _process_financial_tag float_of_str cik company_name tag tag_data = Ok fs ->
  Forall (fun f => Parser.tag f = tag /\ In (form_type f) recognized_forms) fs.
Proof.
  unfold _process_financial_tag. intros H.
  eapply for_extend_Forall; [exact H|].
  intros [u entries] ys _ Hys.
  eapply for_extend_Forall; [exact Hys|].
  intros e fs' _ He. eapply process_entry_emits, He.
Qed.

Lemma process_namespace_emits keep cik company_name ns fs :
  process_namespace float_of_str keep cik company_name ns = Ok fs ->
  Forall (fun f => keep (Parser.tag f) = true /\ In (form_type f) recognized_forms) fs.
Proof.
  unfold process_namespace. intros H.
  eapply for_extend_Forall; [exact H|].
  intros [t td] ys _. destruct (keep t) eqn:Hk.
  - intros Hys. apply process_tag_emits in Hys.
    eapply Forall_impl; [exact Hys|]. simpl. intros f [Ht Hf].
    subst t. auto.
  - intros Hys. injection Hys as <-. constructor.
Qed.




Lemma dict_get_default_In {V} (d : list (string * list V)) k x :
  In x (dict_get_default d k []) -> exists v, In (k, v) d /\ In x v.
Proof.
  unfold dict_get_default.
  induction d as [|[k' v] d IH]; simpl; [tauto|].
  destruct (String.eqb k' k) eqn:Heq.
  - apply String.eqb_eq in Heq. subst k'. intros Hx. exists v. auto.
  - intros Hx. destruct (IH Hx) as (v' & Hv' & Hx'). exists v'. auto.
Qed.



End ExtractorFacts.

(** C6: every fact the extractor emits carries a tag of the allow-list (the
    curated financial tags and the two entity-metadata tags) and one of the
    two recognized form types, 10-K or 10-Q. *)
Theorem extract_emits_only_allowed (float_of_str : string -> option spec_float)
    (company_data : option Parser.CompanyData) (facts : list Parser.CompanyFact) :
  Parser.extract_financial_facts float_of_str company_data = Ok facts ->
  Forall (fun f => In (Parser.tag f) Parser.allow_list /\
                   (Parser.form_type f = "10-K" \/ Parser.form_type f = "10-Q"))
    facts.
Proof.
  unfold Parser.extract_financial_facts.
  destruct company_data as [d|]; [|intros H; injection H as <-; constructor].
  destruct (Parser.cd_facts d) as [all_facts|];
    [|intros H; injection H as <-; constructor].
  destruct (Parser.process_namespace _ _ _ _ (dict_get_default all_facts "us-gaap" []))
    as [facts1|e] eqn:H1; cbn [bind]; [|discriminate].
  destruct (Parser.process_namespace _ _ _ _ (dict_get_default all_facts "dei" []))
    as [facts2|e] eqn:H2; cbn [bind]; [|discriminate].
  intros H. injection H as <-.
  apply process_namespace_emits in H1, H2.
  assert (Hforms : forall s, In s Parser.recognized_forms -> s = "10-K" \/ s = "10-Q").
  { intros s [<-|[<-|[]]]; auto. }
  apply Forall_app. split.
  - eapply Forall_impl; [exact H1|]. intros f [Hk Hf].
    split; [|apply Hforms, Hf].
    unfold Parser.allow_list. apply in_or_app. left. apply dict_mem_In, Hk.
  - eapply Forall_impl; [exact H2|]. intros f [Hk Hf].
    split; [|apply Hforms, Hf].
    unfold Parser.allow_list. apply in_or_app. right. apply str_in_In, Hk.
Qed.

Lemma extract_emits_only_allowed_witness :
  exists facts,
    Parser.extract_financial_facts Samples.decimal_float
      (Some Samples.apple_document) = Ok facts /\
    length facts = 6%nat /\
    Forall (fun f => In (Parser.tag f) Parser.allow_list /\
                     (Parser.form_type f = "10-K" \/ Parser.form_type f = "10-Q"))
      facts.
Proof.
  eexists. split; [vm_compute; reflexivity|]. split; [reflexivity|].
  apply (extract_emits_only_allowed Samples.decimal_float
           (Some Samples.apple_document)).
  vm_compute. reflexivity.
Defined.



(** C9: for [None], for the empty dictionary and for any document without
    the key ['facts'], extraction returns the empty list and raises nothing. *)
Theorem extract_without_facts_is_empty (float_of_str : string -> option spec_float) :
  Parser.extract_financial_facts float_of_str None = Ok [] /\
  forall entityName cik,
    Parser.extract_financial_facts float_of_str
      (Some (Parser.mkCompanyData entityName cik None)) = Ok [].
Proof. split; [reflexivity | intros; reflexivity]. Qed.

(** C10: an entry of a recognized form type without any [val] is not
    skipped: it yields a fact whose value is 0.0, and that fact is among the
    facts of its tag. *)
Theorem missing_val_defaults_to_zero (float_of_str : string -> option spec_float)
    (cik company_name tag unit_ : string) (tag_data : Parser.TagData)
    (units : list (string * list Parser.Entry)) (entries : list Parser.Entry)
    (entry : Parser.Entry) :
  Parser.td_units tag_data = Some units ->
  In (unit_, entries) units ->
  In entry entries ->
  Parser.entry_val entry = None ->
  In (default "" (Parser.entry_form entry)) Parser.recognized_forms ->
  let label :=
    default (dict_get_default Parser.key_financial_tags tag tag)
      (Parser.td_label tag_data) in
  let description := default "" (Parser.td_description tag_data) in
  let accession := default "" (Parser.entry_accn entry) in
  let fact :=
    Parser.mkCompanyFact cik company_name tag label description float_zero unit_
      (default "" (Parser.entry_end entry))
      (default "" (Parser.entry_form entry))
      (default "" (Parser.entry_filed entry))
      accession
      (if negb (String.eqb accession "") then Parser._build_sec_url cik accession
       else "") in
  Parser.process_entry float_of_str cik company_name tag label description unit_ entry
    = Ok [fact] /\
  forall facts,
    Parser._process_financial_tag float_of_str cik company_name tag tag_data
      = Ok facts ->
    In fact facts.
Proof.
  intros Hunits Hu He Hval Hform label description accession fact.
  assert (Hentry : Parser.process_entry float_of_str cik company_name tag label
                     description unit_ entry = Ok [fact]).
  { unfold Parser.process_entry. apply str_in_In in Hform. rewrite Hform, Hval.
    reflexivity. }
  split; [exact Hentry|].
  intros facts Hfacts. unfold Parser._process_financial_tag in Hfacts.
  rewrite Hunits in Hfacts. simpl in Hfacts.
  destruct (for_extend_In _ _ _ _ Hfacts Hu) as (ys & Hys & Hincl).
  destruct (for_extend_In _ _ _ _ Hys He) as (zs & Hzs & Hincl').
  fold label description in Hzs. rewrite Hentry in Hzs. injection Hzs as <-.
  apply Hincl, Hincl'. left. reflexivity.
Qed.

Lemma missing_val_defaults_to_zero_witness :
  exists fact,
    Parser.process_entry Samples.decimal_float "320193" "Apple Inc." "Revenues"
      "Revenues" "Amount of revenue recognized." "USD" Samples.entry_no_val
    = Ok [fact] /\
    Parser.value fact = S754_zero false /\
    Parser.end_date fact = "2023-07-01".
Proof.
  eexists. split.
  - apply (missing_val_defaults_to_zero Samples.decimal_float "320193" "Apple Inc."
             "Revenues" "USD" Samples.revenues_data
             [("USD", Samples.revenue_entries)] Samples.revenue_entries
             Samples.entry_no_val eq_refl).
    + left. reflexivity.
    + simpl. tauto.
    + reflexivity.
    + right. left. reflexivity.
  - split; reflexivity.
Defined.

(** ** The order of [str] *)

Lemma str_compare_refl a : String.compare a a = Eq.
Proof.
  induction a as [|c a IH]; simpl; [reflexivity|].
  unfold Ascii.compare. rewrite N.compare_refl. exact IH.
Qed.

Lemma str_ltb_leb a b : String.ltb a b = true <-> String.leb a b = true /\ a <> b.
Proof.
  unfold String.ltb, String.leb.
  destruct (String.compare a b) eqn:Hc; split; try (intros [? ?]); try discriminate.
  - apply String.compare_eq_iff in Hc. contradiction.
  - intros _. split; [reflexivity|]. intros ->.
    rewrite str_compare_refl in Hc. discriminate.
  - reflexivity.
Qed.

Lemma str_leb_trans a b c :
  String.leb a b = true -> String.leb b c = true -> String.leb a c = true.
Proof.
  intros H1 H2. apply Is_true_true. apply Is_true_true in H1, H2.
  change (String.le a c). change (String.le a b) in H1. change (String.le b c) in H2.
  etrans; eassumption.
Qed.

Lemma str_leb_ltb_trans a b c :
  String.leb a b = true -> String.ltb b c = true -> String.ltb a c = true.
Proof.
  intros H1 H2. apply str_ltb_leb in H2 as [H2 Hne]. apply str_ltb_leb. split.
  - eapply str_leb_trans; eassumption.
  - intros ->. apply Hne. apply String.leb_antisym; assumption.
Qed.

Lemma str_ltb_trans a b c :
  String.ltb a b = true -> String.ltb b c = true -> String.ltb a c = true.
Proof.
  intros H1 H2. apply str_ltb_leb in H1 as [H1 _].
  eapply str_leb_ltb_trans; eassumption.
Qed.

Lemma str_not_gt_leb a b : Parser.str_gt a b = false -> String.leb a b = true.
Proof.
  unfold Parser.str_gt, String.ltb, String.leb.
  rewrite (String.compare_antisym a b).
  destruct (String.compare b a); simpl; congruence.
Qed.

Lemma str_leb_refl a : String.leb a a = true.
Proof.
  unfold String.leb. rewrite str_compare_refl. reflexivity.
Qed.

(** ** The latest annual snapshot *)

Section LatestAnnual.
Import Parser.

Lemma annual_for_dec t f :
  {annual_for t f} + {~ annual_for t f}.
Proof.
  unfold annual_for.
  destruct (string_dec (form_type f) "10-K");
    destruct (string_dec (tag f) t); tauto.
Qed.

Lemma latest_annual_step_entry facts m x t :
  latest_annual_entry facts t (m !! t) ->
  latest_annual_entry (facts ++ [x]) t (latest_annual_step m x !! t).
Proof.
  intros Hinv. unfold latest_annual_step.
  destruct (String.eqb (form_type x) "10-K") eqn:Hform.
  2: { (* not an annual entry: the dictionary is unchanged *)
    apply String.eqb_neq in Hform.
    destruct (m !! t) as [f|]; simpl in *.
    - destruct Hinv as (before & after & -> & Hf & Hb & Ha).
      exists before, (after ++ [x]). rewrite <- app_assoc. simpl.
      repeat split; try apply Hf; [exact Hb|].
      intros g [Hg|[<-|[]]]%in_app_or Hann; [eauto|]. destruct Hann. contradiction.
    - intros g [Hg|[<-|[]]]%in_app_or Hann; [eapply Hinv; eassumption|].
      destruct Hann. contradiction. }
  apply String.eqb_eq in Hform.
  destruct (string_dec (tag x) t) as [Htag|Htag].
  2: { (* an annual entry of another tag *)
    assert (Hsame : forall m', m' = m \/ m' = <[tag x := x]> m -> m' !! t = m !! t).
    { intros m' [->| ->]; [reflexivity|]. apply lookup_insert_ne. exact Htag. }
    assert (Hstep : (match m !! tag x with
                     | Some current =>
                         if str_gt (end_date x) (end_date current)
                         then <[tag x:=x]> m else m
                     | None => <[tag x:=x]> m
                     end) !! t = m !! t).
    { apply Hsame. destruct (m !! tag x); [destruct (str_gt _ _)|]; auto. }
    rewrite Hstep.
    destruct (m !! t) as [f|]; simpl in *.
    - destruct Hinv as (before & after & -> & Hf & Hb & Ha).
      exists before, (after ++ [x]). rewrite <- app_assoc. simpl.
      repeat split; try apply Hf; [exact Hb|].
      intros g [Hg|[<-|[]]]%in_app_or Hann; [eauto|]. destruct Hann. contradiction.
    - intros g [Hg|[<-|[]]]%in_app_or Hann; [eapply Hinv; eassumption|].
      destruct Hann. contradiction. }
  subst t.
  destruct (m !! tag x) as [current|] eqn:Hcur; simpl in Hinv.
  - destruct Hinv as (before & after & -> & Hf & Hb & Ha).
    destruct (str_gt (end_date x) (end_date current)) eqn:Hgt.
    + (* a strictly later period end replaces the entry *)
      rewrite lookup_insert_eq. simpl.
      exists (before ++ current :: after), [].
      split; [reflexivity|]. split; [split; [exact Hform | reflexivity]|]. split.
      * intros g Hg Hann. unfold str_gt in Hgt.
        apply in_app_or in Hg as [Hg|[<-|Hg]].
        -- eapply str_ltb_trans; [apply Hb; assumption | exact Hgt].
        -- exact Hgt.
        -- eapply str_leb_ltb_trans; [apply Ha; assumption | exact Hgt].
      * intros g [].
    + (* an equal or earlier period end leaves the entry in place *)
      rewrite Hcur. simpl.
      exists before, (after ++ [x]). rewrite <- app_assoc. simpl.
      repeat split; try apply Hf; [exact Hb|].
      intros g [Hg|[<-|[]]]%in_app_or Hann; [eauto|].
      apply str_not_gt_leb. exact Hgt.
  - rewrite lookup_insert_eq. simpl.
    exists facts, [].
    split; [reflexivity|]. split; [split; [exact Hform | reflexivity]|]. split.
    + intros g Hg Hann. exfalso. eapply Hinv; eassumption.
    + intros g [].
Qed.

Lemma get_latest_annual_data_entry facts t :
  latest_annual_entry facts t (get_latest_annual_data facts !! t).
Proof.
  unfold get_latest_annual_data.
  induction facts as [|x facts IH] using rev_ind.
  - simpl. rewrite lookup_empty. simpl. intros g [].
  - rewrite foldl_app. simpl. apply latest_annual_step_entry. exact IH.
Qed.
End LatestAnnual.

(** C2 as the specification has it fails: of two annual entries for one tag
    with the same period end, the snapshot holds the first, not the later. *)
Lemma latest_annual_tie_keeps_first :
  Parser.end_date Samples.tie_first = Parser.end_date Samples.tie_second /\
  Parser.annual_for "Revenues" Samples.tie_first /\
  Parser.annual_for "Revenues" Samples.tie_second /\
  Parser.get_latest_annual_data [Samples.tie_first; Samples.tie_second] !! "Revenues"
    = Some Samples.tie_first /\
  Parser.get_latest_annual_data [Samples.tie_first; Samples.tie_second] !! "Revenues"
    <> Some Samples.tie_second.
Proof.
  assert (H : Parser.get_latest_annual_data [Samples.tie_first; Samples.tie_second]
              !! "Revenues" = Some Samples.tie_first) by (vm_compute; reflexivity).
  split; [reflexivity|]. split; [split; reflexivity|]. split; [split; reflexivity|].
  split; [exact H|]. rewrite H. discriminate.
Qed.

(** C2, amended: per concept tag the snapshot holds an annual entry with the
    greatest period-end date, and among the entries with that date the one
    met first in the input; a tag without annual entries has no entry. *)
Theorem latest_annual_is_first_maximum (facts : list Parser.CompanyFact) (t : string) :
  match Parser.get_latest_annual_data facts !! t with
  | Some f =>
      exists before after,
        facts = before ++ f :: after /\
        Parser.annual_for t f /\
        (forall g, In g before -> Parser.annual_for t g ->
                   String.ltb (Parser.end_date g) (Parser.end_date f) = true) /\
        (forall g, In g after -> Parser.annual_for t g ->
                   String.leb (Parser.end_date g) (Parser.end_date f) = true)
  | None => forall g, In g facts -> ~ Parser.annual_for t g
  end.
Proof. exact (get_latest_annual_data_entry facts t). Qed.

(** ** The EDGAR client *)

Ltac client_step :=
  cbn -[Parser._rate_limit zfill str_of_int String.append].

Section ClientFacts.
Import Parser.

Lemma sent_rate_limit c : sent (_rate_limit c) = sent c.
Proof. unfold _rate_limit. destruct (_ <? _); reflexivity. Qed.

Lemma log_rate_limit c : log (_rate_limit c) = log c.
Proof. unfold _rate_limit. destruct (_ <? _); reflexivity. Qed.

(** As long as the service keeps answering 429 the client keeps asking:
    after [k] such answers it has slept the backoff [k] times and returns
    what the next answer gives. *)
Lemma get_company_facts_retries_each_429 k : forall frames srv cik c data,
  (forall i, (i < k)%nat -> is_rate_limited (srv (length (sent c) + i)%nat) = true) ->
  srv (length (sent c) + k)%nat = Http 200 (Json data) ->
  (k < frames)%nat ->
  let '(r, c') := get_company_facts frames srv cik c in
  r = Ok (Some data) /\
  length (sent c') = (length (sent c) + k + 1)%nat /\
  length (List.filter (Z.eqb 1000) (slept c')) =
    (length (List.filter (Z.eqb 1000) (slept (_rate_limit c))) + k)%nat.
Proof.
  induction k as [|k IH]; intros frames srv cik c data H429 H200 Hframes.
  - destruct frames as [|frames]; [lia|]. client_step.
    rewrite sent_rate_limit. rewrite Nat.add_0_r in H200. rewrite H200.
    client_step. rewrite length_app. simpl.
    repeat split; lia.
  - destruct frames as [|frames]; [lia|]. client_step.
    rewrite sent_rate_limit.
    pose proof (H429 O ltac:(lia)) as H0. rewrite Nat.add_0_r in H0.
    destruct (srv (length (sent c))) as [code body| |]; try discriminate.
    simpl in H0. apply Z.eqb_eq in H0. subst code. client_step.
    match goal with
    | |- context [get_company_facts frames srv cik ?c1] =>
        specialize (IH frames srv cik c1 data); set (c2 := c1) in *
    end.
    assert (Hsent2 : sent c2 = sent c ++
              [base_url +:+ "/companyfacts/CIK" +:+ zfill 10 cik +:+ ".json"]).
    { subst c2. reflexivity. }
    assert (Hslept2 : slept (_rate_limit c2) = slept (_rate_limit c) ++ [1000]).
    { unfold _rate_limit at 1. subst c2. client_step.
      rewrite Z.add_simpl_l. reflexivity. }
    rewrite Hsent2, length_app in IH. cbn [length] in IH.
    destruct (get_company_facts frames srv cik c2) as [r c'].
    destruct IH as (Hr & Hsent & Hslept).
    + intros i Hi. replace (length (sent c) + 1 + i)%nat
        with (length (sent c) + S i)%nat by lia. apply H429. lia.
    + replace (length (sent c) + 1 + k)%nat
        with (length (sent c) + S k)%nat by lia. exact H200.
    + lia.
    + split; [exact Hr|]. split; [lia|]. rewrite Hslept, Hslept2.
      rewrite List.filter_app, length_app. simpl. lia.
Qed.
(** Against a service that answers 429 to every request the client never
    gives the caller a result: it retries until the interpreter refuses
    another call. *)
Lemma get_company_facts_429_forever frames : forall srv cik c,
  (forall n, is_rate_limited (srv n) = true) ->
  fst (get_company_facts frames srv cik c) = Raise RecursionError /\
  length (sent (snd (get_company_facts frames srv cik c)))
  = (length (sent c) + frames)%nat.
Proof.
  induction frames as [|frames IH]; intros srv cik c H429.
  - simpl. split; [reflexivity | lia].
  - client_step. rewrite sent_rate_limit.
    pose proof (H429 (length (sent c))) as H0.
    destruct (srv (length (sent c))) as [code body| |]; try discriminate.
    simpl in H0. apply Z.eqb_eq in H0. subst code. client_step.
    match goal with
    | |- context [get_company_facts frames srv cik ?c1] =>
        destruct (IH srv cik c1 H429) as [Hr Hsent]; set (c2 := c1) in *
    end.
    split; [exact Hr|]. rewrite Hsent. subst c2. client_step.
    rewrite length_app. simpl. lia.
Qed.
End ClientFacts.

(** C1, evaluated: when the service answers 429 twice and then serves the
    document, the client does not give up after the second 429: it sleeps
    the backoff a second time, sends a third request and returns the
    document. *)
Theorem get_company_facts_retries_after_second_429 :
  let '(r, c) :=
    Parser.get_company_facts 3 Samples.throttled_twice "320193"
      (Parser.new_client 5000) in
  r = Ok (Some Samples.apple_document) /\
  length (Parser.sent c) = 3%nat /\
  Parser.slept c = [1000; 1000].
Proof. vm_compute. repeat split; reflexivity. Qed.




(** ** The fact store *)

Section ListFilter.
Context {A : Type}.
Implicit Types (p q : A -> bool) (l : list A).

Lemma filter_all_true p l :
  (forall x, In x l -> p x = true) -> List.filter p l = l.
Proof.
  induction l as [|x l IH]; intros Hall; simpl; [reflexivity|].
  rewrite (Hall x) by (left; reflexivity). f_equal. apply IH.
  intros y Hy. apply Hall. right. exact Hy.
Qed.

Lemma filter_all_false p l :
  (forall x, In x l -> p x = false) -> List.filter p l = [].
Proof.
  induction l as [|x l IH]; intros Hall; simpl; [reflexivity|].
  rewrite (Hall x) by (left; reflexivity). apply IH.
  intros y Hy. apply Hall. right. exact Hy.
Qed.

Lemma filter_twice p q l :
  List.filter p (List.filter q l) = List.filter (fun x => q x && p x) l.
Proof.
  induction l as [|x l IH]; simpl; [reflexivity|].
  destruct (q x); simpl; [destruct (p x)|]; rewrite IH; reflexivity.
Qed.

Lemma filter_map_commute {B} (f : A -> B) (p : A -> bool) (p' : B -> bool) l :
  (forall x, p' (f x) = p x) ->
  map f (List.filter p l) = List.filter p' (map f l).
Proof.
  intros Hp. induction l as [|x l IH]; simpl; [reflexivity|].
  rewrite Hp. destruct (p x); simpl; rewrite IH; reflexivity.
Qed.
End ListFilter.

Section InsertOrReplace.
Context {A K : Type} `{EqDecision K} (key : A -> K).

Local Abbreviation upsert := (Db.insert_or_replace key).

(** The rows of [table] that no key of [xs] replaces. *)
Local Abbreviation untouched xs :=
  (fun r => negb (bool_decide (key r ∈ map key xs))).

Lemma insert_or_replace_map {B} (f : A -> B) (key' : B -> K) table x :
  (forall r, key' (f r) = key r) ->
  map f (upsert table x) = Db.insert_or_replace key' (map f table) (f x).
Proof.
  intros Hkey. unfold Db.insert_or_replace. rewrite map_app. simpl. f_equal.
  apply filter_map_commute. intros r. rewrite !Hkey. reflexivity.
Qed.

Lemma foldl_upsert_split table xs :
  foldl upsert table xs = List.filter (untouched xs) table ++ foldl upsert [] xs.
Proof.
  induction xs as [|x xs IH] using rev_ind.
  - cbn [foldl map]. rewrite app_nil_r. symmetry. apply filter_all_true.
    intros r _. rewrite bool_decide_eq_false_2; [reflexivity|].
    apply not_elem_of_nil.
  - rewrite !foldl_app. simpl. rewrite IH.
    unfold Db.insert_or_replace at 1 3.
    rewrite List.filter_app, filter_twice, <- !app_assoc. f_equal.
    apply List.filter_ext. intros r.
    rewrite map_app. simpl.
    rewrite !bool_decide_decide.
    destruct (decide (key r ∈ map key xs)) as [Hin|Hin];
      destruct (decide (key r = key x)) as [Heq|Hne];
      destruct (decide (key r ∈ map key xs ++ [key x])) as [Happ|Happ];
      simpl; try reflexivity; exfalso;
      rewrite elem_of_app, list_elem_of_singleton in Happ; tauto.
Qed.

Lemma foldl_upsert_keys xs r :
  In r (foldl upsert [] xs) -> key r ∈ map key xs.
Proof.
  revert r. induction xs as [|x xs IH] using rev_ind; intros r; simpl; [tauto|].
  rewrite foldl_app. simpl. unfold Db.insert_or_replace at 1.
  rewrite map_app. intros [Hr|[<-|[]]]%in_app_or.
  - apply List.filter_In in Hr as [Hr _]. apply IH in Hr.
    apply elem_of_app. left. exact Hr.
  - apply elem_of_app. right. apply list_elem_of_singleton. reflexivity.
Qed.

(** Writing the same rows a second time leaves the table as it is. *)
Lemma foldl_upsert_twice table xs :
  foldl upsert (foldl upsert table xs) xs = foldl upsert table xs.
Proof.
  rewrite (foldl_upsert_split (foldl upsert table xs)).
  rewrite (foldl_upsert_split table xs).
  rewrite List.filter_app, filter_twice.
  rewrite (filter_all_false (untouched xs) (foldl upsert [] xs)).
  - rewrite app_nil_r. f_equal.
    apply List.filter_ext. intros r. apply andb_diag.
  - intros r Hr. apply foldl_upsert_keys in Hr.
    rewrite bool_decide_eq_true_2; [reflexivity | exact Hr].
Qed.
End InsertOrReplace.

Section StoreFacts.
Import Db.
Variables (now : Timestamp) (update_company_info : bool).

Lemma fact_rows_replace_fact fact st :
  fact_rows (replace_fact now fact st)
  = insert_or_replace natural_key (fact_rows st) (fact_data fact).
Proof.
  unfold fact_rows, replace_fact. simpl.
  apply (insert_or_replace_map (fun row => natural_key (data row)) data natural_key).
  reflexivity.
Qed.

Lemma fact_rows_replace_facts facts st :
  fact_rows (foldl (fun st fact => replace_fact now fact st) st facts)
  = foldl (insert_or_replace natural_key) (fact_rows st) (map fact_data facts).
Proof.
  revert st. induction facts as [|fact facts IH]; intros st; simpl; [reflexivity|].
  rewrite IH, fact_rows_replace_fact. reflexivity.
Qed.

Lemma company_rows_replace_facts facts st :
  company_rows (foldl (fun st fact => replace_fact now fact st) st facts)
  = company_rows st.
Proof.
  revert st. induction facts as [|fact facts IH]; intros st; simpl; [reflexivity|].
  rewrite IH. reflexivity.
Qed.

Lemma fact_rows_store_groups groups st :
  fact_rows (foldl (store_group now update_company_info) st groups)
  = foldl (insert_or_replace natural_key) (fact_rows st)
      (map fact_data (flat_map (fun g => snd (snd g)) groups)).
Proof.
  revert st. induction groups as [|[c [name facts]] groups IH]; intros st; simpl;
    [reflexivity|].
  rewrite IH, fact_rows_replace_facts, map_app, foldl_app.
  destruct update_company_info; reflexivity.
Qed.

Lemma company_rows_store_groups groups st :
  company_rows (foldl (store_group now update_company_info) st groups)
  = if update_company_info
    then foldl (insert_or_replace company_cik) (company_rows st)
           (map group_info groups)
    else company_rows st.
Proof.
  revert st. induction groups as [|[c [name facts]] groups IH]; intros st; simpl.
  - destruct update_company_info; reflexivity.
  - rewrite IH, company_rows_replace_facts.
    destruct update_company_info; [|reflexivity]. f_equal.
    unfold company_rows, replace_company. simpl.
    apply (insert_or_replace_map (fun row => company_cik (info row)) info company_cik).
    reflexivity.
Qed.
End StoreFacts.

(** C5: storing a batch of facts a second time leaves the store as the first
    time left it: the same number of rows and the same field values in
    [financial_facts] and in [companies].  (The row id and the timestamps,
    which the store hands out at every write, are new.) *)
Theorem store_company_facts_idempotent (now1 now2 : Db.Timestamp)
    (facts : list Parser.CompanyFact) (update_company_info : bool) (st : Db.Store) :
  let once := Db.store_company_facts now1 facts update_company_info st in
  let twice := Db.store_company_facts now2 facts update_company_info once in
  length (Db.financial_facts twice) = length (Db.financial_facts once) /\
  Db.fact_rows twice = Db.fact_rows once /\
  length (Db.companies twice) = length (Db.companies once) /\
  Db.company_rows twice = Db.company_rows once.
Proof.
  intros once twice.
  assert (Hfacts : Db.fact_rows twice = Db.fact_rows once).
  { subst once twice. unfold Db.store_company_facts.
    destruct facts as [|f facts]; [reflexivity|].
    rewrite !fact_rows_store_groups. apply foldl_upsert_twice. }
  assert (Hcompanies : Db.company_rows twice = Db.company_rows once).
  { subst once twice. unfold Db.store_company_facts.
    destruct facts as [|f facts]; [reflexivity|].
    rewrite !company_rows_store_groups.
    destruct update_company_info; [|reflexivity]. apply foldl_upsert_twice. }
  split; [|split; [exact Hfacts|split; [|exact Hcompanies]]].
  - apply (f_equal length) in Hfacts. unfold Db.fact_rows in Hfacts.
    rewrite !length_map in Hfacts. exact Hfacts.
  - apply (f_equal length) in Hcompanies. unfold Db.company_rows in Hcompanies.
    rewrite !length_map in Hcompanies. exact Hcompanies.
Qed.

(** What the second write does change: the row is a new row, with the next
    id and the timestamps of the second write. *)
Lemma store_company_facts_renews_row :
  let once := Db.store_company_facts 100 [Samples.tie_first] true Db.empty_store in
  let twice := Db.store_company_facts 200 [Samples.tie_first] true once in
  map Db.id (Db.financial_facts once) = [1] /\
  map Db.id (Db.financial_facts twice) = [2] /\
  map Db.updated_at (Db.financial_facts twice) = [200].
Proof. vm_compute. repeat split; reflexivity. Qed.

(** ** Sorting, duplicates and prefixes *)

Section SortFacts.
Context {A : Type} (le : A -> A -> bool).
Hypothesis le_total : forall x y, le x y = true \/ le y x = true.
Hypothesis le_trans : forall x y z, le x y = true -> le y z = true -> le x z = true.

Lemma insert_sorted_perm x l : Permutation (insert_sorted le x l) (x :: l).
Proof.
  induction l as [|y l IH]; simpl; [reflexivity|].
  destruct (le x y); [reflexivity|].
  rewrite IH. apply perm_swap.
Qed.

Lemma stable_sort_perm l : Permutation (stable_sort le l) l.
Proof.
  induction l as [|x l IH]; simpl; [reflexivity|].
  rewrite insert_sorted_perm, IH. reflexivity.
Qed.

Lemma insert_sorted_sorted x l :
  StronglySorted (fun a b => le a b = true) l ->
  StronglySorted (fun a b => le a b = true) (insert_sorted le x l).
Proof.
  induction l as [|y l IH]; intros Hl; simpl.
  - constructor; constructor.
  - inversion Hl as [|? ? Hl' Hy]; subst.
    destruct (le x y) eqn:Hxy.
    + constructor; [exact Hl|]. constructor; [exact Hxy|].
      eapply List.Forall_impl; [|exact Hy]. intros z Hz. eapply le_trans; eassumption.
    + constructor; [apply IH; exact Hl'|].
      eapply Permutation_Forall; [symmetry; apply insert_sorted_perm|].
      constructor; [|exact Hy].
      destruct (le_total x y) as [H|H]; [congruence | exact H].
Qed.

Lemma stable_sort_sorted l :
  StronglySorted (fun a b => le a b = true) (stable_sort le l).
Proof.
  induction l as [|x l IH]; simpl; [constructor|].
  apply insert_sorted_sorted, IH.
Qed.
End SortFacts.

Lemma firstn_In {A} n (l : list A) x : In x (firstn n l) -> In x l.
Proof.
  intros Hx. rewrite <- (firstn_skipn n l). apply in_or_app. left. exact Hx.
Qed.

Lemma StronglySorted_firstn {A} (R : A -> A -> Prop) n l :
  StronglySorted R l -> StronglySorted R (firstn n l).
Proof.
  revert n. induction l as [|x l IH]; intros [|n] Hl; simpl; try constructor.
  - inversion Hl; subst. apply IH. assumption.
  - inversion Hl as [|? ? _ Hx]; subst.
    rewrite List.Forall_forall in *. intros y Hy. apply Hx.
    eapply firstn_In; eassumption.
Qed.

Lemma StronglySorted_weaken {A} (R R' : A -> A -> Prop) l :
  (forall a b, R a b -> R' a b) -> StronglySorted R l -> StronglySorted R' l.
Proof.
  intros HR. induction 1 as [|x l Hl IH Hx]; constructor; [exact IH|].
  eapply List.Forall_impl; [|exact Hx]. intros y. apply HR.
Qed.

Lemma NoDup_firstn {A} n (l : list A) : NoDup l -> NoDup (firstn n l).
Proof.
  intros Hl. rewrite <- (firstn_skipn n l) in Hl.
  apply NoDup_app in Hl as [Hl _]. exact Hl.
Qed.

Lemma head_firstn {A} n (l : list A) : exists k, head n l = firstn k l.
Proof. unfold head. destruct (n <? 0); eexists; reflexivity. Qed.

Lemma head_length {A} n (l : list A) : 0 <= n -> Z.of_nat (length (head n l)) <= n.
Proof.
  intros Hn. unfold head. destruct (n <? 0) eqn:Hneg; [lia|].
  rewrite length_firstn. lia.
Qed.

Lemma sql_limit_length {A} n (l : list A) :
  0 <= n -> Z.of_nat (length (sql_limit n l)) <= n.
Proof.
  intros Hn. unfold sql_limit. destruct (n <? 0) eqn:Hneg; [lia|].
  rewrite length_firstn. lia.
Qed.

Lemma sql_limit_firstn {A} n (l : list A) : exists k, sql_limit n l = firstn k l.
Proof.
  unfold sql_limit. destruct (n <? 0).
  - exists (length l). symmetry. apply firstn_all.
  - eexists. reflexivity.
Qed.

Section DropDuplicates.
Context {A K : Type} `{EqDecision K} (key : A -> K).

Lemma drop_duplicates_from_In seen l x :
  In x (drop_duplicates_from key seen l) -> In x l /\ key x ∉ seen.
Proof.
  revert seen. induction l as [|y l IH]; intros seen; simpl; [tauto|].
  destruct (decide (key y ∈ seen)) as [Hy|Hy].
  - intros Hx. apply IH in Hx. tauto.
  - intros [<-|Hx]; [tauto|]. apply IH in Hx as [Hx Hseen].
    split; [tauto|]. intros Hin. apply Hseen. right. exact Hin.
Qed.

Lemma drop_duplicates_from_NoDup seen l :
  NoDup (map key (drop_duplicates_from key seen l)).
Proof.
  revert seen. induction l as [|y l IH]; intros seen; simpl; [constructor|].
  destruct (decide (key y ∈ seen)) as [Hy|Hy]; [apply IH|].
  simpl. constructor; [|apply IH].
  intros Hin. apply list_elem_of_In, in_map_iff in Hin as (x & Hkey & Hx).
  apply drop_duplicates_from_In in Hx as [_ Hx].
  apply Hx, elem_of_cons. left. exact Hkey.
Qed.

Lemma drop_duplicates_from_covers seen l x :
  In x l -> key x ∈ seen \/ In (key x) (map key (drop_duplicates_from key seen l)).
Proof.
  revert seen. induction l as [|y l IH]; intros seen; simpl; [tauto|].
  intros [<-|Hx].
  - destruct (decide (key y ∈ seen)) as [Hy|Hy]; [left; exact Hy|].
    right. left. reflexivity.
  - destruct (decide (key y ∈ seen)) as [Hy|Hy]; [apply IH, Hx|].
    destruct (IH (key y :: seen) Hx) as [Hin|Hin].
    + apply elem_of_cons in Hin as [Heq|Hin]; [|left; exact Hin].
      right. left. symmetry. exact Heq.
    + right. right. exact Hin.
Qed.

Lemma drop_duplicates_from_length seen l :
  (length (drop_duplicates_from key seen l) <= length l)%nat.
Proof.
  revert seen. induction l as [|y l IH]; intros seen; simpl; [lia|].
  destruct (decide (key y ∈ seen)); simpl.
  - specialize (IH seen). lia.
  - specialize (IH (key y :: seen)). lia.
Qed.

Lemma drop_duplicates_NoDup l : NoDup (map key (drop_duplicates key l)).
Proof. apply drop_duplicates_from_NoDup. Qed.

Lemma drop_duplicates_In l x : In x (drop_duplicates key l) -> In x l.
Proof. intros Hx. apply drop_duplicates_from_In in Hx. tauto. Qed.

Lemma drop_duplicates_covers l x :
  In x l -> In (key x) (map key (drop_duplicates key l)).
Proof.
  intros Hx. destruct (drop_duplicates_from_covers [] l x Hx) as [Hin|Hin];
    [|exact Hin].
  apply not_elem_of_nil in Hin. contradiction.
Qed.

Lemma drop_duplicates_length l : (length (drop_duplicates key l) <= length l)%nat.
Proof. apply drop_duplicates_from_length. Qed.
End DropDuplicates.

(** ** The search engine *)

Section SearchFacts.
Import App.

Lemma foldl_extend {A B} (f : B -> list A) init ws :
  foldl (fun results w => results ++ f w) init ws = init ++ flat_map f ws.
Proof.
  revert init. induction ws as [|w ws IH]; intros init; simpl.
  - rewrite app_nil_r. reflexivity.
  - rewrite IH, <- app_assoc. reflexivity.
Qed.

Lemma _rank_results_sort df query :
  _rank_results df query = stable_sort (score_order (lower query)) df.
Proof. destruct df; reflexivity. Qed.

Lemma score_order_total q a b : score_order q a b = true \/ score_order q b a = true.
Proof. unfold score_order. rewrite !Z.leb_le. lia. Qed.

Lemma score_order_trans q a b c :
  score_order q a b = true -> score_order q b c = true -> score_order q a c = true.
Proof. unfold score_order. rewrite !Z.leb_le. lia. Qed.

(** When the exact search finds nothing, [smart_search] is the ranking of
    what the words find. *)
Lemma smart_search_fallback_eq db query max_results :
  search_line_items db query max_results = [] ->
  smart_search db query max_results
  = head max_results
      (_rank_results
         (drop_duplicates duplicate_key
            (flat_map (search_word db max_results (split query)) (split query)))
         query).
Proof.
  intros Hexact. unfold smart_search. rewrite Hexact.
  rewrite foldl_extend. simpl.
  destruct (flat_map _ (split query)); reflexivity.
Qed.

Lemma search_word_In db max_results words word row :
  In row (search_word db max_results words word) ->
  (2 < String.length word)%nat /\
  In row (search_line_items db word (max_results / Z.of_nat (length words))).
Proof.
  unfold search_word. destruct (2 <? String.length word)%nat eqn:Hlen.
  - apply Nat.ltb_lt in Hlen. tauto.
  - intros [].
Qed.

Lemma search_word_length db max_results words word :
  0 <= max_results / Z.of_nat (length words) ->
  Z.of_nat (length (search_word db max_results words word))
  <= if (2 <? String.length word)%nat
     then max_results / Z.of_nat (length words) else 0.
Proof.
  intros Hk. unfold search_word. destruct (2 <? String.length word)%nat.
  - unfold search_line_items. apply sql_limit_length, Hk.
  - simpl. lia.
Qed.

Lemma flat_map_search_length db max_results words ws :
  0 <= max_results / Z.of_nat (length words) ->
  Z.of_nat (length (flat_map (search_word db max_results words) ws))
  <= Z.of_nat (length (List.filter (fun w => (2 <? String.length w)%nat) ws))
     * (max_results / Z.of_nat (length words)).
Proof.
  intros Hk. induction ws as [|w ws IH]; simpl; [lia|].
  rewrite length_app, Nat2Z.inj_add.
  pose proof (search_word_length db max_results words w Hk) as Hw.
  destruct (2 <? String.length w)%nat; simpl length; lia.
Qed.
End SearchFacts.

(** C3 as the specification has it fails twice over.  The words are
    searched with the limit [max_results // len(words)], so rows are cut
    before duplicates are dropped and the rest is ranked: with a limit of
    2 the query "alpha margin" returns one row where the search of the
    specification returns two.  And the ranking is not by the table
    100/80/60/40/20 with ties by recency: rows that no part of the query
    matches keep the order the words found them in. *)
Lemma smart_search_differs_from_spec :
  App.search_line_items Samples.two_item_database "alpha margin" 2 = [] /\
  length (App.smart_search Samples.two_item_database "alpha margin" 2) = 1%nat /\
  length (App.spec_fallback_search Samples.two_item_database "alpha margin" 2) = 2%nat /\
  App.search_line_items Samples.ranking_database "alpha margin" 4 = [] /\
  map App.filing_year (App.smart_search Samples.ranking_database "alpha margin" 4)
    = [2020; 2021] /\
  map App.filing_year
    (App.spec_fallback_search Samples.ranking_database "alpha margin" 4)
    = [2021; 2020] /\
  App.smart_search Samples.two_item_database "alpha margin" 2
    <> App.spec_fallback_search Samples.two_item_database "alpha margin" 2.
Proof.
  repeat split; try (vm_compute; reflexivity).
  intros H. apply (f_equal length) in H. vm_compute in H. discriminate.
Qed.

(** C3, amended: when the exact search finds nothing, the query is split
    into words, every word longer than two characters is searched with the
    limit [max_results // len(words)], the rows found are put together in
    the order of the words, made unique on (company, concept tag, fiscal
    year), ordered by falling relevance score against the whole query
    (100 for a label equal to it, else 50 for a label that contains it, plus
    30 for a tag that contains it, plus 10 for a fiscal year from 2023 on,
    else 5 from 2022 on) and cut to [max_results].  So the result has no two
    rows with the same key, falls in score, holds only rows a word found
    within its own limit, and is no longer than either limit allows. *)
Theorem smart_search_fallback (db : App.Database) (query : string) (max_results : Z) :
  App.search_line_items db query max_results = [] ->
  let words := split query in
  let per_word := max_results / Z.of_nat (length words) in
  let result := App.smart_search db query max_results in
  result
  = head max_results
      (App._rank_results
         (drop_duplicates App.duplicate_key
            (flat_map (App.search_word db max_results words) words))
         query) /\
  NoDup (map App.duplicate_key result) /\
  StronglySorted
    (fun a b => App.calculate_score (lower query) b
                <= App.calculate_score (lower query) a) result /\
  (forall row, In row result ->
     exists word, In word words /\ (2 < String.length word)%nat /\
                  In row (App.search_line_items db word per_word)) /\
  (0 <= max_results -> Z.of_nat (length result) <= max_results) /\
  (0 <= per_word ->
   Z.of_nat (length result)
   <= Z.of_nat (length (List.filter (fun w => (2 <? String.length w)%nat) words))
      * per_word).
Proof.
  intros Hexact words per_word result.
  pose proof (smart_search_fallback_eq db query max_results Hexact) as Heq.
  fold words result in Heq.
  set (found := flat_map (App.search_word db max_results words) words) in *.
  set (unique := drop_duplicates App.duplicate_key found) in *.
  rewrite _rank_results_sort in Heq.
  set (ranked := stable_sort (App.score_order (lower query)) unique) in *.
  assert (Hperm : Permutation ranked unique) by apply stable_sort_perm.
  destruct (head_firstn max_results ranked) as [k Hk]. rewrite Hk in Heq.
  split; [rewrite _rank_results_sort, Heq, <- Hk; reflexivity|].
  split; [|split; [|split; [|split]]].
  - rewrite Heq, <- firstn_map. apply NoDup_firstn.
    rewrite Hperm. apply drop_duplicates_NoDup.
  - rewrite Heq. apply StronglySorted_firstn.
    eapply StronglySorted_weaken;
      [|apply (stable_sort_sorted (App.score_order (lower query)))].
    + intros a b. unfold App.score_order. apply Z.leb_le.
    + apply score_order_total.
    + apply score_order_trans.
  - intros row Hrow. rewrite Heq in Hrow. apply firstn_In in Hrow.
    apply (Permutation_in _ Hperm) in Hrow.
    apply drop_duplicates_In in Hrow. apply in_flat_map in Hrow as (word & Hword & Hrow).
    apply search_word_In in Hrow as [Hlen Hrow]. exists word. auto.
  - intros Hmax. rewrite Heq, <- Hk. apply head_length, Hmax.
  - intros Hper. rewrite Heq.
    pose proof (flat_map_search_length db max_results words words Hper) as Hfound.
    pose proof (drop_duplicates_length App.duplicate_key found) as Hunique.
    pose proof (Permutation_length Hperm) as Hranked.
    pose proof (firstn_le_length k ranked) as Hfirst.
    rewrite length_firstn. fold found in Hfound. fold unique in Hunique. lia.
Qed.

Lemma smart_search_fallback_witness :
  App.search_line_items Samples.two_item_database "alpha margin" 2 = [] /\
  NoDup (map App.duplicate_key
           (App.smart_search Samples.two_item_database "alpha margin" 2)) /\
  Z.of_nat (length (App.smart_search Samples.two_item_database "alpha margin" 2))
  <= 2 * 1.
Proof.
  split; [vm_compute; reflexivity|].
  pose proof (smart_search_fallback Samples.two_item_database "alpha margin" 2
                ltac:(vm_compute; reflexivity)) as (_ & Hnodup & _ & _ & _ & Hlen).
  split; [exact Hnodup|]. apply Hlen. vm_compute. discriminate.
Defined.

(** ** Trend queries *)

Lemma str_ltb_total a b : a <> b -> String.ltb a b = true \/ String.ltb b a = true.
Proof.
  intros Hne. destruct (String.leb_total a b) as [H|H].
  - left. apply str_ltb_leb. split; assumption.
  - right. apply str_ltb_leb. split; [assumption | congruence].
Qed.

Lemma str_ltb_leb_trans a b c :
  String.ltb a b = true -> String.leb b c = true -> String.ltb a c = true.
Proof.
  intros H1 H2. apply str_ltb_leb in H1 as [H1 Hne]. apply str_ltb_leb. split.
  - eapply str_leb_trans; eassumption.
  - intros ->. apply Hne. apply String.leb_antisym; assumption.
Qed.

Section LegacyTrend.
Import App.
Variable mean : list spec_float -> spec_float.

Lemma legacy_trend_order_total a b :
  App.trend_order a b = true \/ App.trend_order b a = true.
Proof.
  unfold App.trend_order.
  destruct (Z.lt_trichotomy (trend_filing_year a) (trend_filing_year b))
    as [Hlt|[Heq|Hgt]].
  - left. apply orb_true_iff. left. apply Z.ltb_lt, Hlt.
  - rewrite Heq, Z.eqb_refl, Z.ltb_irrefl. simpl.
    apply String.leb_total.
  - right. apply orb_true_iff. left. apply Z.ltb_lt. lia.
Qed.

Lemma legacy_trend_order_iff a b :
  App.trend_order a b = true <->
  trend_filing_year a < trend_filing_year b \/
  (trend_filing_year a = trend_filing_year b /\
   String.leb (trend_company_name a) (trend_company_name b) = true).
Proof.
  unfold App.trend_order.
  rewrite orb_true_iff, andb_true_iff, Z.ltb_lt, Z.eqb_eq. reflexivity.
Qed.

Lemma legacy_trend_order_trans a b c :
  App.trend_order a b = true -> App.trend_order b c = true ->
  App.trend_order a c = true.
Proof.
  rewrite !legacy_trend_order_iff.
  intros [H1|[H1 H1']] [H2|[H2 H2']]; try (left; lia).
  right. split; [lia|]. eapply str_leb_trans; eassumption.
Qed.

Lemma get_trend_data_perm db xbrl_tag_ companies :
  Permutation (get_trend_data mean db xbrl_tag_ companies)
    (map (group_row mean
            (List.filter (trend_matches xbrl_tag_ companies) (financial_line_items db)))
       (drop_duplicates group_key
          (List.filter (trend_matches xbrl_tag_ companies) (financial_line_items db)))).
Proof. apply stable_sort_perm. Qed.

Lemma trend_key_group_row matching :
  forall groups, map trend_key (map (group_row mean matching) groups)
                 = map group_key groups.
Proof.
  induction groups as [|f groups IH]; simpl; [reflexivity|].
  rewrite IH. reflexivity.
Qed.
End LegacyTrend.

Section ProductionTrend.
Import Db.

Lemma trend_order_iff a b :
  Db.trend_order a b = true <->
  String.ltb (trend_end_date b) (trend_end_date a) = true \/
  (trend_end_date a = trend_end_date b /\
   String.leb (trend_company_name a) (trend_company_name b) = true).
Proof.
  unfold Db.trend_order.
  rewrite orb_true_iff, andb_true_iff, String.eqb_eq. reflexivity.
Qed.

Lemma trend_order_total a b :
  Db.trend_order a b = true \/ Db.trend_order b a = true.
Proof.
  rewrite !trend_order_iff.
  destruct (string_dec (trend_end_date a) (trend_end_date b)) as [Heq|Hne].
  - destruct (String.leb_total (trend_company_name a) (trend_company_name b));
      [left|right]; right; split; congruence.
  - destruct (str_ltb_total _ _ Hne); [right|left]; left; assumption.
Qed.

Lemma trend_order_trans a b c :
  Db.trend_order a b = true -> Db.trend_order b c = true ->
  Db.trend_order a c = true.
Proof.
  rewrite !trend_order_iff.
  intros [H1|[H1 H1']] [H2|[H2 H2']].
  - left. eapply str_ltb_trans; eassumption.
  - left. rewrite <- H2. exact H1.
  - left. rewrite H1. exact H2.
  - right. split; [congruence|]. eapply str_leb_trans; eassumption.
Qed.

Lemma trend_selected_In st tag_ companies_ form_types r :
  In r (trend_selected st tag_ companies_ form_types) ->
  exists f c,
    In f (financial_facts st) /\ In c (companies st) /\
    cik (data f) = company_cik (info c) /\
    trend_matches tag_ companies_ form_types (data f, info c) = true /\
    r = trend_row (data f, info c).
Proof.
  unfold trend_selected, join_companies. intros Hr.
  apply in_map_iff in Hr as ([d i] & <- & Hfc).
  apply List.filter_In in Hfc as [Hfc Hmatch].
  apply in_flat_map in Hfc as (f & Hf & Hfc).
  apply in_map_iff in Hfc as (c & Heq & Hc). injection Heq as <- <-.
  apply List.filter_In in Hc as [Hc Hcik]. apply String.eqb_eq in Hcik.
  exists f, c. auto.
Qed.

Lemma get_trend_data_prefix st tag_ companies_ form_types periods :
  exists k,
    get_trend_data st tag_ companies_ form_types periods
    = firstn k (stable_sort Db.trend_order
                  (trend_selected st tag_ companies_ form_types)).
Proof.
  unfold get_trend_data. destruct (periods =? 0).
  - eexists. symmetry. apply firstn_all.
  - apply sql_limit_firstn.
Qed.
End ProductionTrend.

(** C4 as the specification has it fails for the trend query that takes a
    form-type filter, [ProductionDatabaseManager.get_trend_data]: for the
    Revenues facts of AAPL of fiscal 2022 and 2023 it returns the row of 2023
    before the row of 2022, and when a period is reported by two filings it
    returns a row for each, not one averaged row. *)
Lemma production_trend_is_latest_first :
  map Db.trend_fiscal_year
    (Db.get_trend_data Samples.demo_store "Revenues" (Some ["AAPL"]) ["10-K"] 10)
  = [Some 2023; Some 2022] /\
  map Db.trend_fiscal_year
    (Db.get_trend_data Samples.demo_store "Revenues" (Some ["AAPL"]) ["10-K"] 10)
  <> [Some 2022; Some 2023] /\
  map (fun r => (Db.trend_company_name r, Db.trend_fiscal_year r))
    (Db.get_trend_data Samples.demo_store_duplicates "Revenues" (Some ["AAPL"])
       ["10-K"] 10)
  = [("Apple Inc.", Some 2023); ("Apple Inc.", Some 2023); ("Apple Inc.", Some 2022)].
Proof.
  assert (H : map Db.trend_fiscal_year
                (Db.get_trend_data Samples.demo_store "Revenues" (Some ["AAPL"])
                   ["10-K"] 10) = [Some 2023; Some 2022])
    by (vm_compute; reflexivity).
  split; [exact H|]. split; [rewrite H; discriminate|]. vm_compute. reflexivity.
Qed.

(** C4, amended.  The trend query of main_app.py (a concept tag and an
    optional ticker filter, no form-type filter) returns exactly one row per
    (company, ticker, fiscal year) among the entries that match, with the
    average of the values of that group, ordered by fiscal year ascending and
    then by company name; for the sample rows of Revenues of AAPL it returns two
    rows, 2022 then 2023, with the values of those years.  The trend query of
    the production store, which takes the form-type filter, returns a row
    for every stored fact that matches, with the value of that fact, ordered
    by period end descending and then by company name, a prefix of all of
    them: 2023 before 2022. *)
Theorem trend_queries (mean : list spec_float -> spec_float)
    (db : App.Database) (st : Db.Store) (tag_ : string)
    (companies : option (list string)) (form_types : list string) (periods : Z) :
  let matching :=
    List.filter (App.trend_matches tag_ companies) (App.financial_line_items db) in
  let legacy := App.get_trend_data mean db tag_ companies in
  let production := Db.get_trend_data st tag_ companies form_types periods in
  (NoDup (map App.trend_key legacy) /\
   (forall f, In f matching -> In (App.group_key f) (map App.trend_key legacy)) /\
   (forall r, In r legacy ->
      (exists f, In f matching /\ App.group_key f = App.trend_key r) /\
      App.trend_xbrl_tag r = tag_ /\
      App.trend_avg_value r
      = App.sql_avg mean
          (map App.item_value (App.members matching (App.trend_key r)))) /\
   StronglySorted
     (fun a b =>
        App.trend_filing_year a < App.trend_filing_year b \/
        (App.trend_filing_year a = App.trend_filing_year b /\
         String.leb (App.trend_company_name a) (App.trend_company_name b) = true))
     legacy) /\
  ((forall r, In r production ->
      exists f c,
        In f (Db.financial_facts st) /\ In c (Db.companies st) /\
        Db.cik (Db.data f) = Db.company_cik (Db.info c) /\
        Db.trend_matches tag_ companies form_types (Db.data f, Db.info c) = true /\
        r = Db.trend_row (Db.data f, Db.info c)) /\
   StronglySorted
     (fun a b =>
        String.ltb (Db.trend_end_date b) (Db.trend_end_date a) = true \/
        (Db.trend_end_date a = Db.trend_end_date b /\
         String.leb (Db.trend_company_name a) (Db.trend_company_name b) = true))
     production /\
   (periods = 0 ->
    Permutation production (Db.trend_selected st tag_ companies form_types)) /\
   (periods <> 0 -> 0 <= Db.trend_limit companies periods ->
    Z.of_nat (length production) <= Db.trend_limit companies periods)) /\
  (map (fun r => (App.trend_filing_year r, App.trend_avg_value r))
     (App.get_trend_data mean Samples.sample_database "Revenues" (Some ["AAPL"]))
   = [(2022, option_map (fun v => mean [v]) (Samples.real 365817000000));
      (2023, option_map (fun v => mean [v]) (Samples.real 394328000000))] /\
   map (fun r => (Db.trend_fiscal_year r, Db.trend_value r))
     (Db.get_trend_data Samples.demo_store "Revenues" (Some ["AAPL"]) ["10-K"] 10)
   = [(Some 2023, Samples.real 394328000000);
      (Some 2022, Samples.real 365817000000)]).
Proof.
  intros matching legacy production.
  split; [|split].
  - (* main_app.py *)
    pose proof (get_trend_data_perm mean db tag_ companies) as Hperm.
    fold matching legacy in Hperm.
    set (groups := drop_duplicates App.group_key matching) in *.
    assert (Hrows : forall r, In r legacy <->
                      exists f, In f groups /\ r = App.group_row mean matching f).
    { intros r. split.
      - intros Hr. apply (Permutation_in _ Hperm) in Hr.
        apply in_map_iff in Hr as (f & <- & Hf). eauto.
      - intros (f & Hf & ->). apply (Permutation_in _ (Permutation_sym Hperm)).
        apply in_map. exact Hf. }
    split; [|split; [|split]].
    + rewrite Hperm, trend_key_group_row. apply drop_duplicates_NoDup.
    + intros f Hf.
      apply (Permutation_in _ (Permutation_sym (Permutation_map _ Hperm))).
      rewrite trend_key_group_row. apply drop_duplicates_covers. exact Hf.
    + intros r Hr. apply Hrows in Hr as (f & Hf & ->).
      apply drop_duplicates_In in Hf.
      split; [exists f; split; [exact Hf | reflexivity]|].
      split; [|reflexivity].
      apply List.filter_In in Hf as [_ Hmatch]. unfold App.trend_matches in Hmatch.
      apply andb_true_iff in Hmatch as [Htag _]. apply String.eqb_eq in Htag.
      exact Htag.
    + eapply StronglySorted_weaken;
        [|apply (stable_sort_sorted App.trend_order)].
      * intros a b. apply legacy_trend_order_iff.
      * apply legacy_trend_order_total.
      * apply legacy_trend_order_trans.
  - (* database/db_manager.py *)
    destruct (get_trend_data_prefix st tag_ companies form_types periods) as [k Hk].
    fold production in Hk.
    split; [|split; [|split]].
    + intros r Hr. rewrite Hk in Hr. apply firstn_In in Hr.
      apply (Permutation_in _ (stable_sort_perm _ _)) in Hr.
      apply trend_selected_In. exact Hr.
    + rewrite Hk. apply StronglySorted_firstn.
      eapply StronglySorted_weaken;
        [|apply (stable_sort_sorted Db.trend_order)].
      * intros a b. apply trend_order_iff.
      * apply trend_order_total.
      * apply trend_order_trans.
    + intros ->. subst production. unfold Db.get_trend_data. simpl.
      apply stable_sort_perm.
    + intros Hperiods Hlimit. subst production. unfold Db.get_trend_data.
      destruct (periods =? 0) eqn:Hzero; [apply Z.eqb_eq in Hzero; contradiction|].
      apply sql_limit_length, Hlimit.
  - (* the example of the specification *)
    split; vm_compute; reflexivity.
Qed.

(** * Further properties of the code *)

(** ** The client: spacing and repetition of requests *)

Section ClientSpacing.
Import Parser.

Lemma _rate_limit_waits c :
  last_request_time (_rate_limit c) = clock (_rate_limit c) /\
  last_request_time c + min_request_interval <= clock (_rate_limit c) /\
  (min_request_interval <= clock c - last_request_time c ->
   clock (_rate_limit c) = clock c /\ slept (_rate_limit c) = slept c) /\
  (clock c - last_request_time c < min_request_interval ->
   clock (_rate_limit c) = last_request_time c + min_request_interval).
Proof.
  unfold _rate_limit, min_request_interval.
  destruct (clock c - last_request_time c <? 100) eqn:Hlt; simpl.
  - apply Z.ltb_lt in Hlt. repeat split; try lia.
  - apply Z.ltb_ge in Hlt. repeat split; try lia.
Qed.

Lemma zeros_length n : String.length (zeros n) = n.
Proof.
  unfold zeros. induction n as [|n IH]; simpl; [reflexivity|].
  rewrite IH. reflexivity.
Qed.

Lemma append_length a b :
  String.length (a +:+ b) = (String.length a + String.length b)%nat.
Proof.
  induction a as [|c a IH]; [reflexivity|].
  change (String c a +:+ b) with (String c (a +:+ b)). simpl. rewrite IH. reflexivity.
Qed.

Lemma zfill_length width s :
  String.length (zfill width s) = Nat.max width (String.length s).
Proof.
  unfold zfill.
  assert (Hplain : String.length (zeros (width - String.length s) +:+ s)
                   = Nat.max width (String.length s)).
  { rewrite append_length, zeros_length.
    destruct (Nat.max_spec width (String.length s)) as [[? ->]|[? ->]]; lia. }
  destruct s as [|c s]; [exact Hplain|].
  assert (Hsign : forall sign,
            String.length
              (String sign (zeros (width - String.length (String c s)) +:+ s))
            = Nat.max width (String.length (String c s))).
  { intros sign. simpl. rewrite append_length, zeros_length.
    destruct (Nat.max_spec width (S (String.length s))) as [[? ->]|[? ->]]; lia. }
  destruct c as [[] [] [] [] [] [] [] []]; first [exact Hplain | apply Hsign].
Qed.
End ClientSpacing.

(** X1: the client keeps its requests apart.  [_rate_limit] lets a request
    go no sooner than 100 ms after the time of the last one, sleeping just
    the rest of the interval and not at all when it has passed; over a call
    of [get_company_facts] the time of the last request moves on by at least
    100 ms for every request sent. *)
Theorem get_company_facts_spacing (frames : nat) (srv : Parser.Service)
    (cik : string) (c : Parser.Client) :
  let c' := snd (Parser.get_company_facts frames srv cik c) in
  (Parser.last_request_time c + 100 <= Parser.clock (Parser._rate_limit c) /\
   (100 <= Parser.clock c - Parser.last_request_time c ->
    Parser.slept (Parser._rate_limit c) = Parser.slept c) /\
   (Parser.clock c - Parser.last_request_time c < 100 ->
    Parser.clock (Parser._rate_limit c) = Parser.last_request_time c + 100)) /\
  100 * (Z.of_nat (length (Parser.sent c')) - Z.of_nat (length (Parser.sent c)))
  <= Parser.last_request_time c' - Parser.last_request_time c.
Proof.
  intros c'. split.
  { destruct (_rate_limit_waits c) as (_ & H1 & H2 & H3).
    unfold Parser.min_request_interval in *. repeat split; [exact H1| |exact H3].
    intros H. apply H2. exact H. }
  subst c'. revert c. induction frames as [|frames IH]; intros c.
  - simpl. lia.
  - destruct (_rate_limit_waits c) as (Hlast & Hwait & _ & _).
    unfold Parser.min_request_interval in Hwait.
    client_step. rewrite sent_rate_limit.
    assert (Hone : forall r,
      100 * (Z.of_nat (length (Parser.sent c ++ [r]))
             - Z.of_nat (length (Parser.sent c)))
      <= Parser.last_request_time (Parser._rate_limit c)
         - Parser.last_request_time c).
    { intros r. rewrite length_app. cbn [length]. lia. }
    destruct (srv (length (Parser.sent c))) as [code body| |]; client_step;
      try apply Hone.
    destruct (code =? 200); [destruct body; apply Hone|].
    destruct (code =? 404); [apply Hone|].
    destruct (code =? 429); [|apply Hone].
    match goal with
    | |- context [Parser.get_company_facts frames srv cik ?c1] =>
        pose proof (IH c1) as Hrec; set (c2 := c1) in *
    end.
    assert (Hsent2 : length (Parser.sent c2) = S (length (Parser.sent c))).
    { subst c2. client_step. rewrite length_app. simpl. lia. }
    assert (Hlast2 : Parser.last_request_time c2
                     = Parser.last_request_time (Parser._rate_limit c)).
    { subst c2. reflexivity. }
    lia.
Qed.

Lemma zfill_long width s : (width <= String.length s)%nat -> zfill width s = s.
Proof.
  intros Hlen. unfold zfill.
  replace (width - String.length s)%nat with O by lia.
  destruct s as [|c s]; [reflexivity|].
  destruct c as [[] [] [] [] [] [] [] []]; reflexivity.
Qed.

(** X2: whatever the service answers, one call of [get_company_facts] sends
    the same request each time: the URL of the identifier padded with zeros
    to ten characters (identifiers of ten characters or more are left as
    they are).  It sends at least one request and repeats it only after an
    answer 429. *)
Theorem get_company_facts_same_request (frames : nat) (srv : Parser.Service)
    (cik : string) (c : Parser.Client) :
  exists n,
    Parser.sent (snd (Parser.get_company_facts frames srv cik c))
    = Parser.sent c ++ repeat (Parser.company_facts_url cik) n /\
    (n <= frames)%nat /\
    (0 < frames -> 1 <= n)%nat /\
    (forall i, (S i < n)%nat ->
       Parser.is_rate_limited (srv (length (Parser.sent c) + i)%nat) = true) /\
    String.length (zfill 10 cik) = Nat.max 10 (String.length cik) /\
    ((10 <= String.length cik)%nat -> zfill 10 cik = cik).
Proof.
  assert (Hmain : exists n,
    Parser.sent (snd (Parser.get_company_facts frames srv cik c))
    = Parser.sent c ++ repeat (Parser.company_facts_url cik) n /\
    (n <= frames)%nat /\
    (0 < frames -> 1 <= n)%nat /\
    (forall i, (S i < n)%nat ->
       Parser.is_rate_limited (srv (length (Parser.sent c) + i)%nat) = true)).
  { revert c. induction frames as [|frames IH]; intros c.
    - exists O. simpl. rewrite app_nil_r. repeat split; intros; lia.
    - assert (Hone : exists n,
                Parser.sent c ++ [Parser.company_facts_url cik]
                = Parser.sent c ++ repeat (Parser.company_facts_url cik) n /\
                (n <= S frames)%nat /\ (0 < S frames -> 1 <= n)%nat /\
                (forall i, (S i < n)%nat ->
                   Parser.is_rate_limited (srv (length (Parser.sent c) + i)%nat)
                   = true)).
      { exists 1%nat. repeat split; intros; lia. }
      client_step. rewrite sent_rate_limit.
      destruct (srv (length (Parser.sent c))) as [code body| |] eqn:Hsrv;
        client_step; try exact Hone.
      destruct (code =? 200); [destruct body; exact Hone|].
      destruct (code =? 404); [exact Hone|].
      destruct (code =? 429) eqn:H429; [|exact Hone].
      match goal with
      | |- context [Parser.get_company_facts frames srv cik ?c1] =>
          destruct (IH c1) as (n & Hsent & Hn & _ & Hlimited); set (c2 := c1) in *
      end.
      assert (Hsent2 : Parser.sent c2
                       = Parser.sent c ++ [Parser.company_facts_url cik]).
      { subst c2. reflexivity. }
      exists (S n). rewrite Hsent, Hsent2, <- app_assoc. simpl.
      repeat split; try lia.
      intros [|i] Hi.
      + rewrite Nat.add_0_r, Hsrv. simpl. exact H429.
      + specialize (Hlimited i ltac:(lia)).
        rewrite Hsent2, length_app in Hlimited. simpl in Hlimited.
        replace (length (Parser.sent c) + S i)%nat
          with (length (Parser.sent c) + 1 + i)%nat by lia.
        exact Hlimited. }
  destruct Hmain as (n & H1 & H2 & H3 & H4).
  exists n. repeat split; try assumption.
  - apply zfill_length.
  - apply zfill_long.
Qed.

(** X3: [get_company_submissions] asks once and never again: whatever the
    answer, a rate limit among them, the call sends exactly one request, to
    the submissions URL of the padded identifier, sleeps only for the
    request interval, and returns a document only for status 200 with a body
    that parses. *)
Theorem get_company_submissions_single_request {D : Type}
    (srv : nat -> Parser.Reply D) (cik : string) (c : Parser.Client) :
  let '(r, c') := Parser.get_company_submissions srv cik c in
  Parser.sent c'
  = Parser.sent c ++ ["https://data.sec.gov/submissions/CIK" +:+ zfill 10 cik +:+ ".json"] /\
  Parser.slept c' = Parser.slept (Parser._rate_limit c) /\
  (forall data,
     r = Some data <->
     srv (length (Parser.sent c)) = Parser.Answered 200 (inl data)).
Proof.
  unfold Parser.get_company_submissions. rewrite sent_rate_limit.
  destruct (srv (length (Parser.sent c))) as [code json|msg].
  - destruct (code =? 200) eqn:H200.
    + apply Z.eqb_eq in H200. subst code.
      destruct json as [data|msg]; (split; [reflexivity|]); (split; [reflexivity|]);
        intros data'; split; intros H; congruence.
    + split; [reflexivity|]. split; [reflexivity|].
      intros data; split; intros H; [discriminate|].
      injection H as -> _. discriminate.
  - split; [reflexivity|]. split; [reflexivity|].
    intros data; split; intros H; discriminate.
Qed.

(** ** The extractor: where a fact comes from *)

Section Provenance.
Import Parser.
Variable float_of_str : string -> option spec_float.

Lemma _build_sec_url_no_accession cik : _build_sec_url cik "" = "".
Proof. unfold _build_sec_url. rewrite orb_true_r. reflexivity. Qed.

Lemma process_entry_came_from cik company_name tag label description unit_ entry fs :
  process_entry float_of_str cik company_name tag label description unit_ entry
  = Ok fs ->
  Forall (came_from float_of_str cik company_name tag label description unit_ entry)
    fs.
Proof.
  unfold process_entry. destruct (negb _).
  - intros H. injection H as <-. constructor.
  - destruct (float float_of_str _) as [v|e] eqn:Hv; simpl.
    + intros H. injection H as <-. constructor; [|constructor].
      split; [|exact Hv]. simpl.
      destruct (String.eqb (default "" (entry_accn entry)) "") eqn:Hacc; simpl.
      * apply String.eqb_eq in Hacc. rewrite Hacc, _build_sec_url_no_accession.
        reflexivity.
      * reflexivity.
    + destruct e; simpl; intros H; try discriminate; injection H as <-; constructor.
Qed.

Lemma process_tag_came_from cik company_name tag tag_data fs :
  _process_financial_tag float_of_str cik company_name tag tag_data = Ok fs ->
  Forall
    (fun f =>
       exists unit_ entries entry,
         In (unit_, entries) (default [] (td_units tag_data)) /\
         In entry entries /\
         came_from float_of_str cik company_name tag
           (default (dict_get_default key_financial_tags tag tag) (td_label tag_data))
           (default "" (td_description tag_data)) unit_ entry f)
    fs.
Proof.
  unfold _process_financial_tag. intros H.
  eapply for_extend_Forall; [exact H|].
  intros [u entries] ys Hu Hys.
  eapply for_extend_Forall; [exact Hys|].
  intros e fs' He Hfs'. apply process_entry_came_from in Hfs'.
  eapply Forall_impl; [exact Hfs'|]. intros f Hf. exists u, entries, e. auto.
Qed.
End Provenance.

Section DocumentProvenance.
Import Parser.
Variable float_of_str : string -> option spec_float.

Lemma process_namespace_came_from keep cik company_name ns fs :
  process_namespace float_of_str keep cik company_name ns = Ok fs ->
  Forall
    (fun f =>
       exists tag_data unit_ entries entry,
         In (tag f, tag_data) ns /\ keep (tag f) = true /\
         In (unit_, entries) (default [] (td_units tag_data)) /\
         In entry entries /\
         came_from float_of_str cik company_name (tag f)
           (default (dict_get_default key_financial_tags (tag f) (tag f))
              (td_label tag_data))
           (default "" (td_description tag_data)) unit_ entry f)
    fs.
Proof.
  unfold process_namespace. intros H.
  eapply for_extend_Forall; [exact H|].
  intros [t td] ys Ht. destruct (keep t) eqn:Hkeep.
  - intros Hys. apply process_tag_came_from in Hys.
    eapply Forall_impl; [exact Hys|].
    intros f (u & entries & e & Hu & He & Hf).
    assert (Htag : tag f = t) by (destruct Hf as [-> _]; reflexivity).
    rewrite Htag. exists td, u, entries, e. auto.
  - intros Hys. injection Hys as <-. constructor.
Qed.

End DocumentProvenance.

(** X4: the extractor invents nothing.  Every fact it emits comes from one
    period entry of a tag of the namespace us-gaap or dei of the document: it
    carries the document's identifier and company name (or 'Unknown
    Company'), that tag, the label of the tag data or else the preferred
    label of the tag or else the tag itself, the unit the entry is listed
    under, the dates, form and accession number of the entry, the URL built
    from identifier and accession number, and the [float] of its [val]. *)
Theorem extracted_fact_provenance (float_of_str : string -> option spec_float)
    (d : Parser.CompanyData) (facts : list Parser.CompanyFact) :
  Parser.extract_financial_facts float_of_str (Some d) = Ok facts ->
  Forall
    (fun f =>
       exists all_facts name ns tag_data unit_ entries entry,
         Parser.cd_facts d = Some all_facts /\
         (name = "us-gaap" \/ name = "dei") /\
         In (name, ns) all_facts /\
         In (Parser.tag f, tag_data) ns /\
         In (unit_, entries) (default [] (Parser.td_units tag_data)) /\
         In entry entries /\
         Parser.came_from float_of_str (Parser.cik_str (Parser.cd_cik d))
           (default "Unknown Company" (Parser.cd_entityName d)) (Parser.tag f)
           (default
              (dict_get_default Parser.key_financial_tags (Parser.tag f) (Parser.tag f))
              (Parser.td_label tag_data))
           (default "" (Parser.td_description tag_data)) unit_ entry f)
    facts.
Proof.
  unfold Parser.extract_financial_facts.
  destruct (Parser.cd_facts d) as [all_facts|];
    [|intros H; injection H as <-; constructor].
  destruct (Parser.process_namespace _ _ _ _ (dict_get_default all_facts "us-gaap" []))
    as [facts1|e] eqn:H1; cbn [bind]; [|discriminate].
  destruct (Parser.process_namespace _ _ _ _ (dict_get_default all_facts "dei" []))
    as [facts2|e] eqn:H2; cbn [bind]; [|discriminate].
  intros H. injection H as <-.
  apply process_namespace_came_from in H1, H2.
  apply Forall_app. split.
  - eapply Forall_impl; [exact H1|].
    intros f (td & u & entries & e & Hns & _ & Hu & He & Hf).
    destruct (dict_get_default_In float_of_str _ _ _ Hns) as (ns & Hns' & Htd).
    exists all_facts, "us-gaap", ns, td, u, entries, e.
    split; [reflexivity|]. split; [left; reflexivity|].
    split; [exact Hns'|]. split; [exact Htd|]. split; [exact Hu|].
    split; [exact He | exact Hf].
  - eapply Forall_impl; [exact H2|].
    intros f (td & u & entries & e & Hns & _ & Hu & He & Hf).
    destruct (dict_get_default_In float_of_str _ _ _ Hns) as (ns & Hns' & Htd).
    exists all_facts, "dei", ns, td, u, entries, e.
    split; [reflexivity|]. split; [right; reflexivity|].
    split; [exact Hns'|]. split; [exact Htd|]. split; [exact Hu|].
    split; [exact He | exact Hf].
Qed.

Lemma extracted_fact_provenance_witness :
  exists facts,
    Parser.extract_financial_facts Samples.decimal_float
      (Some Samples.apple_document) = Ok facts /\
    Forall (fun f => Parser.cik f = "320193" /\
                     Parser.company_name f = "Apple Inc." /\
                     Parser.sec_url f
                     = Parser._build_sec_url (Parser.cik f)
                         (Parser.accession_number f))
      facts.
Proof.
  eexists. split; [vm_compute; reflexivity|].
  pose proof (extracted_fact_provenance Samples.decimal_float
                Samples.apple_document _ eq_refl) as H.
  eapply Forall_impl; [exact H|].
  intros f (a & n & ns & td & u & es & e & _ & _ & _ & _ & _ & _ & Hf & _).
  rewrite Hf. simpl. auto.
Defined.

(** ** The filing URL *)

Lemma lstrip_zeros_zeros n s : lstrip_zeros (zeros n +:+ s) = lstrip_zeros s.
Proof.
  unfold zeros. induction n as [|n IH]; [reflexivity|].
  simpl repeat. simpl string_of_list_ascii.
  change (String "0" ?a +:+ s) with (String "0" (a +:+ s)). simpl. exact IH.
Qed.

Lemma append_empty a b : a +:+ b = "" -> b = "".
Proof.
  destruct a as [|c a]; [intros H; exact H|].
  change (String c a +:+ b) with (String c (a +:+ b)). discriminate.
Qed.

(** X5: the filing URL does not depend on how the identifier is padded: an
    identifier written with any number of leading zeros gives the URL of
    the identifier without them.  For an identifier that is not empty the
    URL is empty exactly when the accession number is. *)
Theorem _build_sec_url_ignores_padding (n : nat) (cik accession_number : string) :
  cik <> "" ->
  Parser._build_sec_url (zeros n +:+ cik) accession_number
  = Parser._build_sec_url cik accession_number /\
  (Parser._build_sec_url cik accession_number = "" <-> accession_number = "").
Proof.
  intros Hcik. unfold Parser._build_sec_url.
  assert (Hpad : String.eqb (zeros n +:+ cik) "" = false).
  { apply String.eqb_neq. intros H. apply Hcik. eapply append_empty, H. }
  assert (Hcik' : String.eqb cik "" = false) by (apply String.eqb_neq, Hcik).
  rewrite Hpad, Hcik', lstrip_zeros_zeros. simpl.
  split; [reflexivity|].
  destruct (String.eqb accession_number "") eqn:Hacc.
  - apply String.eqb_eq in Hacc. tauto.
  - apply String.eqb_neq in Hacc. split; [|tauto].
    intros H. discriminate H.
Qed.

Lemma _build_sec_url_ignores_padding_witness :
  Parser._build_sec_url "0000320193" "0000320193-23-000106"
  = Parser._build_sec_url "320193" "0000320193-23-000106".
Proof.
  apply (_build_sec_url_ignores_padding 4 "320193" "0000320193-23-000106").
  discriminate.
Defined.

(** ** Quarterly trends *)

Lemma StronglySorted_app_inv {A} (R : A -> A -> Prop) l1 l2 :
  StronglySorted R (l1 ++ l2) ->
  forall a b, In a l1 -> In b l2 -> R a b.
Proof.
  induction l1 as [|x l1 IH]; simpl; intros Hs a b Ha Hb; [contradiction|].
  inversion Hs as [|? ? Hs' Hx]; subst. destruct Ha as [<-|Ha].
  - rewrite List.Forall_forall in Hx. apply Hx, in_or_app. right. exact Hb.
  - eapply IH; eassumption.
Qed.

Lemma quarterly_order_total a b :
  Parser.quarterly_order a b = true \/ Parser.quarterly_order b a = true.
Proof.
  unfold Parser.quarterly_order.
  destruct (String.leb_total (Parser.end_date a) (Parser.end_date b)); auto.
Qed.

Lemma quarterly_order_trans a b c :
  Parser.quarterly_order a b = true -> Parser.quarterly_order b c = true ->
  Parser.quarterly_order a c = true.
Proof.
  unfold Parser.quarterly_order. intros H1 H2. eapply str_leb_trans; eassumption.
Qed.

(** X6: [get_quarterly_trends] returns quarterly (10-Q) facts of the tag
    asked for and nothing else, the latest period end first, at most
    [periods] of them and all of them when there are no more than that; the
    facts it leaves out end no later than any fact it returns. *)
Theorem get_quarterly_trends_latest_first (facts : list Parser.CompanyFact)
    (tag_ : string) (periods : Z) :
  let quarterly := List.filter (Parser.is_quarterly_for tag_) facts in
  let result := Parser.get_quarterly_trends facts tag_ periods in
  (forall f, In f result ->
     In f facts /\ Parser.tag f = tag_ /\ Parser.form_type f = "10-Q") /\
  StronglySorted
    (fun a b => String.leb (Parser.end_date b) (Parser.end_date a) = true) result /\
  (0 <= periods -> Z.of_nat (length result) <= periods) /\
  (Z.of_nat (length quarterly) <= periods -> Permutation result quarterly) /\
  exists left_out,
    Permutation (result ++ left_out) quarterly /\
    forall f g, In f result -> In g left_out ->
      String.leb (Parser.end_date g) (Parser.end_date f) = true.
Proof.
  intros quarterly result.
  set (sorted := stable_sort Parser.quarterly_order quarterly).
  assert (Hperm : Permutation sorted quarterly) by apply stable_sort_perm.
  assert (Hsorted : StronglySorted
                      (fun a b => Parser.quarterly_order a b = true) sorted).
  { apply stable_sort_sorted;
      [apply quarterly_order_total | apply quarterly_order_trans]. }
  destruct (head_firstn periods sorted) as [k Hk].
  assert (Hresult : result = firstn k sorted) by exact Hk.
  split; [|split; [|split; [|split]]].
  - intros f Hf. rewrite Hresult in Hf. apply firstn_In in Hf.
    apply (Permutation_in _ Hperm) in Hf.
    apply List.filter_In in Hf as [Hf Hq]. unfold Parser.is_quarterly_for in Hq.
    apply andb_true_iff in Hq as [Ht Hform].
    apply String.eqb_eq in Ht, Hform. auto.
  - rewrite Hresult. apply StronglySorted_firstn. exact Hsorted.
  - intros Hperiods. apply head_length, Hperiods.
  - intros Hfew. etrans; [|exact Hperm].
    assert (Hall : result = sorted).
    { subst result. unfold Parser.get_quarterly_trends. fold quarterly sorted.
      unfold head. destruct (periods <? 0) eqn:Hneg; [lia|].
      apply firstn_all2. rewrite (Permutation_length Hperm). lia. }
    rewrite Hall. reflexivity.
  - exists (skipn k sorted). split.
    + rewrite Hresult, firstn_skipn. exact Hperm.
    + intros f g Hf Hg. rewrite Hresult in Hf.
      rewrite <- (firstn_skipn k sorted) in Hsorted.
      exact (StronglySorted_app_inv _ _ _ Hsorted f g Hf Hg).
Qed.

(** ** The lookup of companies *)

Lemma upper_char_lower_char c : upper_char (lower_char c) = upper_char c.
Proof. destruct c as [[] [] [] [] [] [] [] []]; reflexivity. Qed.

Lemma upper_char_idem c : upper_char (upper_char c) = upper_char c.
Proof. destruct c as [[] [] [] [] [] [] [] []]; reflexivity. Qed.

Lemma upper_lower s : upper (lower s) = upper s.
Proof.
  induction s as [|c s IH]; simpl; [reflexivity|].
  rewrite upper_char_lower_char, IH. reflexivity.
Qed.

Lemma upper_idem s : upper (upper s) = upper s.
Proof.
  induction s as [|c s IH]; simpl; [reflexivity|].
  rewrite upper_char_idem, IH. reflexivity.
Qed.

Lemma dict_get_In {V} (d : list (string * V)) k v :
  dict_get d k = Some v -> In (k, v) d.
Proof.
  induction d as [|[k' v'] d IH]; simpl; [discriminate|].
  destruct (String.eqb k' k) eqn:Heq.
  - apply String.eqb_eq in Heq. intros H. injection H as ->. left. congruence.
  - intros H. right. apply IH, H.
Qed.

(** X7: the lookup of a company does not depend on the case of the ticker,
    [get_cik_by_ticker] gives the identifier of [get_company_info], and
    every identifier it gives has ten characters, so that the client sends
    it as it is. *)
Theorem company_lookup_ignores_case (ticker : string) :
  Parser.get_company_info (lower ticker) = Parser.get_company_info ticker /\
  Parser.get_company_info (upper ticker) = Parser.get_company_info ticker /\
  Parser.get_cik_by_ticker ticker = fst <$> Parser.get_company_info ticker /\
  forall cik, Parser.get_cik_by_ticker ticker = Some cik ->
    String.length cik = 10%nat /\
    Parser.company_facts_url cik
    = Parser.base_url +:+ "/companyfacts/CIK" +:+ cik +:+ ".json".
Proof.
  unfold Parser.get_company_info, Parser.get_cik_by_ticker.
  rewrite upper_lower, upper_idem.
  split; [reflexivity|]. split; [reflexivity|].
  split; [destruct (dict_get _ _); reflexivity|].
  intros cik Hcik.
  destruct (dict_get Parser.MAJOR_COMPANIES (upper ticker)) as [[c name]|] eqn:Hget;
    [|discriminate].
  injection Hcik as <-. apply dict_get_In in Hget.
  assert (Hlen : String.length c = 10%nat).
  { simpl in Hget.
    repeat (destruct Hget as [Hget|Hget]; [injection Hget as _ <- _; reflexivity|]).
    contradiction. }
  split; [exact Hlen|].
  unfold Parser.company_facts_url. rewrite zfill_long; [reflexivity|]. lia.
Qed.

(** ** The store: keys, ids and what a batch leaves behind *)

Section Grouping.
Import Db.

(** The facts of the groups, in the order they are written. *)
Local Abbreviation written groups :=
  (flat_map (fun g : string * (string * list Parser.CompanyFact) => snd (snd g))
     groups).

Local Abbreviation of_cik c :=
  (fun f : Parser.CompanyFact => String.eqb (Parser.cik f) c).

Lemma written_other_cik groups c :
  Forall (fun g => Forall (fun f => Parser.cik f = fst g) (snd (snd g))) groups ->
  ~ In c (map fst groups) ->
  List.filter (of_cik c) (written groups) = [].
Proof.
  intros Hall Hc. apply filter_all_false. intros f Hf.
  apply in_flat_map in Hf as (g & Hg & Hf).
  rewrite List.Forall_forall in Hall. specialize (Hall g Hg).
  rewrite List.Forall_forall in Hall. specialize (Hall f Hf).
  apply String.eqb_neq. intros Heq. apply Hc. apply in_map_iff.
  exists g. split; [congruence | exact Hg].
Qed.

Lemma group_add_keys groups f :
  map fst (group_add groups f)
  = if bool_decide (Parser.cik f ∈ map fst groups) then map fst groups
    else map fst groups ++ [Parser.cik f].
Proof.
  induction groups as [|[c [name fs]] groups IH]; cbn [group_add map fst].
  - rewrite bool_decide_eq_false_2; [reflexivity | apply not_elem_of_nil].
  - destruct (String.eqb c (Parser.cik f)) eqn:Heq; cbn [map fst].
    + apply String.eqb_eq in Heq. rewrite bool_decide_eq_true_2; [reflexivity|].
      apply elem_of_cons. left. congruence.
    + apply String.eqb_neq in Heq. rewrite IH.
      destruct (decide (Parser.cik f ∈ map fst groups)) as [Hin|Hin].
      * rewrite !bool_decide_eq_true_2; [reflexivity| |exact Hin].
        apply elem_of_cons. right. exact Hin.
      * rewrite !bool_decide_eq_false_2; [reflexivity| |exact Hin].
        rewrite elem_of_cons. intros [H|H]; [congruence | contradiction].
Qed.

Lemma group_add_well_grouped groups f :
  well_grouped groups -> well_grouped (group_add groups f).
Proof.
  intros [Hnodup Hall]. split.
  - rewrite group_add_keys. case_bool_decide as Hin; [exact Hnodup|].
    apply NoDup_app. split; [exact Hnodup|]. split.
    + intros c Hc Hc'. apply list_elem_of_singleton in Hc'. subst c.
      exact (Hin Hc).
    + apply NoDup_singleton.
  - clear Hnodup. induction groups as [|[c [name fs]] groups IH]; simpl.
    + repeat constructor.
    + inversion Hall as [|? ? Hg Hrest]; subst.
      destruct (String.eqb c (Parser.cik f)) eqn:Heq; constructor; simpl in *; auto.
      apply String.eqb_eq in Heq. apply Forall_app. split; [exact Hg|].
      repeat constructor. simpl. congruence.
Qed.

Lemma group_add_written groups f c :
  well_grouped groups ->
  List.filter (of_cik c) (written (group_add groups f))
  = List.filter (of_cik c) (written groups) ++ List.filter (of_cik c) [f].
Proof.
  intros [Hnodup Hall].
  induction groups as [|[c' [name fs]] groups IH]; simpl.
  - reflexivity.
  - inversion Hall as [|? ? Hg Hrest]; subst.
    apply NoDup_cons in Hnodup as [Hc' Hnodup].
    destruct (String.eqb c' (Parser.cik f)) eqn:Heq; simpl.
    + apply String.eqb_eq in Heq.
      rewrite <- app_assoc, !List.filter_app. simpl.
      destruct (String.eqb (Parser.cik f) c) eqn:Hfc; simpl.
      * apply String.eqb_eq in Hfc.
        rewrite (written_other_cik groups c Hrest), !app_nil_r; [reflexivity|].
        intros Hin. apply Hc', list_elem_of_In. simpl. rewrite Heq, Hfc.
        exact Hin.
      * rewrite !app_nil_r. reflexivity.
    + rewrite !List.filter_app, IH by assumption.
      rewrite app_assoc. reflexivity.
Qed.

(** Grouping by cik keeps the facts of every company in their order. *)
Lemma group_by_cik_written facts c :
  List.filter (of_cik c) (written (group_by_cik facts))
  = List.filter (of_cik c) facts.
Proof.
  unfold group_by_cik.
  assert (H : well_grouped (foldl group_add [] facts) /\
              List.filter (of_cik c) (written (foldl group_add [] facts))
              = List.filter (of_cik c) facts).
  { induction facts as [|f facts IH] using rev_ind.
    - split; [split; constructor | reflexivity].
    - rewrite foldl_app. simpl. destruct IH as [Hwell Heq]. split.
      + apply group_add_well_grouped, Hwell.
      + rewrite group_add_written by exact Hwell.
        rewrite Heq, List.filter_app. reflexivity. }
  apply H.
Qed.

Lemma group_by_cik_well_grouped facts : well_grouped (group_by_cik facts).
Proof.
  unfold group_by_cik. induction facts as [|f facts IH] using rev_ind.
  - split; constructor.
  - rewrite foldl_app. simpl. apply group_add_well_grouped, IH.
Qed.
End Grouping.

Section GroupingPermutation.
Import Db.

Lemma group_add_perm groups f :
  Permutation
    (flat_map (fun g : string * (string * list Parser.CompanyFact) => snd (snd g))
       (group_add groups f))
    (flat_map (fun g : string * (string * list Parser.CompanyFact) => snd (snd g))
       groups ++ [f]).
Proof.
  induction groups as [|[c [name fs]] groups IH]; simpl; [reflexivity|].
  destruct (String.eqb c (Parser.cik f)); simpl.
  - rewrite <- !app_assoc. apply Permutation_app_head, Permutation_app_comm.
  - rewrite IH, app_assoc. reflexivity.
Qed.

Lemma group_by_cik_perm facts :
  Permutation
    (flat_map (fun g : string * (string * list Parser.CompanyFact) => snd (snd g))
       (group_by_cik facts))
    facts.
Proof.
  unfold group_by_cik. induction facts as [|f facts IH] using rev_ind;
    [reflexivity|].
  rewrite foldl_app. simpl. rewrite group_add_perm, IH. reflexivity.
Qed.

Lemma group_by_cik_keys facts c :
  In c (map fst (group_by_cik facts)) <-> In c (map Parser.cik facts).
Proof.
  unfold group_by_cik. induction facts as [|f facts IH] using rev_ind;
    [reflexivity|].
  rewrite foldl_app. simpl. rewrite group_add_keys, map_app, in_app_iff. simpl.
  case_bool_decide as Hin.
  - rewrite IH. split; [tauto|]. intros [H|[<-|[]]]; [exact H|].
    apply IH, list_elem_of_In, Hin.
  - rewrite in_app_iff, IH. simpl. reflexivity.
Qed.
End GroupingPermutation.

Section UpsertKeys.
Context {A K : Type} `{EqDecision K} (key : A -> K).

Local Abbreviation upsert := (Db.insert_or_replace key).

Lemma insert_or_replace_NoDup table x :
  NoDup (map key table) -> NoDup (map key (upsert table x)).
Proof.
  intros Hnodup. unfold Db.insert_or_replace. rewrite map_app. simpl.
  apply NoDup_app. split; [|split].
  - induction table as [|y table IH]; simpl; [constructor|].
    simpl in Hnodup. apply NoDup_cons in Hnodup as [Hy Hnodup].
    destruct (negb _); [|apply IH, Hnodup].
    simpl. constructor; [|apply IH, Hnodup].
    intros Hin. apply Hy. apply list_elem_of_In. apply list_elem_of_In in Hin.
    apply in_map_iff in Hin as (z & Hz & Hin). apply List.filter_In in Hin as [Hin _].
    apply in_map_iff. eauto.
  - intros k Hk Hx. apply list_elem_of_singleton in Hx. subst k.
    apply list_elem_of_In, in_map_iff in Hk as (z & Hz & Hin).
    apply List.filter_In in Hin as [_ Hne].
    rewrite bool_decide_eq_true_2 in Hne by exact Hz. discriminate.
  - apply NoDup_singleton.
Qed.

Lemma foldl_upsert_NoDup table xs :
  NoDup (map key table) -> NoDup (map key (foldl upsert table xs)).
Proof.
  revert table. induction xs as [|x xs IH]; intros table Hnodup; simpl;
    [exact Hnodup|].
  apply IH, insert_or_replace_NoDup, Hnodup.
Qed.

Lemma foldl_upsert_In xs r : In r (foldl upsert [] xs) -> In r xs.
Proof.
  revert r. induction xs as [|x xs IH] using rev_ind; intros r; simpl; [tauto|].
  rewrite foldl_app. simpl. unfold Db.insert_or_replace at 1.
  intros [Hr|[<-|[]]]%in_app_or; apply in_or_app.
  - apply List.filter_In in Hr as [Hr _]. left. apply IH, Hr.
  - right. left. reflexivity.
Qed.

(** Of the rows written under one key the last one stays. *)
Lemma foldl_upsert_last xs x :
  In x xs ->
  exists y,
    last (List.filter (fun z => bool_decide (key z = key x)) xs) = Some y /\
    In y (foldl upsert [] xs).
Proof.
  induction xs as [|a xs IH] using rev_ind; [intros []|].
  rewrite foldl_app, List.filter_app. simpl. unfold Db.insert_or_replace at 1.
  intros Hx. destruct (decide (key a = key x)) as [Heq|Hne].
  - rewrite (bool_decide_eq_true_2 _ Heq). exists a. split.
    + apply last_snoc.
    + apply in_or_app. right. left. reflexivity.
  - rewrite (bool_decide_eq_false_2 _ Hne), app_nil_r.
    apply in_app_or in Hx as [Hx|[->|[]]]; [|contradiction].
    destruct (IH Hx) as (y & Hlast & Hy). exists y. split; [exact Hlast|].
    apply in_or_app. left. apply List.filter_In. split; [exact Hy|].
    apply last_Some in Hlast as (l' & Hl').
    assert (Hin : In y (List.filter (fun z => bool_decide (key z = key x)) xs)).
    { rewrite Hl'. apply in_or_app. right. left. reflexivity. }
    apply List.filter_In in Hin as [_ Hkey]. apply bool_decide_eq_true in Hkey.
    rewrite bool_decide_eq_false_2; [reflexivity|]. congruence.
Qed.
End UpsertKeys.

Section StoreInvariants.
Import Db.
Variables (now : Timestamp) (update_company_info : bool).

Local Abbreviation written groups :=
  (flat_map (fun g : string * (string * list Parser.CompanyFact) => snd (snd g))
     groups).

Lemma fact_rows_store_company_facts facts st :
  fact_rows (store_company_facts now facts update_company_info st)
  = foldl (insert_or_replace natural_key) (fact_rows st)
      (map fact_data (written (group_by_cik facts))).
Proof.
  unfold store_company_facts. destruct facts as [|f facts]; [reflexivity|].
  apply fact_rows_store_groups.
Qed.

Lemma company_rows_store_company_facts facts st :
  company_rows (store_company_facts now facts update_company_info st)
  = if update_company_info
    then foldl (insert_or_replace company_cik) (company_rows st)
           (map group_info (group_by_cik facts))
    else company_rows st.
Proof.
  unfold store_company_facts. destruct facts as [|f facts].
  - destruct update_company_info; reflexivity.
  - apply company_rows_store_groups.
Qed.

Lemma written_In facts f :
  In f (written (group_by_cik facts)) <-> In f facts.
Proof.
  split; apply Permutation_in; [|symmetry]; apply group_by_cik_perm.
Qed.

(** The rows one [INSERT OR REPLACE INTO financial_facts] leaves. *)
Lemma replace_fact_ids fact st :
  ids_in_order st ->
  ids_in_order (replace_fact now fact st) /\
  fact_sequence (replace_fact now fact st) = fact_sequence st + 1 /\
  forall row, In row (financial_facts (replace_fact now fact st)) ->
    In row (financial_facts st) \/
    row = mkFactRow (fact_sequence st + 1) (fact_data fact) now now.
Proof.
  intros [Hsorted Hbound]. unfold replace_fact, insert_or_replace. simpl.
  split; [split|split; [reflexivity|]]; simpl.
  - rewrite map_app. simpl.
    assert (Hkept : forall rows,
              StronglySorted Z.lt (map id rows) ->
              Forall (fun row => id row <= fact_sequence st) rows ->
              StronglySorted Z.lt
                (map id (List.filter
                           (fun r => negb (bool_decide
                              (natural_key (data r) = natural_key (fact_data fact))))
                           rows) ++ [fact_sequence st + 1])).
    { induction rows as [|r rows IH]; simpl; intros Hs Hb.
      - repeat constructor.
      - inversion Hs as [|? ? Hs' Hr]; subst. inversion Hb as [|? ? Hb1 Hb']; subst.
        destruct (negb _); [|apply IH; assumption].
        simpl. constructor; [apply IH; assumption|].
        apply Forall_app. split.
        + rewrite List.Forall_forall in *. intros z Hz. apply Hr.
          apply in_map_iff in Hz as (y & <- & Hy).
          apply List.filter_In in Hy as [Hy _]. apply in_map, Hy.
        + repeat constructor. lia. }
    apply Hkept; assumption.
  - apply Forall_app. split.
    + rewrite List.Forall_forall in *. intros row Hrow.
      apply List.filter_In in Hrow as [Hrow _]. specialize (Hbound row Hrow). lia.
    + repeat constructor. simpl. lia.
  - intros row [Hrow|[<-|[]]]%in_app_or; [left|right; reflexivity].
    apply List.filter_In in Hrow as [Hrow _]. exact Hrow.
Qed.

Lemma replace_facts_ids facts : forall st,
  ids_in_order st ->
  let st' := foldl (fun st fact => replace_fact now fact st) st facts in
  ids_in_order st' /\
  fact_sequence st' = fact_sequence st + Z.of_nat (length facts) /\
  forall row, In row (financial_facts st') ->
    In row (financial_facts st) \/
    (fact_sequence st < id row /\ created_at row = now /\ updated_at row = now /\
     exists fact, In fact facts /\ data row = fact_data fact).
Proof.
  induction facts as [|fact facts IH]; intros st Hst; simpl.
  - split; [exact Hst|]. split; [lia|]. auto.
  - destruct (replace_fact_ids fact st Hst) as (Hst1 & Hseq1 & Hrows1).
    destruct (IH _ Hst1) as (Hst' & Hseq' & Hrows').
    split; [exact Hst'|]. split; [rewrite Hseq', Hseq1; lia|].
    intros row Hrow. destruct (Hrows' row Hrow) as [Hold|(Hid & Hc & Hu & f & Hf & Hd)].
    + destruct (Hrows1 row Hold) as [Hst0| ->]; [left; exact Hst0|].
      right. simpl. repeat split; try lia. exists fact. auto.
    + right. repeat split; try assumption; [lia|]. exists f. auto.
Qed.

Lemma store_groups_ids groups : forall st,
  ids_in_order st ->
  let st' := foldl (store_group now update_company_info) st groups in
  ids_in_order st' /\
  fact_sequence st' = fact_sequence st + Z.of_nat (length (written groups)) /\
  forall row, In row (financial_facts st') ->
    In row (financial_facts st) \/
    (fact_sequence st < id row /\ created_at row = now /\ updated_at row = now /\
     exists fact, In fact (written groups) /\ data row = fact_data fact).
Proof.
  induction groups as [|[c [name facts]] groups IH]; intros st Hst; simpl.
  - split; [exact Hst|]. split; [lia|]. auto.
  - set (st0 := if update_company_info then replace_company now c name st else st).
    assert (Hst0 : ids_in_order st0 /\ fact_sequence st0 = fact_sequence st /\
                   financial_facts st0 = financial_facts st).
    { subst st0. destruct update_company_info; auto. }
    destruct Hst0 as (Hst0 & Hseq0 & Hrows0).
    destruct (replace_facts_ids facts st0 Hst0) as (Hst1 & Hseq1 & Hrows1).
    destruct (IH _ Hst1) as (Hst' & Hseq' & Hrows').
    split; [exact Hst'|].
    split; [rewrite Hseq', Hseq1, Hseq0, length_app; lia|].
    intros row Hrow.
    destruct (Hrows' row Hrow) as [Hold|(Hid & Hc & Hu & f & Hf & Hd)].
    + destruct (Hrows1 row Hold) as [H0|(Hid & Hc & Hu & f & Hf & Hd)].
      * left. rewrite <- Hrows0. exact H0.
      * right. repeat split; try assumption; [lia|].
        exists f. split; [apply in_or_app; left; exact Hf | exact Hd].
    + right. repeat split; try assumption; [lia|].
      exists f. split; [apply in_or_app; right; exact Hf | exact Hd].
Qed.
End StoreInvariants.

(** X8: the store never holds two facts with the same natural key (cik, tag,
    end date, form type, accession number) nor two companies with the same
    cik: a store of any batch keeps both tables free of duplicates. *)
Theorem store_company_facts_keeps_keys_unique (now : Db.Timestamp)
    (facts : list Parser.CompanyFact) (update_company_info : bool) (st : Db.Store) :
  NoDup (map Db.natural_key (Db.fact_rows st)) ->
  NoDup (map Db.company_cik (Db.company_rows st)) ->
  let st' := Db.store_company_facts now facts update_company_info st in
  NoDup (map Db.natural_key (Db.fact_rows st')) /\
  NoDup (map Db.company_cik (Db.company_rows st')).
Proof.
  intros Hfacts Hcompanies st'. subst st'. split.
  - rewrite fact_rows_store_company_facts. apply foldl_upsert_NoDup, Hfacts.
  - rewrite company_rows_store_company_facts.
    destruct update_company_info; [|exact Hcompanies].
    apply foldl_upsert_NoDup, Hcompanies.
Qed.

Lemma store_company_facts_keeps_keys_unique_witness :
  NoDup (map Db.natural_key
           (Db.fact_rows
              (Db.store_company_facts 100
                 [Samples.tie_first; Samples.tie_second; Samples.tie_first] true
                 Db.empty_store))).
Proof.
  apply (store_company_facts_keeps_keys_unique 100
           [Samples.tie_first; Samples.tie_second; Samples.tie_first] true
           Db.empty_store); constructor.
Defined.

(** X9: row ids are handed out once.  When the ids of [financial_facts]
    rise with the rowid and lie within the AUTOINCREMENT counter, they still
    do after a store; the counter has moved on by the number of facts of the
    batch, and every row that was not there before has an id beyond the old
    counter, the timestamps of this store and the data of a fact of the
    batch. *)
Theorem store_company_facts_fresh_ids (now : Db.Timestamp)
    (facts : list Parser.CompanyFact) (update_company_info : bool) (st : Db.Store) :
  Db.ids_in_order st ->
  let st' := Db.store_company_facts now facts update_company_info st in
  Db.ids_in_order st' /\
  Db.fact_sequence st' = Db.fact_sequence st + Z.of_nat (length facts) /\
  forall row, In row (Db.financial_facts st') ->
    In row (Db.financial_facts st) \/
    (Db.fact_sequence st < Db.id row /\
     Db.created_at row = now /\ Db.updated_at row = now /\
     exists fact, In fact facts /\ Db.data row = Db.fact_data fact).
Proof.
  intros Hst st'. subst st'. unfold Db.store_company_facts.
  destruct facts as [|f facts]; [simpl; split; [exact Hst|split; [lia|auto]]|].
  destruct (store_groups_ids now update_company_info
              (Db.group_by_cik (f :: facts)) st Hst) as (Hst' & Hseq & Hrows).
  split; [exact Hst'|]. split.
  - rewrite Hseq. rewrite (Permutation_length (group_by_cik_perm (f :: facts))).
    reflexivity.
  - intros row Hrow. destruct (Hrows row Hrow) as [H|(Hid & Hc & Hu & g & Hg & Hd)];
      [left; exact H|].
    right. repeat split; try assumption. exists g. split; [|exact Hd].
    apply (Permutation_in _ (group_by_cik_perm (f :: facts))), Hg.
Qed.

Lemma store_company_facts_fresh_ids_witness :
  Db.ids_in_order Db.empty_store /\
  Db.fact_sequence
    (Db.store_company_facts 100 [Samples.tie_first; Samples.tie_second] true
       Db.empty_store) = 2.
Proof.
  assert (H : Db.ids_in_order Db.empty_store) by (split; constructor).
  split; [exact H|].
  apply (store_company_facts_fresh_ids 100 [Samples.tie_first; Samples.tie_second]
           true Db.empty_store H).
Defined.

Section LastWrite.
Import Db.

Local Abbreviation same_key fact :=
  (fun g : Parser.CompanyFact =>
     bool_decide (natural_key (fact_data g) = natural_key (fact_data fact))).

(** Facts with one natural key have one cik, so grouping by cik keeps their
    order. *)
Lemma group_by_cik_same_key facts fact :
  List.filter (same_key fact)
    (flat_map (fun g : string * (string * list Parser.CompanyFact) => snd (snd g))
       (group_by_cik facts))
  = List.filter (same_key fact) facts.
Proof.
  assert (Hnarrow : forall l,
            List.filter (same_key fact) l
            = List.filter (same_key fact)
                (List.filter
                   (fun f => String.eqb (Parser.cik f) (Parser.cik fact)) l)).
  { intros l. rewrite filter_twice. apply List.filter_ext. intros g.
    rewrite bool_decide_decide.
    destruct (decide (natural_key (fact_data g) = natural_key (fact_data fact)))
      as [Heq|Hne]; [|rewrite andb_false_r; reflexivity].
    unfold natural_key in Heq. simpl in Heq.
    assert (Hcik : Parser.cik g = Parser.cik fact) by congruence.
    rewrite Hcik, String.eqb_refl. reflexivity. }
  rewrite Hnarrow, group_by_cik_written, <- Hnarrow. reflexivity.
Qed.

Lemma last_map {A B} (f : A -> B) (l : list A) :
  last (map f l) = option_map f (last l).
Proof.
  induction l as [|x [|y l] IH]; try reflexivity.
  change (last (map f (y :: l)) = option_map f (last (y :: l))). exact IH.
Qed.
End LastWrite.

Section Winner.
Import Db.

(** The data of the last fact of every key is in the table after a store. *)
Lemma store_company_facts_winner now facts update_company_info st fact :
  In fact facts ->
  exists winner,
    last (List.filter
            (fun g => bool_decide (natural_key (fact_data g)
                                   = natural_key (fact_data fact)))
            facts) = Some winner /\
    In (fact_data winner)
      (fact_rows (store_company_facts now facts update_company_info st)).
Proof.
  intros Hfact. rewrite fact_rows_store_company_facts, foldl_upsert_split.
  set (written := flat_map _ (group_by_cik facts)).
  destruct (foldl_upsert_last natural_key (map fact_data written)
              (fact_data fact)) as (y & Hlast & Hy).
  { apply in_map, written_In, Hfact. }
  rewrite <- (filter_map_commute fact_data
                (fun g => bool_decide (natural_key (fact_data g)
                                       = natural_key (fact_data fact))))
    in Hlast by reflexivity.
  rewrite last_map in Hlast. subst written.
  rewrite group_by_cik_same_key in Hlast.
  destruct (last _) as [winner|]; [|discriminate].
  injection Hlast as <-. exists winner. split; [reflexivity|].
  apply in_or_app. right. exact Hy.
Qed.

(** After a store that updates the company information the companies of
    the batch have the columns of a fresh row. *)
Lemma store_company_facts_company_reset now facts st c :
  In c (company_rows (store_company_facts now facts true st)) ->
  In (company_cik c) (batch_ciks facts) ->
  company_ticker c = None /\ company_data_source c = Some "SEC_EDGAR".
Proof.
  intros Hc Hbatch.
  rewrite company_rows_store_company_facts, foldl_upsert_split in Hc.
  apply in_app_or in Hc as [Hc|Hc].
  - exfalso. apply List.filter_In in Hc as [_ Hc].
    apply negb_true_iff, bool_decide_eq_false in Hc. apply Hc.
    apply list_elem_of_In. rewrite map_map. simpl.
    apply group_by_cik_keys. exact Hbatch.
  - apply foldl_upsert_In in Hc. apply in_map_iff in Hc as (g & <- & _).
    split; reflexivity.
Qed.

(** The trend query with a filter on tickers returns no row of a company
    without ticker. *)
Lemma get_trend_data_needs_ticker st tag_ ticker tickers form_types periods r :
  In r (get_trend_data st tag_ (Some (ticker :: tickers)) form_types periods) ->
  exists c, In c (company_rows st) /\ company_cik c = trend_cik r /\
            company_ticker c <> None.
Proof.
  intros Hr.
  destruct (get_trend_data_prefix st tag_ (Some (ticker :: tickers)) form_types
              periods) as [k Hk].
  rewrite Hk in Hr. apply firstn_In in Hr.
  eapply Permutation_in in Hr; [|apply stable_sort_perm].
  apply trend_selected_In in Hr as (f & c & _ & Hc & Hcik & Hmatch & ->).
  exists (info c). split; [apply in_map, Hc|]. split; [symmetry; exact Hcik|].
  intros Hticker. unfold trend_matches in Hmatch. simpl in Hmatch.
  rewrite Hticker in Hmatch. simpl in Hmatch.
  rewrite andb_false_r in Hmatch. discriminate.
Qed.
End Winner.


(** X11: [INSERT OR REPLACE INTO companies (cik, name, last_updated)] resets
    the columns it does not name.  After a store that updates the company
    information, every company of the batch has no ticker, so the trend query
    with a filter on tickers returns no row of a company of the batch. *)
Theorem store_company_facts_resets_ticker (now : Db.Timestamp)
    (facts : list Parser.CompanyFact) (st : Db.Store) :
  let st' := Db.store_company_facts now facts true st in
  (forall c, In c (Db.company_rows st') ->
     In (Db.company_cik c) (Db.batch_ciks facts) ->
     Db.company_ticker c = None /\ Db.company_data_source c = Some "SEC_EDGAR") /\
  (forall tag_ ticker tickers form_types periods r,
     In r (Db.get_trend_data st' tag_ (Some (ticker :: tickers)) form_types periods) ->
     ~ In (Db.trend_cik r) (Db.batch_ciks facts)).
Proof.
  intros st'. split.
  - intros c. apply store_company_facts_company_reset.
  - intros tag_ ticker tickers form_types periods r Hr Hbatch.
    apply get_trend_data_needs_ticker in Hr as (c & Hc & Hcik & Hticker).
    rewrite <- Hcik in Hbatch.
    destruct (store_company_facts_company_reset now facts st c Hc Hbatch)
      as [Hnone _].
    contradiction.
Qed.

Section FiscalYear.

Lemma digit_value_spec c v :
  digit_value c = Some v ->
  is_space c = false /\ 0 <= v <= 9 /\
  Ascii.eqb c "+" = false /\ Ascii.eqb c "-" = false.
Proof.
  destruct c as [[] [] [] [] [] [] [] []]; vm_compute; intros H;
    try discriminate H; injection H as <-;
    repeat split; try reflexivity; discriminate.
Qed.

Lemma lstrip_spaces_length s : (length (lstrip_spaces s) <= length s)%nat.
Proof.
  induction s as [|c s IH]; simpl; [lia|]. destruct (is_space c); simpl; lia.
Qed.

Lemma strip_length s : (length (strip s) <= length s)%nat.
Proof.
  unfold strip. rewrite length_rev.
  etransitivity; [apply lstrip_spaces_length|]. rewrite length_rev.
  apply lstrip_spaces_length.
Qed.

Lemma digit_value_range c v : digit_value c = Some v -> 0 <= v <= 9.
Proof.
  unfold digit_value. destruct (_ && _)%bool eqn:H; [|discriminate].
  intros [= <-]. apply andb_true_iff in H as [H1 H2].
  apply N.leb_le in H1, H2. lia.
Qed.

(** [n] characters hold a number below [10 ^ n]. *)
Lemma int_digits_bound s : forall acc after_digit y,
  0 <= acc ->
  int_digits acc after_digit s = Some y ->
  0 <= y < (acc + 1) * 10 ^ Z.of_nat (length s).
Proof.
  induction s as [|c s IH]; intros acc after_digit y Hacc; simpl int_digits.
  - destruct after_digit; [|discriminate]. intros [= <-]. simpl. lia.
  - assert (Hpow : 10 ^ Z.of_nat (length (c :: s)) = 10 * 10 ^ Z.of_nat (length s)).
    { cbn [length]. rewrite Nat2Z.inj_succ, Z.pow_succ_r by lia. reflexivity. }
    assert (Hpos : 0 < 10 ^ Z.of_nat (length s)) by (apply Z.pow_pos_nonneg; lia).
    destruct (digit_value c) as [d|] eqn:Hd.
    + apply digit_value_range in Hd. intros Hy. apply IH in Hy; [|lia].
      rewrite Hpow. nia.
    + destruct (Ascii.eqb c "_" && after_digit); [|discriminate].
      destruct s as [|c' s']; [discriminate|].
      intros Hy. apply IH in Hy; [|lia]. rewrite Hpow. nia.
Qed.

Lemma str_take_length n s : (length (list_ascii_of_string (str_take n s)) <= n)%nat.
Proof.
  unfold str_take. revert s. induction n as [|n IH]; intros s.
  - destruct s; simpl; lia.
  - destruct s as [|c s]; simpl; [lia|]. specialize (IH s). lia.
Qed.

Lemma int_of_str_bound s y :
  (length (list_ascii_of_string s) <= 4)%nat ->
  int_of_str s = Some y -> -999 <= y <= 9999.
Proof.
  unfold int_of_str. pose proof (strip_length (list_ascii_of_string s)) as Hstrip.
  intros Hlen. destruct (strip (list_ascii_of_string s)) as [|c ds] eqn:Hs.
  - discriminate.
  - assert (Hds : (length ds <= 3)%nat) by (simpl in Hstrip; lia).
    assert (Hpow3 : forall n, (n <= 3)%nat -> 10 ^ Z.of_nat n <= 1000).
    { intros n Hn. change 1000 with (10 ^ 3).
      apply Z.pow_le_mono_r; lia. }
    assert (Hplain : int_digits 0 false (c :: ds) = Some y -> -999 <= y <= 9999).
    { intros Hy. apply int_digits_bound in Hy; [|lia].
      assert (10 ^ Z.of_nat (length (c :: ds)) <= 10000).
      { change 10000 with (10 ^ 4). apply Z.pow_le_mono_r; simpl in *; lia. }
      lia. }
    assert (Hsigned : forall z, int_digits 0 false ds = Some z -> 0 <= z <= 999).
    { intros z Hz. apply int_digits_bound in Hz; [|lia].
      specialize (Hpow3 _ Hds). lia. }
    destruct c as [[] [] [] [] [] [] [] []]; try exact Hplain.
    + intros Hy. apply Hsigned in Hy. lia.
    + destruct (int_digits 0 false ds) as [z|] eqn:Hz; [|discriminate].
      intros [= <-]. specialize (Hsigned z eq_refl). lia.
Qed.
End FiscalYear.

(** X12: the fiscal year of a stored fact is read off the first four
    characters of its end date.  A date that starts with four digits gives
    the number they spell, whatever follows them; an empty date gives NULL;
    and whatever the date is, the year stored is NULL or lies between -999
    and 9999. *)
Theorem fiscal_year_of_reads_the_year :
  (forall d1 d2 d3 d4 v1 v2 v3 v4 rest,
     digit_value d1 = Some v1 -> digit_value d2 = Some v2 ->
     digit_value d3 = Some v3 -> digit_value d4 = Some v4 ->
     Db.fiscal_year_of (String d1 (String d2 (String d3 (String d4 rest))))
     = Some (1000 * v1 + 100 * v2 + 10 * v3 + v4)) /\
  Db.fiscal_year_of "" = None /\
  (forall end_date year,
     Db.fiscal_year_of end_date = Some year -> -999 <= year <= 9999).
Proof.
  split; [|split; [reflexivity|]].
  - intros d1 d2 d3 d4 v1 v2 v3 v4 rest H1 H2 H3 H4.
    destruct (digit_value_spec _ _ H1) as (Hs1 & _ & Hplus & Hminus).
    destruct (digit_value_spec _ _ H4) as (Hs4 & _ & _ & _).
    unfold Db.fiscal_year_of.
    replace (str_take 4 (String d1 (String d2 (String d3 (String d4 rest)))))
      with (String d1 (String d2 (String d3 (String d4 EmptyString))))
      by (unfold str_take; simpl; destruct rest; reflexivity).
    cbn [String.eqb]. unfold int_of_str, strip.
    cbn [list_ascii_of_string lstrip_spaces]. rewrite Hs1.
    cbn [rev app lstrip_spaces]. rewrite Hs4. cbn [rev app].
    assert (Hdigits : int_digits 0 false [d1; d2; d3; d4]
                      = Some (1000 * v1 + 100 * v2 + 10 * v3 + v4)).
    { cbn [int_digits]. rewrite H1, H2, H3, H4. f_equal. lia. }
    destruct d1 as [[] [] [] [] [] [] [] []]; try exact Hdigits; discriminate.
  - intros end_date year. unfold Db.fiscal_year_of.
    destruct (String.eqb end_date ""); [discriminate|].
    apply int_of_str_bound, str_take_length.
Qed.

Section Like.

Local Abbreviation chars := list_ascii_of_string.

(** Two runs of characters that LIKE takes for the same. *)
Local Abbreviation same_letters p t := (map lower_char p = map lower_char t).

Local Abbreviation literal q :=
  (Forall (fun c : ascii => c <> "%"%char /\ c <> "_"%char) q).

Lemma chars_app a b : chars (a +:+ b) = chars a ++ chars b.
Proof. induction a as [|c a IH]; simpl; [reflexivity|]. rewrite IH. reflexivity. Qed.

Lemma chars_lower s : chars (lower s) = map lower_char (chars s).
Proof. induction s as [|c s IH]; simpl; [reflexivity|]. rewrite IH. reflexivity. Qed.

Lemma lower_char_idem c : lower_char (lower_char c) = lower_char c.
Proof. destruct c as [[] [] [] [] [] [] [] []]; reflexivity. Qed.

Lemma lower_char_literal c :
  c <> "%"%char /\ c <> "_"%char ->
  lower_char c <> "%"%char /\ lower_char c <> "_"%char.
Proof.
  destruct c as [[] [] [] [] [] [] [] []]; vm_compute; intros [H1 H2]; split;
    congruence.
Qed.

Lemma lower_idem s : lower (lower s) = lower s.
Proof.
  induction s as [|c s IH]; simpl; [reflexivity|].
  rewrite lower_char_idem, IH. reflexivity.
Qed.

Lemma like_chars_percent p t :
  like_chars ("%"%char :: p) t
  = like_chars p t
    || match t with
       | [] => false
       | _ :: t' => like_chars ("%"%char :: p) t'
       end.
Proof. destruct t; reflexivity. Qed.

Lemma like_chars_char c p t :
  Ascii.eqb c "%" = false ->
  like_chars (c :: p) t
  = match t with
    | [] => false
    | d :: t' =>
        (Ascii.eqb c "_" || Ascii.eqb (lower_char c) (lower_char d))
        && like_chars p t'
    end.
Proof. intros Hc. cbn [like_chars]. rewrite Hc. reflexivity. Qed.

Lemma like_chars_rest t : like_chars ["%"%char] t = true.
Proof.
  induction t as [|c t IH]; rewrite like_chars_percent; [reflexivity|].
  rewrite IH. apply orb_true_r.
Qed.

Lemma like_chars_skip p pre t :
  like_chars ("%"%char :: p) t = true ->
  like_chars ("%"%char :: p) (pre ++ t) = true.
Proof.
  intros Ht. induction pre as [|c pre IH]; [exact Ht|].
  simpl app. rewrite like_chars_percent, IH. apply orb_true_r.
Qed.

(** A pattern is found at the head of every text that starts with its
    letters, wild cards of the pattern included. *)
Lemma like_chars_prefix p : forall t rest,
  same_letters p t -> like_chars (p ++ ["%"%char]) (t ++ rest) = true.
Proof.
  induction p as [|c p IH]; intros [|d t] rest Hsame; try discriminate.
  - apply like_chars_rest.
  - injection Hsame as Hcd Hsame. simpl app.
    destruct (Ascii.eqb c "%") eqn:Hc.
    + apply Ascii.eqb_eq in Hc. subst c.
      rewrite like_chars_percent.
      rewrite (like_chars_percent _ (t ++ rest)), (IH t rest Hsame).
      apply orb_true_r.
    + rewrite like_chars_char by exact Hc. rewrite Hcd, Ascii.eqb_refl, orb_true_r.
      apply IH, Hsame.
Qed.

Lemma like_chars_prefix_inv p : forall t,
  literal p ->
  like_chars (p ++ ["%"%char]) t = true ->
  exists t1 rest, t = t1 ++ rest /\ same_letters p t1.
Proof.
  induction p as [|c p IH]; intros t Hlit Hlike.
  - exists [], t. split; reflexivity.
  - inversion Hlit as [|? ? [Hc1 Hc2] Hlit']; subst.
    simpl app in Hlike. rewrite like_chars_char in Hlike
      by (apply Ascii.eqb_neq; exact Hc1).
    destruct t as [|d t]; [discriminate|].
    apply andb_true_iff in Hlike as [Hcd Hlike].
    apply orb_true_iff in Hcd as [Hcd|Hcd];
      [apply Ascii.eqb_eq in Hcd; contradiction|].
    apply Ascii.eqb_eq in Hcd.
    destruct (IH t Hlit' Hlike) as (t1 & rest & -> & Hsame).
    exists (d :: t1), rest. split; [reflexivity|]. simpl. rewrite Hcd, Hsame.
    reflexivity.
Qed.

Lemma like_chars_infix_inv p t :
  literal p ->
  like_chars ("%"%char :: p ++ ["%"%char]) t = true ->
  exists pre t1 rest, t = pre ++ t1 ++ rest /\ same_letters p t1.
Proof.
  intros Hlit. induction t as [|d t IH]; rewrite like_chars_percent; intros Hlike.
  - rewrite orb_false_r in Hlike.
    destruct (like_chars_prefix_inv p [] Hlit Hlike) as (t1 & rest & Ht & Hsame).
    exists [], t1, rest. auto.
  - apply orb_true_iff in Hlike as [Hlike|Hlike].
    + destruct (like_chars_prefix_inv p _ Hlit Hlike) as (t1 & rest & Ht & Hsame).
      exists [], t1, rest. auto.
    + destruct (IH Hlike) as (pre & t1 & rest & -> & Hsame).
      exists (d :: pre), t1, rest. auto.
Qed.

Lemma prefix_chars a : forall b,
  String.prefix a b = true <-> exists rest, chars b = chars a ++ rest.
Proof.
  induction a as [|c a IH]; intros b; simpl.
  - split; [intros _; exists (chars b); reflexivity|].
    intros _. destruct b; reflexivity.
  - destruct b as [|d b]; simpl.
    + split; [discriminate | intros [rest H]; discriminate].
    + destruct (ascii_dec c d) as [->|Hne].
      * rewrite IH. split; intros [rest H]; exists rest; congruence.
      * split; [discriminate | intros [rest H]; congruence].
Qed.

Lemma str_contains_chars a b :
  str_contains a b = true <-> exists pre rest, chars b = pre ++ chars a ++ rest.
Proof.
  induction b as [|d b IH]; cbn [str_contains].
  - rewrite orb_false_r, prefix_chars. split.
    + intros [rest H]. exists [], rest. exact H.
    + intros (pre & rest & H). destruct pre; [exists rest; exact H | discriminate].
  - rewrite orb_true_iff, prefix_chars, IH. split.
    + intros [[rest H]|(pre & rest & H)].
      * exists [], rest. exact H.
      * exists (d :: pre), rest. simpl. rewrite H. reflexivity.
    + intros (pre & rest & H). destruct pre as [|e pre].
      * left. exists rest. exact H.
      * right. exists pre, rest. simpl in H. congruence.
Qed.

(** [text LIKE '%q%'] finds every text in which [q] occurs, letters of
    ASCII compared without regard to case; when [q] has no wild card of its
    own it finds nothing else. *)
Lemma sql_like_contains q text :
  (str_contains (lower q) (lower text) = true ->
   sql_like (Some text) ("%" +:+ q +:+ "%") = true) /\
  (Forall (fun c : ascii => c <> "%"%char /\ c <> "_"%char) (chars q) ->
   sql_like (Some text) ("%" +:+ q +:+ "%") = true ->
   str_contains (lower q) (lower text) = true).
Proof.
  unfold sql_like. rewrite !chars_app. change (chars "%") with ["%"%char].
  simpl app. rewrite str_contains_chars, !chars_lower. split.
  - intros (pre & rest & H).
    apply map_eq_app in H as (pre' & tail & Htext & _ & H).
    apply map_eq_app in H as (t1 & rest' & -> & Hsame & _).
    rewrite Htext. apply like_chars_skip.
    rewrite like_chars_percent, like_chars_prefix; [reflexivity|].
    symmetry. exact Hsame.
  - intros Hlit Hlike.
    destruct (like_chars_infix_inv _ _ Hlit Hlike) as (pre & t1 & rest & -> & Hsame).
    exists (map lower_char pre), (map lower_char rest).
    rewrite !map_app, Hsame. reflexivity.
Qed.
End Like.

Section LineItemSearch.
Import App.

Lemma search_order_total a b : search_order a b = true \/ search_order b a = true.
Proof.
  unfold search_order.
  destruct (Z.lt_trichotomy (filing_year a) (filing_year b)) as [H|[H|H]].
  - right. apply orb_true_iff. left. apply Z.ltb_lt, H.
  - destruct (String.leb_total (company_name a) (company_name b)) as [Hn|Hn];
      [left|right]; apply orb_true_iff; right; apply andb_true_iff;
      (split; [apply Z.eqb_eq; lia | exact Hn]).
  - left. apply orb_true_iff. left. apply Z.ltb_lt, H.
Qed.

Lemma search_order_trans a b c :
  search_order a b = true -> search_order b c = true -> search_order a c = true.
Proof.
  unfold search_order.
  rewrite !orb_true_iff, !andb_true_iff, !Z.ltb_lt, !Z.eqb_eq.
  intros [H1|[H1 H1']] [H2|[H2 H2']].
  - left. lia.
  - left. lia.
  - left. lia.
  - right. split; [lia|]. eapply str_leb_trans; eassumption.
Qed.

Lemma left_join_taxonomy_In db f t :
  In (f, t) (left_join_taxonomy db) <->
  In f (financial_line_items db) /\
  match t with
  | Some t => In t (xbrl_taxonomy db) /\ item_xbrl_tag f = taxonomy_xbrl_tag t
  | None => forall t, In t (xbrl_taxonomy db) -> item_xbrl_tag f <> taxonomy_xbrl_tag t
  end.
Proof.
  unfold left_join_taxonomy. rewrite in_flat_map. split.
  - intros (g & Hg & Hin).
    destruct (List.filter _ (xbrl_taxonomy db)) as [|t0 ts] eqn:Hts.
    + destruct Hin as [[= <- <-]|[]]. split; [exact Hg|].
      intros t Ht Htag.
      assert (Hin : In t (List.filter
                (fun t => String.eqb (item_xbrl_tag g) (taxonomy_xbrl_tag t))
                (xbrl_taxonomy db))).
      { apply List.filter_In. split; [exact Ht | apply String.eqb_eq, Htag]. }
      rewrite Hts in Hin. exact Hin.
    + apply in_map_iff in Hin as (t1 & [= <- <-] & Ht1). split; [exact Hg|].
      rewrite <- Hts in Ht1. apply List.filter_In in Ht1 as [Ht1 Htag].
      split; [exact Ht1 | apply String.eqb_eq, Htag].
  - intros [Hf Ht]. exists f. split; [exact Hf|].
    destruct (List.filter _ (xbrl_taxonomy db)) as [|t0 ts] eqn:Hts.
    + destruct t as [t|]; [|left; reflexivity].
      destruct Ht as [Ht Htag]. exfalso.
      assert (Hin : In t (List.filter
                (fun t => String.eqb (item_xbrl_tag f) (taxonomy_xbrl_tag t))
                (xbrl_taxonomy db))).
      { apply List.filter_In. split; [exact Ht | apply String.eqb_eq, Htag]. }
      rewrite Hts in Hin. exact Hin.
    + destruct t as [t|].
      * destruct Ht as [Ht Htag]. apply in_map_iff. exists t.
        split; [reflexivity|]. rewrite <- Hts.
        apply List.filter_In. split; [exact Ht | apply String.eqb_eq, Htag].
      * exfalso.
        assert (Hin : In t0 (List.filter
                  (fun t => String.eqb (item_xbrl_tag f) (taxonomy_xbrl_tag t))
                  (xbrl_taxonomy db))) by (rewrite Hts; left; reflexivity).
        apply List.filter_In in Hin as [Hin Htag].
        apply (Ht t0 Hin). apply String.eqb_eq, Htag.
Qed.

(** Every line item is in the LEFT JOIN, with or without a taxonomy row. *)
Lemma left_join_taxonomy_covers db f :
  In f (financial_line_items db) -> exists t, In (f, t) (left_join_taxonomy db).
Proof.
  intros Hf. unfold left_join_taxonomy.
  destruct (List.filter
              (fun t => String.eqb (item_xbrl_tag f) (taxonomy_xbrl_tag t))
              (xbrl_taxonomy db)) as [|t0 ts] eqn:Hts.
  - exists None. apply in_flat_map. exists f. split; [exact Hf|].
    rewrite Hts. left. reflexivity.
  - exists (Some t0). apply in_flat_map. exists f. split; [exact Hf|].
    rewrite Hts. left. reflexivity.
Qed.

Lemma search_line_items_In db term limit row :
  In row (search_line_items db term limit) ->
  exists f t,
    In (f, t) (left_join_taxonomy db) /\
    search_matches ("%" +:+ term +:+ "%") (f, t) = true /\
    row = search_row (f, t).
Proof.
  unfold search_line_items. intros Hrow.
  destruct (sql_limit_firstn limit
              (stable_sort search_order
                 (drop_duplicates id
                    (map search_row
                       (List.filter (search_matches ("%" +:+ term +:+ "%"))
                          (left_join_taxonomy db)))))) as [k Hk].
  rewrite Hk in Hrow. apply firstn_In in Hrow.
  eapply Permutation_in in Hrow; [|apply stable_sort_perm].
  apply drop_duplicates_In in Hrow.
  apply in_map_iff in Hrow as ([f t] & <- & Hft).
  apply List.filter_In in Hft as [Hft Hmatch]. exists f, t. auto.
Qed.

Lemma sql_limit_all {A} n (l : list A) :
  n < 0 \/ Z.of_nat (length (sql_limit n l)) < n -> sql_limit n l = l.
Proof.
  unfold sql_limit. destruct (n <? 0) eqn:Hn; [reflexivity|].
  apply Z.ltb_ge in Hn. intros [H|H]; [lia|].
  rewrite length_firstn in H. apply firstn_all2. lia.
Qed.
End LineItemSearch.

(** X13: [search_line_items] is a search for substrings.  Its rows come in
    the order of [ORDER BY f.filing_year DESC, f.company_name], no row twice,
    at most [limit] of them; every row is a line item, with the taxonomy row
    of its tag if there is one, that the WHERE clause accepts.  Whenever the
    limit does not cut the result, every line item whose label or tag
    contains the search term, letters of ASCII compared without regard to
    case, is found.  When the search term has no [%] and no [_], which LIKE
    reads as wild cards, nothing else is found: the term occurs in the label
    or the tag of the row or in the standard label or the aliases of a
    taxonomy row of its tag. *)
Theorem search_line_items_finds_substrings (db : App.Database) (term : string)
    (limit : Z) :
  let result := App.search_line_items db term limit in
  StronglySorted (fun a b => App.search_order a b = true) result /\
  NoDup result /\
  (0 <= limit -> Z.of_nat (length result) <= limit) /\
  (forall row, In row result ->
     exists f t, In (f, t) (App.left_join_taxonomy db) /\
       App.search_matches ("%" +:+ term +:+ "%") (f, t) = true /\
       row = App.search_row (f, t)) /\
  (forall f, In f (App.financial_line_items db) ->
     str_contains (lower term) (lower (App.item_line_item_label f)) = true \/
     str_contains (lower term) (lower (App.item_xbrl_tag f)) = true ->
     limit < 0 \/ Z.of_nat (length result) < limit ->
     exists row, In row result /\
       App.company_name row = App.item_company_name f /\
       App.line_item_label row = App.item_line_item_label f /\
       App.xbrl_tag row = App.item_xbrl_tag f /\
       App.value row = App.item_value f /\
       App.filing_year row = App.item_filing_year f) /\
  (Forall (fun c : ascii => c <> "%"%char /\ c <> "_"%char)
     (list_ascii_of_string term) ->
   forall row, In row result ->
     str_contains (lower term) (lower (App.line_item_label row)) = true \/
     str_contains (lower term) (lower (App.xbrl_tag row)) = true \/
     exists t text,
       In t (App.xbrl_taxonomy db) /\
       App.taxonomy_xbrl_tag t = App.xbrl_tag row /\
       (App.taxonomy_standard_label t = Some text \/
        App.taxonomy_common_aliases t = Some text) /\
       str_contains (lower term) (lower text) = true).
Proof.
  intros result.
  set (selected := map App.search_row
                     (List.filter (App.search_matches ("%" +:+ term +:+ "%"))
                        (App.left_join_taxonomy db))).
  set (ordered := stable_sort App.search_order (drop_duplicates id selected)).
  assert (Hresult : result = sql_limit limit ordered) by reflexivity.
  destruct (sql_limit_firstn limit ordered) as [k Hk].
  assert (Hperm : Permutation ordered (drop_duplicates id selected))
    by apply stable_sort_perm.
  split; [|split; [|split; [|split; [|split]]]].
  - rewrite Hresult, Hk. apply StronglySorted_firstn.
    apply stable_sort_sorted; [apply search_order_total | apply search_order_trans].
  - rewrite Hresult, Hk. apply NoDup_firstn. rewrite Hperm.
    pose proof (drop_duplicates_NoDup id selected) as H.
    rewrite map_id in H. exact H.
  - intros Hlimit. rewrite Hresult. apply sql_limit_length, Hlimit.
  - intros row Hrow. apply (search_line_items_In db term limit row Hrow).
  - intros f Hf Hcontains Hcut.
    destruct (left_join_taxonomy_covers db f Hf) as [t Hft].
    assert (Hmatch : App.search_matches ("%" +:+ term +:+ "%") (f, t) = true).
    { unfold App.search_matches.
      destruct Hcontains as [H|H]; apply (proj1 (sql_like_contains _ _)) in H;
        rewrite H; rewrite ?orb_true_r; reflexivity. }
    exists (App.search_row (f, t)). split; [|repeat split].
    rewrite Hresult in Hcut |- *. rewrite (sql_limit_all _ _ Hcut).
    apply (Permutation_in _ (Permutation_sym Hperm)).
    pose proof (drop_duplicates_covers id selected (App.search_row (f, t))) as H.
    rewrite map_id in H. apply H. apply in_map, List.filter_In. auto.
  - intros Hliteral row Hrow.
    destruct (search_line_items_In db term limit row Hrow)
      as (f & t & Hft & Hmatch & ->).
    apply left_join_taxonomy_In in Hft as [_ Ht].
    unfold App.search_matches in Hmatch.
    apply orb_true_iff in Hmatch as [Hmatch|Haliases].
    apply orb_true_iff in Hmatch as [Hmatch|Hstandard].
    apply orb_true_iff in Hmatch as [Hlabel|Htag].
    + left. apply (proj2 (sql_like_contains _ _) Hliteral Hlabel).
    + right. left. apply (proj2 (sql_like_contains _ _) Hliteral Htag).
    + right. right. destruct t as [t|]; [|discriminate]. destruct Ht as [Ht Htag].
      simpl in Hstandard.
      destruct (App.taxonomy_standard_label t) as [text|] eqn:Htext; [|discriminate].
      exists t, text. split; [exact Ht|]. split; [symmetry; exact Htag|].
      split; [left; exact Htext|].
      apply (proj2 (sql_like_contains _ _) Hliteral Hstandard).
    + right. right. destruct t as [t|]; [|discriminate]. destruct Ht as [Ht Htag].
      simpl in Haliases.
      destruct (App.taxonomy_common_aliases t) as [text|] eqn:Htext; [|discriminate].
      exists t, text. split; [exact Ht|]. split; [symmetry; exact Htag|].
      split; [right; exact Htext|].
      apply (proj2 (sql_like_contains _ _) Hliteral Haliases).
Qed.

Section Ranking.
Import App.

(** What [smart_search] ranks: the rows of the exact search, or of the
    words when the exact search finds nothing. *)
Lemma smart_search_eq db query max_results :
  exists found,
    smart_search db query max_results
    = head max_results
        (stable_sort (score_order (lower query))
           (drop_duplicates duplicate_key found)) /\
    (search_line_items db query max_results <> [] ->
     found = search_line_items db query max_results).
Proof.
  unfold smart_search.
  destruct (search_line_items db query max_results) as [|row rows] eqn:Hexact.
  - exists (flat_map (search_word db max_results (split query)) (split query)).
    split; [|intros H; contradiction].
    rewrite foldl_extend. simpl app.
    destruct (flat_map _ (split query)); [reflexivity|].
    rewrite _rank_results_sort. reflexivity.
  - exists (row :: rows). split; [|reflexivity].
    rewrite _rank_results_sort. reflexivity.
Qed.

Lemma calculate_score_range q row :
  0 <= calculate_score q row <= 140 /\
  (100 <= calculate_score q row <-> q = lower (line_item_label row)).
Proof.
  unfold calculate_score.
  destruct (String.eqb_spec q (lower (line_item_label row))) as [Heq|Hne];
    destruct (str_contains q (lower (line_item_label row)));
    destruct (str_contains q (lower (xbrl_tag row)));
    destruct (2023 <=? filing_year row); destruct (2022 <=? filing_year row);
    simpl; (split; [lia|]); split; intros H; try lia; try exact Heq;
    contradiction.
Qed.

(** In a list that falls in a measure, the items at or above a threshold
    come first. *)
Lemma sorted_threshold {A} (m : A -> Z) (P : A -> Prop) (threshold : Z) l :
  (forall x, threshold <= m x <-> P x) ->
  StronglySorted (fun a b => m b <= m a) l ->
  exists k, Forall P (firstn k l) /\ Forall (fun x => ~ P x) (skipn k l).
Proof.
  intros HP. induction 1 as [|x l Hsorted IH Hx].
  - exists 0%nat. split; constructor.
  - destruct (Z_le_gt_dec threshold (m x)) as [Hle|Hgt].
    + destruct IH as (k & Hfirst & Hrest). exists (S k). simpl.
      split; [constructor; [apply HP, Hle | exact Hfirst] | exact Hrest].
    + exists 0%nat. split; [constructor|]. simpl. constructor.
      * intros Hp. apply HP in Hp. lia.
      * rewrite List.Forall_forall in *. intros y Hy Hp.
        apply HP in Hp. specialize (Hx y Hy). simpl in Hx. lia.
Qed.
End Ranking.

(** X14: what [SearchEngine.smart_search] returns, on either path.  No two
    rows agree on (company, tag, fiscal year); the rows fall in relevance
    score; a score lies between 0 and 140 and reaches 100 exactly for the
    rows whose label is the query, letters compared without regard to case,
    so these rows come before all others; there are at most [max_results]
    rows; and when the exact search finds a row, no word of the query is
    searched: every row returned is a row of the exact search. *)
Theorem smart_search_equal_labels_first (db : App.Database) (query : string)
    (max_results : Z) :
  let result := App.smart_search db query max_results in
  NoDup (map App.duplicate_key result) /\
  StronglySorted
    (fun a b => App.calculate_score (lower query) b
                <= App.calculate_score (lower query) a) result /\
  (forall row,
     0 <= App.calculate_score (lower query) row <= 140 /\
     (100 <= App.calculate_score (lower query) row
      <-> lower query = lower (App.line_item_label row))) /\
  (exists k,
     Forall (fun row => lower query = lower (App.line_item_label row))
       (firstn k result) /\
     Forall (fun row => lower query <> lower (App.line_item_label row))
       (skipn k result)) /\
  (0 <= max_results -> Z.of_nat (length result) <= max_results) /\
  (App.search_line_items db query max_results <> [] ->
   forall row, In row result ->
     In row (App.search_line_items db query max_results)).
Proof.
  intros result.
  destruct (smart_search_eq db query max_results) as (found & Heq & Hfound).
  fold result in Heq.
  set (ranked := stable_sort (App.score_order (lower query))
                   (drop_duplicates App.duplicate_key found)) in *.
  assert (Hperm : Permutation ranked (drop_duplicates App.duplicate_key found))
    by apply stable_sort_perm.
  destruct (head_firstn max_results ranked) as [k Hk].
  assert (Hsorted : StronglySorted
            (fun a b => App.calculate_score (lower query) b
                        <= App.calculate_score (lower query) a) result).
  { rewrite Heq, Hk. apply StronglySorted_firstn.
    eapply StronglySorted_weaken;
      [|apply (stable_sort_sorted (App.score_order (lower query)))].
    - intros a b. unfold App.score_order. apply Z.leb_le.
    - apply score_order_total.
    - apply score_order_trans. }
  split; [|split; [exact Hsorted|split; [|split; [|split]]]].
  - rewrite Heq, Hk, <- firstn_map. apply NoDup_firstn.
    rewrite Hperm. apply drop_duplicates_NoDup.
  - intros row. apply calculate_score_range.
  - apply (sorted_threshold (App.calculate_score (lower query)) _ 100);
      [|exact Hsorted].
    intros row. apply calculate_score_range.
  - intros Hmax. rewrite Heq. apply head_length, Hmax.
  - intros Hexact row Hrow. rewrite Heq, Hk in Hrow. apply firstn_In in Hrow.
    apply (Permutation_in _ Hperm) in Hrow. apply drop_duplicates_In in Hrow.
    rewrite (Hfound Hexact) in Hrow. exact Hrow.
Qed.

Section ProductionSearch.
Import Db.

Lemma lower_app a b : lower (a +:+ b) = lower a +:+ lower b.
Proof. induction a as [|c a IH]; simpl; [reflexivity|]. rewrite IH. reflexivity. Qed.

(** [LOWER(column) LIKE LOWER('%q%')] is the search for [q] in the column
    without regard to case. *)
Lemma lower_like_contains q column :
  (str_contains (lower q) (lower column) = true ->
   lower_like column ("%" +:+ q +:+ "%") = true) /\
  (Forall (fun c : ascii => c <> "%"%char /\ c <> "_"%char)
     (list_ascii_of_string q) ->
   lower_like column ("%" +:+ q +:+ "%") = true ->
   str_contains (lower q) (lower column) = true).
Proof.
  unfold lower_like. rewrite !lower_app. change (lower "%") with "%".
  destruct (sql_like_contains (lower q) (lower column)) as [Hfind Hinv].
  rewrite !lower_idem in Hfind, Hinv. split; [exact Hfind|].
  intros Hliteral. apply Hinv. rewrite chars_lower.
  apply Forall_map. eapply List.Forall_impl; [|exact Hliteral].
  intros c. apply lower_char_literal.
Qed.

Lemma search_order_spec a b :
  search_order a b = true <->
  relevance_score b < relevance_score a \/
  relevance_score a = relevance_score b /\
  (null_leb (result_fiscal_year a) (result_fiscal_year b) = false \/
   result_fiscal_year a = result_fiscal_year b /\
   String.leb (result_company_name a) (result_company_name b) = true).
Proof.
  unfold search_order.
  repeat (rewrite orb_true_iff || rewrite andb_true_iff).
  rewrite Z.ltb_lt, Z.eqb_eq, negb_true_iff, bool_decide_eq_true. reflexivity.
Qed.

Lemma null_leb_total x y : null_leb x y = false -> null_leb y x = true.
Proof.
  destruct x as [x|], y as [y|]; simpl; try congruence.
  rewrite Z.leb_gt, Z.leb_le. lia.
Qed.

Lemma null_leb_antisym x y : null_leb x y = true -> null_leb y x = true -> x = y.
Proof.
  destruct x as [x|], y as [y|]; simpl; try congruence.
  rewrite !Z.leb_le. intros. f_equal. lia.
Qed.

Lemma null_leb_trans x y z :
  null_leb x y = true -> null_leb y z = true -> null_leb x z = true.
Proof.
  destruct x as [x|], y as [y|], z as [z|]; simpl; try congruence.
  rewrite !Z.leb_le. lia.
Qed.

Lemma production_search_order_total a b :
  search_order a b = true \/ search_order b a = true.
Proof.
  rewrite !search_order_spec.
  destruct (Z.lt_trichotomy (relevance_score a) (relevance_score b)) as [H|[H|H]];
    [right; left; exact H | | left; left; exact H].
  destruct (null_leb (result_fiscal_year a) (result_fiscal_year b)) eqn:Hab;
    [|left; right; auto].
  destruct (null_leb (result_fiscal_year b) (result_fiscal_year a)) eqn:Hba;
    [|right; right; auto].
  pose proof (null_leb_antisym _ _ Hab Hba) as Hyear.
  destruct (String.leb_total (result_company_name a) (result_company_name b));
    [left|right]; right; auto.
Qed.

Lemma production_search_order_trans a b c :
  search_order a b = true -> search_order b c = true -> search_order a c = true.
Proof.
  rewrite !search_order_spec.
  intros [H1|[H1 H1']] [H2|[H2 H2']]; [left; lia | left; lia | left; lia |].
  right. split; [lia|].
  destruct H1' as [H1'|[H1' N1]], H2' as [H2'|[H2' N2]].
  - left. destruct (null_leb (result_fiscal_year a) (result_fiscal_year c)) eqn:H;
      [|reflexivity].
    apply null_leb_total in H2'.
    rewrite (null_leb_trans _ _ _ H H2') in H1'. discriminate.
  - left. rewrite <- H2'. exact H1'.
  - left. rewrite H1'. exact H2'.
  - right. split; [congruence|]. eapply str_leb_trans; eassumption.
Qed.

Lemma score_values q f :
  In (score q f) [100; 80; 60; 40; 20] /\
  (score q f = 100 <-> lower (label f) = lower q).
Proof.
  unfold score.
  destruct (String.eqb_spec (lower (label f)) (lower q)) as [Heq|Hne].
  - split; [left; reflexivity | tauto].
  - split.
    + destruct (lower_like (label f) _); [right; left; reflexivity|].
      destruct (lower_like (tag f) _); [right; right; left; reflexivity|].
      destruct (lower_like (description f) _); simpl; auto 6.
    + destruct (lower_like (label f) _); [split; [discriminate|contradiction]|].
      destruct (lower_like (tag f) _); [split; [discriminate|contradiction]|].
      destruct (lower_like (description f) _); split;
        try discriminate; contradiction.
Qed.
End ProductionSearch.

(** X15: what [ProductionDatabaseManager.smart_search] returns.  The rows
    come in the order of [ORDER BY relevance_score DESC, f.fiscal_year DESC,
    c.name], no row twice, at most [limit] of them; every row joins a stored
    fact with the company of its cik.  The score is one of 100, 80, 60, 40
    and 20, and 100 exactly when label and query agree but for case, so such
    rows come before all others.  Whenever the limit does not cut the
    result, every joined fact is found whose label, tag or description or
    whose company's name contains the query, case apart.  For a query
    without [%] and [_] nothing else is found, and a row scores 20 only
    when the query occurs in the name of the company and in none of label,
    tag and description. *)
Theorem production_smart_search_ranking (st : Db.Store) (query : string)
    (limit : Z) :
  let result := Db.smart_search st query limit in
  let occurs_in text := str_contains (lower query) (lower text) in
  StronglySorted (fun a b => Db.search_order a b = true) result /\
  NoDup result /\
  (0 <= limit -> Z.of_nat (length result) <= limit) /\
  (forall r, In r result ->
     exists d c, In (d, c) (Db.join_companies st) /\
       Db.search_matches query (d, c) = true /\
       r = Db.search_result query (d, c)) /\
  (forall r, In r result ->
     In (Db.relevance_score r) [100; 80; 60; 40; 20] /\
     (Db.relevance_score r = 100 <-> lower (Db.result_label r) = lower query)) /\
  (exists k,
     Forall (fun r => lower (Db.result_label r) = lower query) (firstn k result) /\
     Forall (fun r => lower (Db.result_label r) <> lower query) (skipn k result)) /\
  (forall d c, In (d, c) (Db.join_companies st) ->
     occurs_in (Db.label d) = true \/ occurs_in (Db.tag d) = true \/
     occurs_in (Db.description d) = true \/
     occurs_in (Db.company_name c) = true ->
     limit < 0 \/ Z.of_nat (length result) < limit ->
     In (Db.search_result query (d, c)) result) /\
  (Forall (fun c : ascii => c <> "%"%char /\ c <> "_"%char)
     (list_ascii_of_string query) ->
   forall r, In r result ->
     (occurs_in (Db.result_label r) = true \/ occurs_in (Db.result_tag r) = true \/
      occurs_in (Db.result_description r) = true \/
      occurs_in (Db.result_company_name r) = true) /\
     (Db.relevance_score r = 20 ->
      occurs_in (Db.result_company_name r) = true /\
      occurs_in (Db.result_label r) = false /\
      occurs_in (Db.result_tag r) = false /\
      occurs_in (Db.result_description r) = false)).
Proof.
  intros result occurs_in.
  set (selected := map (Db.search_result query)
                     (List.filter (Db.search_matches query) (Db.join_companies st))).
  set (ordered := stable_sort Db.search_order
                    (drop_duplicates (fun r => r) selected)).
  assert (Hresult : result = sql_limit limit ordered) by reflexivity.
  destruct (sql_limit_firstn limit ordered) as [k Hk].
  assert (Hperm : Permutation ordered (drop_duplicates (fun r => r) selected))
    by apply stable_sort_perm.
  assert (Hsorted : StronglySorted (fun a b => Db.search_order a b = true) result).
  { rewrite Hresult, Hk. apply StronglySorted_firstn.
    apply stable_sort_sorted;
      [apply production_search_order_total | apply production_search_order_trans]. }
  assert (Hfrom : forall r, In r result ->
            exists d c, In (d, c) (Db.join_companies st) /\
              Db.search_matches query (d, c) = true /\
              r = Db.search_result query (d, c)).
  { intros r Hr. rewrite Hresult, Hk in Hr. apply firstn_In in Hr.
    apply (Permutation_in _ Hperm) in Hr. apply drop_duplicates_In in Hr.
    apply in_map_iff in Hr as ([d c] & <- & Hdc).
    apply List.filter_In in Hdc as [Hdc Hmatch]. exists d, c. auto. }
  assert (Hscore : forall r, In r result ->
            In (Db.relevance_score r) [100; 80; 60; 40; 20] /\
            (Db.relevance_score r = 100
             <-> lower (Db.result_label r) = lower query)).
  { intros r Hr. destruct (Hfrom r Hr) as (d & c & _ & _ & ->).
    apply score_values. }
  split; [exact Hsorted|].
  split; [|split; [|split; [exact Hfrom|split; [exact Hscore|split; [|split]]]]].
  - rewrite Hresult, Hk. apply NoDup_firstn. rewrite Hperm.
    pose proof (drop_duplicates_NoDup (fun r : Db.SearchResult => r) selected) as H.
    rewrite map_id in H. exact H.
  - intros Hlimit. rewrite Hresult. apply sql_limit_length, Hlimit.
  - assert (Hfalls : StronglySorted
              (fun a b => Db.relevance_score b <= Db.relevance_score a) result).
    { eapply StronglySorted_weaken; [|exact Hsorted].
      intros a b Hab. apply search_order_spec in Hab. lia. }
    clear Hsorted Hfrom. revert Hscore Hfalls. generalize result.
    intros l Hscore Hfalls. induction Hfalls as [|x l Hl IH Hx].
    + exists 0%nat. split; constructor.
    + assert (Hscore' : forall r, In r l ->
                In (Db.relevance_score r) [100; 80; 60; 40; 20] /\
                (Db.relevance_score r = 100
                 <-> lower (Db.result_label r) = lower query)).
      { intros r Hr. apply Hscore. right. exact Hr. }
      destruct (Hscore x (or_introl eq_refl)) as [Hvalues Hx100].
      destruct (Z.eq_dec (Db.relevance_score x) 100) as [Heq|Hne].
      * destruct (IH Hscore') as (k' & Hfirst & Hrest). exists (S k'). simpl.
        split; [constructor; [apply Hx100, Heq | exact Hfirst] | exact Hrest].
      * exists 0%nat. split; [constructor|]. simpl. constructor.
        -- intros Hlabel. apply Hne, Hx100, Hlabel.
        -- rewrite List.Forall_forall in *. intros y Hy Hlabel.
           destruct (Hscore' y Hy) as [_ Hy100]. apply Hy100 in Hlabel.
           specialize (Hx y Hy). simpl in Hx.
           simpl in Hvalues. lia.
  - intros d c Hdc Hoccurs Hcut.
    assert (Hmatch : Db.search_matches query (d, c) = true).
    { unfold Db.search_matches. simpl fst. simpl snd.
      destruct Hoccurs as [H|[H|[H|H]]];
        apply (proj1 (lower_like_contains _ _)) in H; rewrite H;
        rewrite ?orb_true_r; reflexivity. }
    rewrite Hresult in Hcut |- *. rewrite (sql_limit_all _ _ Hcut).
    apply (Permutation_in _ (Permutation_sym Hperm)).
    pose proof (drop_duplicates_covers (fun r : Db.SearchResult => r) selected
                  (Db.search_result query (d, c))) as H.
    rewrite map_id in H. apply H. apply in_map, List.filter_In. auto.
  - intros Hliteral r Hr. destruct (Hfrom r Hr) as (d & c & _ & Hmatch & ->).
    simpl Db.result_label. simpl Db.result_tag. simpl Db.result_description.
    simpl Db.result_company_name. simpl Db.relevance_score.
    unfold Db.search_matches in Hmatch. simpl fst in Hmatch. simpl snd in Hmatch.
    pose proof (lower_like_contains query (Db.label d)) as [Hl1 Hl2].
    pose proof (lower_like_contains query (Db.tag d)) as [Ht1 Ht2].
    pose proof (lower_like_contains query (Db.description d)) as [Hd1 Hd2].
    pose proof (lower_like_contains query (Db.company_name c)) as [Hc1 Hc2].
    specialize (Hl2 Hliteral). specialize (Ht2 Hliteral).
    specialize (Hd2 Hliteral). specialize (Hc2 Hliteral).
    unfold Db.score. subst occurs_in. cbv beta zeta. cbv zeta in Hmatch.
    destruct (Db.lower_like (Db.label d) _) eqn:Hlabel.
    { split; [left; apply Hl2; reflexivity|].
      destruct (String.eqb _ _); cbv iota; discriminate. }
    destruct (Db.lower_like (Db.tag d) _) eqn:Htag.
    { split; [right; left; apply Ht2; reflexivity|].
      destruct (String.eqb _ _); cbv iota; discriminate. }
    destruct (Db.lower_like (Db.description d) _) eqn:Hdesc.
    { split; [right; right; left; apply Hd2; reflexivity|].
      destruct (String.eqb _ _); cbv iota; discriminate. }
    simpl in Hmatch. split; [right; right; right; apply Hc2, Hmatch|].
    intros _. split; [apply Hc2, Hmatch|].
    repeat split.
    + destruct (str_contains (lower query) (lower (Db.label d))); [|reflexivity].
      discriminate (Hl1 eq_refl).
    + destruct (str_contains (lower query) (lower (Db.tag d))); [|reflexivity].
      discriminate (Ht1 eq_refl).
    + destruct (str_contains (lower query) (lower (Db.description d)));
        [|reflexivity].
      discriminate (Hd1 eq_refl).
Qed.

Section Orchestration.
Import Integration.
Variable float_of_str : string -> option spec_float.
Variable frames : nat.
Variable srv : Parser.Service.

Local Abbreviation fetch_and_store := (fetch_and_store_company float_of_str frames srv).

(** The two ways [fetch_and_store_company] ends: without touching the
    database, or with [True] and the extracted facts stored. *)
Lemma fetch_and_store_company_cases ticker s :
  (fst (fetch_and_store ticker s) <> Ok true /\
   db (snd (fetch_and_store ticker s)) = db s) \/
  (fst (fetch_and_store ticker s) = Ok true /\
   exists company_info company_data facts,
     Parser.get_company_info ticker = Some company_info /\
     Parser.get_company_facts frames srv (fst company_info) (edgar_client s)
     = (Ok (Some company_data), edgar_client (snd (fetch_and_store ticker s))) /\
     Parser.extract_financial_facts float_of_str (Some company_data) = Ok facts /\
     facts <> [] /\
     db (snd (fetch_and_store ticker s))
     = Db.store_company_facts
         (timestamp (edgar_client (snd (fetch_and_store ticker s)))) facts true
         (db s)).
Proof.
  unfold fetch_and_store_company.
  destruct (Parser.get_company_info ticker) as [company_info|] eqn:Hinfo;
    [|left; split; [discriminate|reflexivity]].
  destruct (Parser.get_company_facts frames srv (fst company_info) (edgar_client s))
    as [fetched client] eqn:Hfetch.
  destruct fetched as [[company_data|]|e];
    try (left; split; [discriminate|reflexivity]).
  destruct (Parser.extract_financial_facts float_of_str (Some company_data))
    as [[|fact facts]|e] eqn:Hfacts;
    try (left; split; [discriminate|reflexivity]).
  right. split; [reflexivity|].
  exists company_info, company_data, (fact :: facts).
  repeat split; try reflexivity; try assumption. discriminate.
Qed.

Lemma store_company_facts_ids_in_order now facts st :
  Db.ids_in_order st ->
  Db.ids_in_order (Db.store_company_facts now facts true st) /\
  Db.fact_sequence st <= Db.fact_sequence (Db.store_company_facts now facts true st).
Proof.
  intros Hst. unfold Db.store_company_facts.
  destruct facts as [|f facts]; [split; [exact Hst|lia]|].
  destruct (store_groups_ids now true (Db.group_by_cik (f :: facts)) st Hst)
    as (Hst' & Hseq & _).
  split; [exact Hst'|]. rewrite Hseq. lia.
Qed.

Lemma store_company_facts_NoDup now facts st :
  NoDup (map Db.natural_key (Db.fact_rows st)) ->
  NoDup (map Db.natural_key (Db.fact_rows (Db.store_company_facts now facts true st))).
Proof.
  intros Hst. rewrite fact_rows_store_company_facts. apply foldl_upsert_NoDup, Hst.
Qed.

Local Abbreviation succeeded outcome :=
  (match outcome with Ok success => success | Raise _ => false end).

Lemma integrate_company_step results s company :
  integrate_company float_of_str frames srv (results, s) company
  = (results ++ [(fst company, succeeded (fst (fetch_and_store (fst company) s)))],
     snd (fetch_and_store (fst company) s)).
Proof.
  unfold integrate_company.
  destruct (fetch_and_store (fst company) s) as [outcome s1]. reflexivity.
Qed.

(** What every store keeps, every run over the companies keeps. *)
Lemma integrate_companies_invariant (P : Db.Store -> Prop) companies :
  (forall now facts st, P st -> P (Db.store_company_facts now facts true st)) ->
  forall results s,
    P (db s) ->
    P (db (snd (foldl (integrate_company float_of_str frames srv) (results, s)
                  companies))).
Proof.
  intros Hstore. induction companies as [|company companies IH];
    intros results s Hs; [exact Hs|].
  cbn [foldl]. rewrite integrate_company_step. apply IH.
  destruct (fetch_and_store_company_cases (fst company) s)
    as [[_ Hdb]|(_ & _ & _ & facts & _ & _ & _ & _ & Hdb)];
    rewrite Hdb; [exact Hs | apply Hstore, Hs].
Qed.

(** The results of a run: one entry for every company, in order; a run in
    which every company fails leaves the database as it was. *)
Lemma integrate_companies_results companies : forall results s,
  exists more,
    fst (foldl (integrate_company float_of_str frames srv) (results, s) companies)
    = results ++ more /\
    map fst more = map fst companies /\
    (Forall (fun entry : string * bool => snd entry = false) more ->
     db (snd (foldl (integrate_company float_of_str frames srv) (results, s)
                companies)) = db s).
Proof.
  induction companies as [|company companies IH]; intros results s.
  - exists []. rewrite app_nil_r. repeat split; reflexivity.
  - cbn [foldl]. rewrite integrate_company_step.
    destruct (IH (results ++
                    [(fst company,
                      succeeded (fst (fetch_and_store (fst company) s)))])
                (snd (fetch_and_store (fst company) s)))
      as (more & Hresults & Hkeys & Hfailed).
    exists ((fst company, succeeded (fst (fetch_and_store (fst company) s)))
            :: more).
    split; [rewrite Hresults, <- app_assoc; reflexivity|].
    split; [simpl; rewrite Hkeys; reflexivity|].
    intros Hall. inversion Hall as [|? ? Hfirst Hrest]; subst.
    rewrite (Hfailed Hrest). simpl in Hfirst.
    destruct (fetch_and_store_company_cases (fst company) s)
      as [[_ Hdb]|[Htrue _]]; [exact Hdb|].
    rewrite Htrue in Hfirst. discriminate.
Qed.
End Orchestration.

(** X16: how [fetch_and_store_company] ends.  For a ticker that is not in
    the table it returns [False] and nothing happens: no request, no write.
    Whenever it does not return [True] the database is as it was.  When it
    returns [True], the ticker is known, the fetch gave a document, the
    extraction gave at least one fact, and the database holds a row for the
    key of every extracted fact; but as the store resets the ticker of the
    companies it writes, the trend query with a filter on tickers returns no
    row of the company just stored. *)
Theorem fetch_and_store_company_outcomes
    (float_of_str : string -> option spec_float) (frames : nat)
    (srv : Parser.Service) (ticker : string) (s : Integration.State) :
  let r := Integration.fetch_and_store_company float_of_str frames srv ticker s in
  (Parser.get_company_info ticker = None -> r = (Ok false, s)) /\
  (fst r <> Ok true -> Integration.db (snd r) = Integration.db s) /\
  (fst r = Ok true ->
   exists company_info company_data facts,
     Parser.get_company_info ticker = Some company_info /\
     fst (Parser.get_company_facts frames srv (fst company_info)
            (Integration.edgar_client s)) = Ok (Some company_data) /\
     Parser.extract_financial_facts float_of_str (Some company_data) = Ok facts /\
     facts <> [] /\
     (forall fact, In fact facts ->
        exists winner,
          In winner facts /\
          Db.natural_key (Db.fact_data winner) = Db.natural_key (Db.fact_data fact) /\
          In (Db.fact_data winner) (Db.fact_rows (Integration.db (snd r)))) /\
     (forall tag_ ticker' tickers form_types periods row,
        In row (Db.get_trend_data (Integration.db (snd r)) tag_
                  (Some (ticker' :: tickers)) form_types periods) ->
        ~ In (Db.trend_cik row) (Db.batch_ciks facts))).
Proof.
  intros r. split; [|split].
  - intros Hinfo. subst r. unfold Integration.fetch_and_store_company.
    rewrite Hinfo. reflexivity.
  - intros Hfalse.
    destruct (fetch_and_store_company_cases float_of_str frames srv ticker s)
      as [[_ Hdb]|[Htrue _]]; [exact Hdb | contradiction].
  - intros Htrue.
    destruct (fetch_and_store_company_cases float_of_str frames srv ticker s)
      as [[Hfalse _]|(_ & company_info & company_data & facts & Hinfo & Hfetch
                      & Hfacts & Hsome & Hdb)]; [contradiction|].
    fold r in Hfetch, Hdb.
    exists company_info, company_data, facts.
    split; [exact Hinfo|]. split; [rewrite Hfetch; reflexivity|].
    split; [exact Hfacts|]. split; [exact Hsome|]. rewrite Hdb. split.
    + intros fact Hfact.
      destruct (store_company_facts_winner
                  (Integration.timestamp (Integration.edgar_client (snd r)))
                  facts true (Integration.db s) fact Hfact)
        as (winner & Hlast & Hin).
      exists winner. apply last_Some in Hlast as [before Hlast].
      assert (Hwinner : In winner
                (List.filter
                   (fun g => bool_decide (Db.natural_key (Db.fact_data g)
                                          = Db.natural_key (Db.fact_data fact)))
                   facts)).
      { rewrite Hlast. apply in_or_app. right. left. reflexivity. }
      apply List.filter_In in Hwinner as [Hwinner Hkey].
      apply bool_decide_eq_true in Hkey. auto.
    + intros tag_ ticker' tickers form_types periods row Hrow Hbatch.
      apply get_trend_data_needs_ticker in Hrow as (c & Hc & Hcik & Hticker).
      rewrite <- Hcik in Hbatch.
      destruct (store_company_facts_company_reset _ facts (Integration.db s) c
                  Hc Hbatch) as [Hnone _].
      contradiction.
Qed.

(** X17: a run of [integrate_major_companies] reports every company it was
    given once, in the order of the table, whatever the service answers and
    whether or not a fetch ends in an exception.  The run keeps what every
    store keeps: natural keys stay unique and row ids stay in order, the
    AUTOINCREMENT counter never going back; and a run in which every
    company is reported as failed leaves the database as it was. *)
Theorem integrate_major_companies_reports_each_company
    (float_of_str : string -> option spec_float) (frames : nat)
    (srv : Parser.Service) (limit : Z) (s : Integration.State) :
  let r := Integration.integrate_major_companies float_of_str frames srv limit s in
  map fst (fst r)
  = map fst (if limit =? 0 then Parser.get_all_major_companies
             else head limit Parser.get_all_major_companies) /\
  NoDup (map fst (fst r)) /\
  (Forall (fun entry : string * bool => snd entry = false) (fst r) ->
   Integration.db (snd r) = Integration.db s) /\
  (NoDup (map Db.natural_key (Db.fact_rows (Integration.db s))) ->
   NoDup (map Db.natural_key (Db.fact_rows (Integration.db (snd r))))) /\
  (Db.ids_in_order (Integration.db s) ->
   Db.ids_in_order (Integration.db (snd r)) /\
   Db.fact_sequence (Integration.db s)
   <= Db.fact_sequence (Integration.db (snd r))).
Proof.
  intros r. subst r. unfold Integration.integrate_major_companies.
  set (companies := if limit =? 0 then Parser.get_all_major_companies
                    else head limit Parser.get_all_major_companies).
  destruct (integrate_companies_results float_of_str frames srv companies [] s)
    as (more & Hresults & Hkeys & Hfailed).
  simpl app in Hresults.
  assert (Hdistinct : NoDup (map fst companies)).
  { assert (Hall : NoDup (map fst Parser.get_all_major_companies)).
    { apply (bool_decide_unpack _). vm_compute. exact I. }
    subst companies. destruct (limit =? 0); [exact Hall|].
    destruct (head_firstn limit Parser.get_all_major_companies) as [k Hk].
    rewrite Hk, <- firstn_map. apply NoDup_firstn, Hall. }
  rewrite Hresults, Hkeys.
  split; [reflexivity|]. split; [exact Hdistinct|].
  split; [exact Hfailed|]. split.
  - apply (integrate_companies_invariant float_of_str frames srv
             (fun st => NoDup (map Db.natural_key (Db.fact_rows st)))).
    intros now facts st. apply store_company_facts_NoDup.
  - intros Hids.
    apply (integrate_companies_invariant float_of_str frames srv
             (fun st => Db.ids_in_order st /\
                        Db.fact_sequence (Integration.db s) <= Db.fact_sequence st)).
    + intros now facts st [Hst Hseq].
      destruct (store_company_facts_ids_in_order now facts st Hst) as [Hst' Hseq'].
      split; [exact Hst' | lia].
    + split; [exact Hids | lia].
Qed.

Section Tickers.
Import Db.

(** The companies whose ticker is one of the demo data. *)
Local Abbreviation from_demo_data st :=
  (forall c ticker,
     In c (company_rows st) -> company_ticker c = Some ticker ->
     In (company_cik c, company_name c, ticker) demo_companies).

Lemma _ensure_demo_data_tickers now st :
  from_demo_data st -> from_demo_data (_ensure_demo_data now st).
Proof.
  intros Hst c ticker. unfold _ensure_demo_data, company_rows.
  destruct (companies st) as [|row rows] eqn:Hrows.
  - cbn. intros [<-|[<-|[<-|[]]]] [= <-]; cbn; auto.
  - apply Hst.
Qed.

Lemma store_company_facts_tickers now facts update_company_info st :
  from_demo_data st ->
  from_demo_data (store_company_facts now facts update_company_info st).
Proof.
  intros Hst c ticker. rewrite company_rows_store_company_facts.
  destruct update_company_info; [|apply Hst].
  rewrite foldl_upsert_split. intros [Hc|Hc]%in_app_or.
  - apply List.filter_In in Hc as [Hc _]. apply Hst, Hc.
  - apply foldl_upsert_In in Hc. apply in_map_iff in Hc as (g & <- & _).
    discriminate.
Qed.

Lemma get_trend_data_ticker st tag_ ticker tickers form_types periods r :
  In r (get_trend_data st tag_ (Some (ticker :: tickers)) form_types periods) ->
  exists c t,
    In c (company_rows st) /\ company_cik c = trend_cik r /\
    company_name c = trend_company_name r /\
    company_ticker c = Some t /\ trend_ticker r = Some t /\
    In t (ticker :: tickers).
Proof.
  intros Hr.
  destruct (get_trend_data_prefix st tag_ (Some (ticker :: tickers)) form_types
              periods) as [k Hk].
  rewrite Hk in Hr. apply firstn_In in Hr.
  eapply Permutation_in in Hr; [|apply stable_sort_perm].
  apply trend_selected_In in Hr as (f & c & _ & Hc & Hcik & Hmatch & ->).
  unfold trend_matches in Hmatch. cbn [fst snd] in Hmatch.
  apply andb_true_iff in Hmatch as [_ Hmatch]. unfold ticker_in in Hmatch.
  destruct (company_ticker (info c)) as [t|] eqn:Hticker; [|discriminate].
  exists (info c), t. split; [apply in_map, Hc|].
  split; [symmetry; exact Hcik|]. split; [reflexivity|].
  split; [exact Hticker|]. split; [exact Hticker|].
  unfold str_in in Hmatch. apply existsb_exists in Hmatch as (t' & Hin & Heq).
  apply String.eqb_eq in Heq. subst t'. exact Hin.
Qed.
End Tickers.

(** X18: the demo data are the only source of tickers.  That every company
    with a ticker is a company of [demo_companies], with that cik, name and
    ticker, holds of the empty database, and [_ensure_demo_data] and
    [store_company_facts] keep it.  In such a database the trend query with
    a filter on tickers returns only rows of demo companies, under a ticker
    of the filter. *)
Theorem tickers_come_from_demo_data (now : Db.Timestamp)
    (facts : list Parser.CompanyFact) (update_company_info : bool) (st : Db.Store) :
  let from_demo_data st :=
    forall c ticker,
      In c (Db.company_rows st) -> Db.company_ticker c = Some ticker ->
      In (Db.company_cik c, Db.company_name c, ticker) Db.demo_companies in
  from_demo_data Db.empty_store /\
  (from_demo_data st -> from_demo_data (Db._ensure_demo_data now st)) /\
  (from_demo_data st ->
   from_demo_data (Db.store_company_facts now facts update_company_info st)) /\
  (from_demo_data st ->
   forall tag_ ticker tickers form_types periods r,
     In r (Db.get_trend_data st tag_ (Some (ticker :: tickers)) form_types periods) ->
     exists t,
       Db.trend_ticker r = Some t /\ In t (ticker :: tickers) /\
       In (Db.trend_cik r, Db.trend_company_name r, t) Db.demo_companies).
Proof.
  intros from_demo_data. subst from_demo_data. cbv beta.
  split; [intros c ticker []|].
  split; [apply _ensure_demo_data_tickers|].
  split; [apply store_company_facts_tickers|].
  intros Hst tag_ ticker tickers form_types periods r Hr.
  apply get_trend_data_ticker in Hr as (c & t & Hc & Hcik & Hname & Hticker & Hr & Hin).
  exists t. split; [exact Hr|]. split; [exact Hin|].
  rewrite <- Hcik, <- Hname. apply Hst; assumption.
Qed.
